(** * To-do list: models, routes, the in-memory mock server and the client state

    A shallow embedding of the to-do list application:
    - [backend/models/Task.js], [backend/models/Category.js],
      [backend/models/User.js] (Mongoose models),
    - the task and category routers (Express routers that sit behind
      [backend/middleware/auth.js]),
    - [backend/server-mock.js] (the in-memory server),
    - [backend/middleware/auth.js] with the request interceptor of
      [services/api.ts], and the client's [TaskContext], [AuthContext] and
      task form.

    Time is the number of milliseconds since the epoch (the value of a JS
    [Date]), an [ObjectId] is a natural number, a MongoDB collection is a
    finite map from [_id] to document. *)

From stdpp Require Import gmap strings list fin_maps sorting pretty.
From Stdlib Require Import ZArith Lia Ascii.

Local Open Scope Z_scope.

Abbreviation oid := nat.

(** [24 * 60 * 60 * 1000] *)
Definition day_ms : Z := 24 * 60 * 60 * 1000.

(** * models/Task.js *)

Inductive Priority := low | medium | high.

#[global] Instance Priority_eq_dec : EqDecision Priority.
Proof. solve_decision. Defined.

Module Task.

(** The schema paths of [taskSchema] that the routes read or write, with
    the two timestamps of [timestamps: true].  The optional extensions
    (tags, attachments, recurring, time estimates, notes) are attached
    data that no route below touches. *)
Record t := mk {
  title : string;
  description : option string;
  completed : bool;
  priority : Priority;
  categoryId : option oid;
  dueDate : option Z;
  userId : oid;
  createdAt : Z;
  updatedAt : Z
}.

#[global] Instance t_eq_dec : EqDecision t.
Proof. solve_decision. Defined.

(** A document object in memory: the schema paths, and the property
    [completedAt] that [markComplete], [markIncomplete] and
    [toggleComplete] assign.  [completedAt] is not a path of
    [taskSchema]: [save] does not write it, the object keeps it. *)
Record doc := mkdoc {
  paths : t;
  completedAt : option Z
}.

Definition set_completed (b : bool) (x : t) : t :=
  mk (title x) (description x) b (priority x) (categoryId x) (dueDate x)
     (userId x) (createdAt x) (updatedAt x).

Definition set_updatedAt (now : Z) (x : t) : t :=
  mk (title x) (description x) (completed x) (priority x) (categoryId x)
     (dueDate x) (userId x) (createdAt x) now.

Definition set_categoryId (c : option oid) (x : t) : t :=
  mk (title x) (description x) (completed x) (priority x) c (dueDate x)
     (userId x) (createdAt x) (updatedAt x).

(** [taskSchema.virtual('status')]: the getter evaluates [new Date()]
    twice; [now1] and [now2] are the two readings of the clock. *)
Definition status_at (now1 now2 : Z) (x : t) : string :=
  if completed x then "completed"
  else if match dueDate x with Some d => bool_decide (d < now1) | None => false end
    then "overdue"
  else if match dueDate x with Some d => bool_decide (d - now2 < day_ms) | None => false end
    then "due-soon"
  else "pending".

(** The getter evaluated at one instant. *)
Definition status (now : Z) (x : t) : string := status_at now now x.

(** The derived status as the specification words it. *)
Definition status_spec (now : Z) (x : t) : string :=
  match completed x, dueDate x with
  | true, _ => "completed"
  | false, None => "pending"
  | false, Some d =>
      if bool_decide (d < now) then "overdue"
      else if bool_decide (d - now < day_ms) then "due-soon"
      else "pending"
  end.

(** [this.save()] under [timestamps: true], at the time [now]: when a
    path of the document was modified, [updatedAt] becomes [now]; [before]
    are the paths as they were loaded. *)
Definition save (now : Z) (before x : t) : t :=
  if decide (x = before) then x else set_updatedAt now x.

(** [taskSchema.methods.markComplete], at the time [now]: the two
    assignments and the [save]. *)
Definition markComplete (now : Z) (d : doc) : doc :=
  mkdoc (save now (paths d) (set_completed true (paths d))) (Some now).

(** [taskSchema.methods.markIncomplete], at the time [now]. *)
Definition markIncomplete (now : Z) (d : doc) : doc :=
  mkdoc (save now (paths d) (set_completed false (paths d))) None.

(** [taskSchema.methods.toggleComplete], at the time [now]:
    [this.completed = !this.completed], then [completedAt] is
    [new Date()] or [undefined], then the [save], which finds [completed]
    modified and writes [updatedAt]. *)
Definition toggleComplete (now : Z) (d : doc) : doc :=
  let p := set_completed (negb (completed (paths d))) (paths d) in
  let saved := save now (paths d) p in
  if completed p then mkdoc saved (Some now) else mkdoc saved None.

End Task.

(** * models/Category.js *)

Module Category.

(** The paths of [categorySchema], with the two timestamps. *)
Record t := mk {
  name : string;
  color : string;
  icon : string;
  description : option string;
  userId : oid;
  isDefault : bool;
  isActive : bool;
  taskCount : Z;
  sortOrder : Z;
  createdAt : Z;
  updatedAt : Z
}.

Definition set_taskCount (n : Z) (c : t) : t :=
  mk (name c) (color c) (icon c) (description c) (userId c) (isDefault c)
     (isActive c) n (sortOrder c) (createdAt c) (updatedAt c).

Definition set_isActive (b : bool) (c : t) : t :=
  mk (name c) (color c) (icon c) (description c) (userId c) (isDefault c)
     b (taskCount c) (sortOrder c) (createdAt c) (updatedAt c).

Definition set_sortOrder (n : Z) (c : t) : t :=
  mk (name c) (color c) (icon c) (description c) (userId c) (isDefault c)
     (isActive c) (taskCount c) n (createdAt c) (updatedAt c).

Definition set_updatedAt (now : Z) (c : t) : t :=
  mk (name c) (color c) (icon c) (description c) (userId c) (isDefault c)
     (isActive c) (taskCount c) (sortOrder c) (createdAt c) now.

(** [categorySchema.methods.incrementTaskCount], without the [save]. *)
Definition incrementTaskCount (c : t) : t :=
  set_taskCount (taskCount c + 1) c.

(** [categorySchema.methods.decrementTaskCount], without the [save]. *)
Definition decrementTaskCount (c : t) : t :=
  if bool_decide (taskCount c > 0) then set_taskCount (taskCount c - 1) c else c.

(** One entry of the [defaultCategories] table of [createDefaults]. *)
Record seed := mkseed {
  seed_name : string;
  seed_color : string;
  seed_icon : string;
  seed_sortOrder : Z
}.

Definition defaultCategories : list seed :=
  [ mkseed "Work" "#3b82f6" "briefcase" 1;
    mkseed "Personal" "#10b981" "heart" 2;
    mkseed "Shopping" "#f59e0b" "cart" 3;
    mkseed "Health" "#ef4444" "medical-bag" 4;
    mkseed "Learning" "#8b5cf6" "book-open" 5;
    mkseed "Travel" "#06b6d4" "airplane" 6 ].

(** The object that [createDefaults] builds from a table entry
    ([...cat, userId, isDefault: true, description]), with the schema
    defaults [isActive: true] and [taskCount: 0]. *)
Definition of_seed (uid : oid) (now : Z) (s : seed) : t :=
  mk (seed_name s) (seed_color s) (seed_icon s)
     (Some (seed_name s +:+ " related tasks"))
     uid true true 0 (seed_sortOrder s) now now.

End Category.

(** * The database *)

Record Store := mkStore {
  tasks : gmap oid Task.t;
  categories : gmap oid Category.t
}.

Definition set_tasks (ts : gmap oid Task.t) (s : Store) : Store :=
  mkStore ts (categories s).

Definition set_categories (cs : gmap oid Category.t) (s : Store) : Store :=
  mkStore (tasks s) cs.

(** A new [ObjectId]: an identifier that the collection does not hold. *)
Definition new_id {A} (m : gmap oid A) : oid := fresh (dom m).

(** [Model.countDocuments(filter)] *)
Definition countDocuments {A} (P : oid * A → Prop) `{∀ x, Decision (P x)}
    (m : gmap oid A) : nat :=
  length (filter P (map_to_list m)).

(** The filter [{ categoryId: c }] on tasks. *)
Definition refers_to (c : oid) (kv : oid * Task.t) : Prop :=
  Task.categoryId kv.2 = Some c.

#[global] Instance refers_to_dec c kv : Decision (refers_to c kv).
Proof. unfold refers_to. apply _. Defined.

(** [categorySchema.methods.updateTaskCount], without the [save]:
    [taskCount] becomes [Task.countDocuments({ categoryId: this._id })]. *)
Definition updateTaskCount (ts : gmap oid Task.t) (id : oid) (c : Category.t) : Category.t :=
  Category.set_taskCount (Z.of_nat (countDocuments (refers_to id) ts)) c.

(** The unique index [{ userId: 1, name: 1 }]: a document other than
    [self] already holds the pair. *)
Definition index_conflict (self : oid) (uid : oid) (nm : string)
    (cs : gmap oid Category.t) : Prop :=
  map_Exists (λ id c, id ≠ self ∧ Category.userId c = uid ∧ Category.name c = nm) cs.

#[global] Instance index_conflict_dec self uid nm cs :
  Decision (index_conflict self uid nm cs).
Proof. unfold index_conflict. apply _. Defined.

(** * Requests and replies of the routers *)

(** [String.prototype.trim] as the validators' [trim()] sanitizer uses it,
    on the white space of the ASCII range. *)
Fixpoint trim_start (s : string) : string :=
  match s with
  | String a s' => if Ascii.is_space a then trim_start s' else s
  | EmptyString => EmptyString
  end.

Definition trim (s : string) : string :=
  String.rev (trim_start (String.rev (trim_start s))).

Definition is_hex_digit (a : ascii) : bool :=
  let n := Ascii.N_of_ascii a in
  ((48 <=? n) && (n <=? 57) || (65 <=? n) && (n <=? 70) || (97 <=? n) && (n <=? 102))%N.

(** [/^#([A-Fa-f0-9]{6}|[A-Fa-f0-9]{3})$/.test(v)] *)
Definition is_hex_color (v : string) : bool :=
  match v with
  | String "#"%char digits =>
      forallb is_hex_digit (String.list_ascii_of_string digits)
      && (bool_decide (String.length digits = 6%nat)
          || bool_decide (String.length digits = 3%nat))
  | _ => false
  end.

(** [isLength({ min, max })] *)
Definition isLength (min max : nat) (s : string) : bool :=
  bool_decide (min ≤ String.length s)%nat && bool_decide (String.length s ≤ max)%nat.

(** The body of [POST /api/tasks] and [PUT /api/tasks/:id].  A field that
    the body does not carry is [None] ([undefined]).  A priority outside
    the enumeration, a date that is not ISO 8601 and an identifier that is
    not an [ObjectId] have no representation: the validator rejects them. *)
Record TaskBody := mkTaskBody {
  b_title : option string;
  b_description : option string;
  b_priority : option Priority;
  b_categoryId : option oid;
  b_dueDate : option Z
}.

(** [validateTask] followed by [validationResult(req)]: the sanitized body,
    or [None] when the list of errors is not empty. *)
Definition validateTask (b : TaskBody) : option TaskBody :=
  let title := trim (default "" (b_title b)) in
  let description := trim <$> b_description b in
  if isLength 1 100 title && from_option (isLength 0 500) true description
  then Some (mkTaskBody (Some title) description (b_priority b)
                        (b_categoryId b) (b_dueDate b))
  else None.

(** The body of [POST /api/categories] and [PUT /api/categories/:id]. *)
Record CategoryBody := mkCategoryBody {
  b_name : option string;
  b_color : option string;
  b_cdescription : option string;
  b_icon : option string
}.

(** [validateCategory] followed by [validationResult(req)]. *)
Definition validateCategory (b : CategoryBody) : option CategoryBody :=
  let name := trim (default "" (b_name b)) in
  let description := trim <$> b_cdescription b in
  let icon := trim <$> b_icon b in
  if isLength 1 30 name
     && from_option is_hex_color false (b_color b)
     && from_option (isLength 0 100) true description
     && from_option (isLength 0 50) true icon
  then Some (mkCategoryBody (Some name) (b_color b) description icon)
  else None.

(** The query string of [GET /api/tasks]; [q_dueDate] is the time value of
    [new Date(dueDate)] when it is a number, [q_priority] a priority of
    the list [['low', 'medium', 'high']]. *)
Record TaskQuery := mkTaskQuery {
  q_completed : option string;
  q_priority : option Priority;
  q_categoryId : option oid;
  q_dueDate : option Z;
  q_search : option string
}.

(** The query string of [GET /api/categories]. *)
Record CategoryQuery := mkCategoryQuery {
  q_isActive : option string;
  q_isDefault : option string
}.

Inductive Kind := TaskRow | CategoryRow.

(** The failures of the routers, under the names of the error taxonomy. *)
Inductive Error :=
| ValidationError
| InvalidCategory
| NotFound (k : Kind)
| DuplicateName
| DefaultCategoryProtected
| CategoryInUse (n : nat)
| ServerError.

#[global] Instance Kind_eq_dec : EqDecision Kind.
Proof. solve_decision. Defined.

#[global] Instance Error_eq_dec : EqDecision Error.
Proof. solve_decision. Defined.

(** The [message] of the response envelope; after "Server error" the
    routes say what they were doing ("while creating category", ...). *)
Definition message (e : Error) : string :=
  match e with
  | ValidationError => "Validation failed"
  | InvalidCategory => "Invalid category"
  | NotFound TaskRow => "Task not found"
  | NotFound CategoryRow => "Category not found"
  | DuplicateName => "Category name already exists"
  | DefaultCategoryProtected => "Cannot delete default categories"
  | CategoryInUse n =>
      "Cannot delete category with " +:+ pretty n
      +:+ " task(s). Please reassign or delete the tasks first."
  | ServerError => "Server error"
  end.

(** The status code that goes with a failure. *)
Definition status_code (e : Error) : nat :=
  match e with
  | NotFound _ => 404
  | ServerError => 500
  | _ => 400
  end.

(** [populate('categoryId', 'name color')] *)
Definition CategoryRef : Type := oid * string * string.

Definition TaskView : Type := oid * Task.t * option CategoryRef.

Record TaskStats := mkTaskStats {
  ts_total : nat;
  ts_completed : nat;
  ts_pending : nat;
  ts_overdue : nat;
  ts_highPriority : nat
}.

Record CategoryStats := mkCategoryStats {
  cs_total : nat;
  cs_active : nat;
  cs_default : nat;
  cs_withTasks : nat;
  cs_topCategories : list (oid * string * string * Z)
}.

Inductive Payload :=
| NoData
| TaskData (v : TaskView)
| TaskList (l : list TaskView)
| TaskStatsData (st : TaskStats)
| CategoryData (id : oid) (c : Category.t)
| CategoryList (l : list (oid * Category.t))
| CategoryStatsData (st : CategoryStats).

Inductive Reply :=
| Ok (p : Payload)
| Created (p : Payload)
| Fail (e : Error).

(** * The task and category routers *)

(** [a !== b] where [a] is the [categoryId] of the request body (a string,
    or [undefined]) and [b] the path [categoryId] of the stored task (an
    [ObjectId] object, or [null]): the two operands never have the same
    type, so the strict inequality holds whatever the identifiers are. *)
Definition strict_neq (requested stored : option oid) : bool := true.

(** [Category.findByIdAndUpdate(id, { $inc: { taskCount: delta } })], with
    the [updatedAt] of [timestamps: true]; no effect when no category has
    this identifier. *)
Definition findByIdAndInc (id : oid) (delta : Z) (now : Z)
    (cs : gmap oid Category.t) : gmap oid Category.t :=
  alter (λ c, Category.set_updatedAt now
                (Category.set_taskCount (Category.taskCount c + delta) c)) id cs.

(** [Task.findOne({ _id: id, userId: actor })] *)
Definition findTask (id actor : oid) (s : Store) : option Task.t :=
  match tasks s !! id with
  | Some t => if decide (Task.userId t = actor) then Some t else None
  | None => None
  end.

(** [Category.findOne({ _id: id, userId: actor })] *)
Definition findCategory (id actor : oid) (s : Store) : option Category.t :=
  match categories s !! id with
  | Some c => if decide (Category.userId c = actor) then Some c else None
  | None => None
  end.

Definition populate (cs : gmap oid Category.t) (id : oid) (t : Task.t) : TaskView :=
  (id, t,
   match Task.categoryId t with
   | Some c =>
       match cs !! c with
       | Some cat => Some (c, Category.name cat, Category.color cat)
       | None => None
       end
   | None => None
   end).

(** [sort({ createdAt: -1 })] *)
Definition created_desc (x y : oid * Task.t) : Prop :=
  Task.createdAt y.2 ≤ Task.createdAt x.2.

(** [sort({ sortOrder: 1, name: 1 })] *)
Definition by_sortOrder_name (x y : oid * Category.t) : Prop :=
  Category.sortOrder x.2 < Category.sortOrder y.2
  ∨ (Category.sortOrder x.2 = Category.sortOrder y.2
     ∧ String.le (Category.name x.2) (Category.name y.2)).

(** [sort({ taskCount: -1 })] *)
Definition taskCount_desc (x y : oid * Category.t) : Prop :=
  Category.taskCount y.2 ≤ Category.taskCount x.2.

#[global] Instance created_desc_dec x y : Decision (created_desc x y).
Proof. unfold created_desc. apply _. Defined.

#[global] Instance by_sortOrder_name_dec x y : Decision (by_sortOrder_name x y).
Proof. unfold by_sortOrder_name. apply _. Defined.

#[global] Instance taskCount_desc_dec x y : Decision (taskCount_desc x y).
Proof. unfold taskCount_desc. apply _. Defined.

(** [pre('remove')] of [categorySchema]:
    [Task.updateMany({ categoryId: this._id }, { $unset: { categoryId: 1 } })] *)
Definition pre_remove (id : oid) (now : Z) (ts : gmap oid Task.t) : gmap oid Task.t :=
  (λ t, if decide (Task.categoryId t = Some id)
        then Task.set_updatedAt now (Task.set_categoryId None t)
        else t) <$> ts.

Section Routes.

(** [new RegExp(source, 'i')]: [None] when the pattern is rejected,
    otherwise the test that the expression performs on a string. *)
Variable RegExp_i : string → option (string → bool).

(** [categorySchema.statics.findByNameAndUser]; [None] when building the
    regular expression throws. *)
Definition findByNameAndUser (nm : string) (uid : oid)
    (cs : gmap oid Category.t) : option (option (oid * Category.t)) :=
  match RegExp_i ("^" +:+ nm +:+ "$") with
  | None => None
  | Some test =>
      Some (head (filter (λ kv : oid * Category.t,
                            test (Category.name kv.2) = true
                            ∧ Category.userId kv.2 = uid)
                         (map_to_list cs)))
  end.

(** [category.save()] of a new document: the [pre('save')] hook (the name
    of a new document is modified), then the insertion under the unique
    index.  [None] when the promise is rejected. *)
Definition save_new (c : Category.t) (cs : gmap oid Category.t)
    : option (oid * gmap oid Category.t) :=
  let id := new_id cs in
  match findByNameAndUser (Category.name c) (Category.userId c) cs with
  | None => None
  | Some (Some (id', _)) =>
      if decide (id' ≠ id) then None
      else if decide (index_conflict id (Category.userId c) (Category.name c) cs)
           then None else Some (id, <[id := c]> cs)
  | Some None =>
      if decide (index_conflict id (Category.userId c) (Category.name c) cs)
      then None else Some (id, <[id := c]> cs)
  end.

(** ** routes/tasks *)

Definition task_filter (q : TaskQuery) (actor : oid)
    (search : option (string → bool)) (t : Task.t) : bool :=
  bool_decide (Task.userId t = actor)
  && match q_completed q with
     | Some v => bool_decide (Task.completed t = bool_decide (v = "true"))
     | None => true
     end
  && match q_priority q with
     | Some p => bool_decide (Task.priority t = p)
     | None => true
     end
  && match q_categoryId q with
     | Some c => bool_decide (Task.categoryId t = Some c)
     | None => true
     end
  && match q_dueDate q with
     | Some d => bool_decide (Task.dueDate t = Some d)
     | None => true
     end
  && match search with
     | Some test => test (Task.title t) || from_option test false (Task.description t)
     | None => true
     end.

Definition find_tasks (q : TaskQuery) (actor : oid)
    (search : option (string → bool)) (s : Store) : list TaskView :=
  (λ kv : oid * Task.t, populate (categories s) kv.1 kv.2)
  <$> merge_sort created_desc
        (filter (λ kv : oid * Task.t, task_filter q actor search kv.2 = true)
                (map_to_list (tasks s))).

(** [GET /api/tasks] *)
Definition get_tasks (actor : oid) (q : TaskQuery) (s : Store) : Reply * Store :=
  match q_search q with
  | Some pat =>
      if decide (pat = "") then (Ok (TaskList (find_tasks q actor None s)), s)
      else match RegExp_i pat with
           | Some test => (Ok (TaskList (find_tasks q actor (Some test) s)), s)
           | None => (Fail ServerError, s)
           end
  | None => (Ok (TaskList (find_tasks q actor None s)), s)
  end.

(** [GET /api/tasks/:id] *)
Definition get_task (actor id : oid) (s : Store) : Reply * Store :=
  match findTask id actor s with
  | None => (Fail (NotFound TaskRow), s)
  | Some t => (Ok (TaskData (populate (categories s) id t)), s)
  end.

(** [POST /api/tasks] *)
Definition post_task (actor : oid) (now : Z) (body : TaskBody) (s : Store)
    : Reply * Store :=
  match validateTask body with
  | None => (Fail ValidationError, s)
  | Some b =>
      let categoryId := b_categoryId b in
      if match categoryId with
         | Some c => bool_decide (findCategory c actor s = None)
         | None => false
         end
      then (Fail InvalidCategory, s)
      else
        let task := Task.mk (default "" (b_title b)) (b_description b) false
                            (default medium (b_priority b)) categoryId
                            (b_dueDate b) actor now now in
        let id := new_id (tasks s) in
        let cs := match categoryId with
                  | Some c => findByIdAndInc c 1 now (categories s)
                  | None => categories s
                  end in
        (Created (TaskData (populate cs id task)),
         mkStore (<[id := task]> (tasks s)) cs)
  end.

(** The [updateData] of [PUT /api/tasks/:id] applied to the stored task by
    [Task.findByIdAndUpdate]. *)
Definition apply_task_update (b : TaskBody) (now : Z) (t : Task.t) : Task.t :=
  Task.mk (default (Task.title t) (b_title b))
          (match b_description b with Some d => Some d | None => Task.description t end)
          (Task.completed t)
          (default (Task.priority t) (b_priority b))
          (match b_categoryId b with Some c => Some c | None => Task.categoryId t end)
          (match b_dueDate b with Some d => Some d | None => Task.dueDate t end)
          (Task.userId t) (Task.createdAt t) now.

(** [PUT /api/tasks/:id] *)
Definition put_task (actor : oid) (now : Z) (id : oid) (body : TaskBody)
    (s : Store) : Reply * Store :=
  match validateTask body with
  | None => (Fail ValidationError, s)
  | Some b =>
      match findTask id actor s with
      | None => (Fail (NotFound TaskRow), s)
      | Some task =>
          let oldCategoryId := Task.categoryId task in
          let categoryId := b_categoryId b in
          if match categoryId with
             | Some c => strict_neq categoryId oldCategoryId
                         && bool_decide (findCategory c actor s = None)
             | None => false
             end
          then (Fail InvalidCategory, s)
          else
            let updatedTask := apply_task_update b now task in
            let cs1 := match oldCategoryId with
                       | Some old =>
                           if strict_neq categoryId oldCategoryId
                           then findByIdAndInc old (-1) now (categories s)
                           else categories s
                       | None => categories s
                       end in
            let cs2 := match categoryId with
                       | Some c =>
                           if strict_neq categoryId oldCategoryId
                           then findByIdAndInc c 1 now cs1
                           else cs1
                       | None => cs1
                       end in
            (Ok (TaskData (populate (categories s) id updatedTask)),
             mkStore (<[id := updatedTask]> (tasks s)) cs2)
      end
  end.

(** [PATCH /api/tasks/:id/complete]: the document that [findOne] returns
    carries no [completedAt]; the [save] of [toggleComplete] writes the
    schema paths. *)
Definition patch_task_complete (actor : oid) (now : Z) (id : oid) (s : Store)
    : Reply * Store :=
  match findTask id actor s with
  | None => (Fail (NotFound TaskRow), s)
  | Some task =>
      let saved := Task.paths (Task.toggleComplete now (Task.mkdoc task None)) in
      (Ok (TaskData (populate (categories s) id saved)),
       set_tasks (<[id := saved]> (tasks s)) s)
  end.

(** [DELETE /api/tasks/:id] *)
Definition delete_task (actor : oid) (now : Z) (id : oid) (s : Store)
    : Reply * Store :=
  match findTask id actor s with
  | None => (Fail (NotFound TaskRow), s)
  | Some task =>
      let categoryId := Task.categoryId task in
      let cs := match categoryId with
                | Some c => findByIdAndInc c (-1) now (categories s)
                | None => categories s
                end in
      (Ok NoData, mkStore (delete id (tasks s)) cs)
  end.

(** [GET /api/tasks/stats/overview]; [completionRate], a rounded
    floating-point quotient of [completed] and [total], is not part of
    the payload here. *)
Definition get_task_stats (actor : oid) (now : Z) (s : Store) : Reply * Store :=
  let count (P : Task.t → bool) :=
    countDocuments (λ kv : oid * Task.t,
                      Task.userId kv.2 = actor ∧ P kv.2 = true) (tasks s) in
  (Ok (TaskStatsData
         (mkTaskStats
            (count (λ _, true))
            (count Task.completed)
            (count (λ t, negb (Task.completed t)))
            (count (λ t, negb (Task.completed t)
                         && match Task.dueDate t with
                            | Some d => bool_decide (d < now)
                            | None => false
                            end))
            (count (λ t, negb (Task.completed t)
                         && bool_decide (Task.priority t = high))))),
   s).

(** ** routes/categories *)

Definition category_filter (q : CategoryQuery) (actor : oid) (c : Category.t) : bool :=
  bool_decide (Category.userId c = actor)
  && match q_isActive q with
     | Some v => bool_decide (Category.isActive c = bool_decide (v = "true"))
     | None => true
     end
  && match q_isDefault q with
     | Some v => bool_decide (Category.isDefault c = bool_decide (v = "true"))
     | None => true
     end.

(** [GET /api/categories] *)
Definition get_categories (actor : oid) (q : CategoryQuery) (s : Store)
    : Reply * Store :=
  (Ok (CategoryList
         (merge_sort by_sortOrder_name
            (filter (λ kv : oid * Category.t, category_filter q actor kv.2 = true)
                    (map_to_list (categories s))))),
   s).

(** [GET /api/categories/:id] *)
Definition get_category (actor id : oid) (s : Store) : Reply * Store :=
  match findCategory id actor s with
  | None => (Fail (NotFound CategoryRow), s)
  | Some c => (Ok (CategoryData id c), s)
  end.

(** The JavaScript [Number] nearest to an integer, ties to the even
    significand: an integer up to [2^53] is a [Number]; from [2^e] on, with
    [e] at least 53, the [Number]s are the multiples of [2^(e - 52)]. *)
Definition to_Number (z : Z) : Z :=
  let a := Z.abs z in
  if a <? 2 ^ 53 then z
  else
    let ulp := 2 ^ (Z.log2 a - 52) in
    let q := a / ulp in
    let r := a mod ulp in
    Z.sgn z
    * (if 2 * r <? ulp then q * ulp
       else if ulp <? 2 * r then (q + 1) * ulp
       else if Z.even q then q * ulp else (q + 1) * ulp).

(** [Category.findOne({ userId }).sort({ sortOrder: -1 })], of which the
    route reads [sortOrder] only. *)
Definition last_sortOrder (actor : oid) (cs : gmap oid Category.t) : option Z :=
  match (λ kv : oid * Category.t, Category.sortOrder kv.2)
        <$> filter (λ kv : oid * Category.t, Category.userId kv.2 = actor)
                   (map_to_list cs) with
  | [] => None
  | x :: l => Some (foldr Z.max x l)
  end.

(** [POST /api/categories] *)
Definition post_category (actor : oid) (now : Z) (body : CategoryBody)
    (s : Store) : Reply * Store :=
  match validateCategory body with
  | None => (Fail ValidationError, s)
  | Some b =>
      let name := default "" (b_name b) in
      match findByNameAndUser name actor (categories s) with
      | None => (Fail ServerError, s)
      | Some (Some _) => (Fail DuplicateName, s)
      | Some None =>
          let sortOrder := match last_sortOrder actor (categories s) with
                           | Some n => to_Number (n + 1)
                           | None => 0
                           end in
          let icon := match b_icon b with
                      | Some i => if decide (i = "") then "tag" else i
                      | None => "tag"
                      end in
          let category := Category.mk name (default "" (b_color b))
                            icon (b_cdescription b) actor false true 0
                            sortOrder now now in
          match save_new category (categories s) with
          | None => (Fail ServerError, s)
          | Some (id, cs) => (Created (CategoryData id category), set_categories cs s)
          end
      end
  end.

(** The [updateData] of [PUT /api/categories/:id]. *)
Definition apply_category_update (b : CategoryBody) (now : Z) (c : Category.t)
    : Category.t :=
  Category.mk (default (Category.name c) (b_name b))
              (default (Category.color c) (b_color b))
              (default (Category.icon c) (b_icon b))
              (match b_cdescription b with
               | Some d => Some d
               | None => Category.description c
               end)
              (Category.userId c) (Category.isDefault c) (Category.isActive c)
              (Category.taskCount c) (Category.sortOrder c)
              (Category.createdAt c) now.

(** [PUT /api/categories/:id] *)
Definition put_category (actor : oid) (now : Z) (id : oid) (body : CategoryBody)
    (s : Store) : Reply * Store :=
  match validateCategory body with
  | None => (Fail ValidationError, s)
  | Some b =>
      match findCategory id actor s with
      | None => (Fail (NotFound CategoryRow), s)
      | Some category =>
          let name := default "" (b_name b) in
          let write :=
            let updated := apply_category_update b now category in
            if decide (index_conflict id (Category.userId updated)
                                      (Category.name updated) (categories s))
            then (Fail ServerError, s)
            else (Ok (CategoryData id updated),
                  set_categories (<[id := updated]> (categories s)) s) in
          if bool_decide (name ≠ "") && bool_decide (name ≠ Category.name category)
          then match findByNameAndUser name actor (categories s) with
               | None => (Fail ServerError, s)
               | Some (Some _) => (Fail DuplicateName, s)
               | Some None => write
               end
          else write
      end
  end.

(** [DELETE /api/categories/:id] *)
Definition delete_category (actor : oid) (now : Z) (id : oid) (s : Store)
    : Reply * Store :=
  match findCategory id actor s with
  | None => (Fail (NotFound CategoryRow), s)
  | Some category =>
      if Category.isDefault category then (Fail DefaultCategoryProtected, s)
      else
        let taskCount := countDocuments (refers_to id) (tasks s) in
        if bool_decide (0 < taskCount)%nat then (Fail (CategoryInUse taskCount), s)
        else (Ok NoData,
              mkStore (pre_remove id now (tasks s)) (delete id (categories s)))
  end.

(** [PATCH /api/categories/:id/toggle] *)
Definition patch_category_toggle (actor : oid) (now : Z) (id : oid) (s : Store)
    : Reply * Store :=
  match findCategory id actor s with
  | None => (Fail (NotFound CategoryRow), s)
  | Some category =>
      let saved := Category.set_updatedAt now
                     (Category.set_isActive (negb (Category.isActive category))
                                            category) in
      (Ok (CategoryData id saved),
       set_categories (<[id := saved]> (categories s)) s)
  end.

(** [PATCH /api/categories/:id/reorder]; the body carries [sortOrder], an
    integer when it is [Some], which the document holds as a [Number]. *)
Definition patch_category_reorder (actor : oid) (now : Z) (id : oid)
    (sortOrder : option Z) (s : Store) : Reply * Store :=
  match sortOrder with
  | None => (Fail ValidationError, s)
  | Some n =>
      if bool_decide (n < 0) then (Fail ValidationError, s)
      else
        match findCategory id actor s with
        | None => (Fail (NotFound CategoryRow), s)
        | Some category =>
            let saved :=
              if decide (Category.sortOrder category = to_Number n) then category
              else Category.set_updatedAt now
                     (Category.set_sortOrder (to_Number n) category) in
            (Ok (CategoryData id saved),
             set_categories (<[id := saved]> (categories s)) s)
        end
  end.

(** [GET /api/categories/stats/overview] *)
Definition get_category_stats (actor : oid) (s : Store) : Reply * Store :=
  let count (P : Category.t → bool) :=
    countDocuments (λ kv : oid * Category.t,
                      Category.userId kv.2 = actor ∧ P kv.2 = true)
                   (categories s) in
  let withTasks (c : Category.t) := bool_decide (Category.taskCount c > 0) in
  let top :=
    take 5 (merge_sort taskCount_desc
              (filter (λ kv : oid * Category.t,
                         Category.userId kv.2 = actor ∧ withTasks kv.2 = true)
                      (map_to_list (categories s)))) in
  (Ok (CategoryStatsData
         (mkCategoryStats
            (count (λ _, true))
            (count Category.isActive)
            (count Category.isDefault)
            (count withTasks)
            ((λ kv : oid * Category.t,
                (kv.1, Category.name kv.2, Category.color kv.2,
                 Category.taskCount kv.2)) <$> top))),
   s).

(** ** The application behind the [auth] middleware *)

Inductive Request :=
| GetTasks (q : TaskQuery)
| GetTask (id : oid)
| PostTask (body : TaskBody)
| PutTask (id : oid) (body : TaskBody)
| PatchTaskComplete (id : oid)
| DeleteTask (id : oid)
| GetTaskStats
| GetCategories (q : CategoryQuery)
| GetCategory (id : oid)
| PostCategory (body : CategoryBody)
| PutCategory (id : oid) (body : CategoryBody)
| DeleteCategory (id : oid)
| PatchCategoryToggle (id : oid)
| PatchCategoryReorder (id : oid) (sortOrder : option Z)
| GetCategoryStats.

(** One request of the user [actor] ([req.user.userId]) at time [now]. *)
Definition handle (actor : oid) (now : Z) (r : Request) (s : Store)
    : Reply * Store :=
  match r with
  | GetTasks q => get_tasks actor q s
  | GetTask id => get_task actor id s
  | PostTask body => post_task actor now body s
  | PutTask id body => put_task actor now id body s
  | PatchTaskComplete id => patch_task_complete actor now id s
  | DeleteTask id => delete_task actor now id s
  | GetTaskStats => get_task_stats actor now s
  | GetCategories q => get_categories actor q s
  | GetCategory id => get_category actor id s
  | PostCategory body => post_category actor now body s
  | PutCategory id body => put_category actor now id body s
  | DeleteCategory id => delete_category actor now id s
  | PatchCategoryToggle id => patch_category_toggle actor now id s
  | PatchCategoryReorder id n => patch_category_reorder actor now id n s
  | GetCategoryStats => get_category_stats actor s
  end.

(** A sequence of requests, each with its actor and its time. *)
Fixpoint run (rs : list (oid * Z * Request)) (s : Store) : Store :=
  match rs with
  | [] => s
  | (actor, now, r) :: rs' => run rs' (handle actor now r s).2
  end.

End Routes.

(** * Seeding the default categories *)

(** [Category.insertMany(docs)], ordered: the documents are inserted one
    after the other under the unique index [{ userId, name }]; the first
    duplicate key rejects the operation ([None]) and the documents
    inserted before it stay in the collection. *)
Fixpoint insertMany (docs : list Category.t) (cs : gmap oid Category.t)
    : option (list oid) * gmap oid Category.t :=
  match docs with
  | [] => (Some [], cs)
  | d :: docs' =>
      let id := new_id cs in
      if decide (index_conflict id (Category.userId d) (Category.name d) cs)
      then (None, cs)
      else
        let r := insertMany docs' (<[id := d]> cs) in
        (cons id <$> r.1, r.2)
  end.

(** [categorySchema.statics.createDefaults] *)
Definition createDefaults (userId : oid) (now : Z) (cs : gmap oid Category.t)
    : option (list oid) * gmap oid Category.t :=
  insertMany (Category.of_seed userId now <$> Category.defaultCategories) cs.

(** The default categories as the specification lists them: name, color,
    icon and sort order. *)
Definition default_set_spec : list (string * string * string * Z) :=
  [ ("Work", "#3b82f6", "briefcase", 1);
    ("Personal", "#10b981", "heart", 2);
    ("Shopping", "#f59e0b", "cart", 3);
    ("Health", "#ef4444", "medical-bag", 4);
    ("Learning", "#8b5cf6", "book-open", 5);
    ("Travel", "#06b6d4", "airplane", 6) ].

(** * A fragment of the regular expressions

    The patterns [^body$] whose body is a sequence of atoms, each a
    character that is not a metacharacter or the wildcard [.], each
    followed by at most one of the quantifiers [*], [+] and [?].  The
    flag [i] compares the letters of the ASCII range without their case. *)

Module Regex.

Inductive atom := Lit (a : ascii) | Dot.

Inductive quant := Once | Star | Plus | Opt.

Definition to_lower (a : ascii) : ascii :=
  let n := Ascii.N_of_ascii a in
  if ((65 <=? n) && (n <=? 90))%N then Ascii.ascii_of_N (n + 32) else a.

Definition is_meta (a : ascii) : bool :=
  bool_decide (a ∈ String.list_ascii_of_string "\^$.*+?()[]{}|").

Definition quant_of (a : ascii) : option quant :=
  if decide (a = "*"%char) then Some Star
  else if decide (a = "+"%char) then Some Plus
  else if decide (a = "?"%char) then Some Opt
  else None.

Definition atom_of (a : ascii) : option atom :=
  if decide (a = "."%char) then Some Dot
  else if is_meta a then None
  else Some (Lit a).

Fixpoint parse (l : list ascii) : option (list (atom * quant)) :=
  match l with
  | [] => Some []
  | a :: l' =>
      match atom_of a with
      | None => None
      | Some x =>
          match l' with
          | q :: l'' =>
              match quant_of q with
              | Some k => cons (x, k) <$> parse l''
              | None => cons (x, Once) <$> parse l'
              end
          | [] => Some [(x, Once)]
          end
      end
  end.

Definition atom_matches (x : atom) (c : ascii) : bool :=
  match x with
  | Lit a => bool_decide (to_lower a = to_lower c)
  | Dot => negb (bool_decide (c = "010"%char) || bool_decide (c = "013"%char))
  end.

(** Zero or more characters that [x] matches, then the continuation. *)
Fixpoint star (x : atom) (k : list ascii → bool) (s : list ascii) : bool :=
  k s || match s with
         | c :: s' => atom_matches x c && star x k s'
         | [] => false
         end.

Fixpoint matches (items : list (atom * quant)) (s : list ascii) : bool :=
  match items with
  | [] => match s with [] => true | _ => false end
  | (x, q) :: rest =>
      let k := matches rest in
      let one (s : list ascii) (k : list ascii → bool) :=
        match s with
        | c :: s' => atom_matches x c && k s'
        | [] => false
        end in
      match q with
      | Once => one s k
      | Opt => k s || one s k
      | Star => star x k s
      | Plus => one s (star x k)
      end
  end.

(** [new RegExp(source, 'i')] on the fragment.  [None] for a pattern that
    the constructor rejects, and for a pattern outside the fragment. *)
Definition RegExp_i (source : string) : option (string → bool) :=
  match String.list_ascii_of_string source with
  | a :: rest =>
      if decide (a = "^"%char) then
        match reverse rest with
        | z :: body =>
            if decide (z = "$"%char) then
              (λ items s, matches items (String.list_ascii_of_string s))
              <$> parse (reverse body)
            else None
        | [] => None
        end
      else None
  | [] => None
  end.

End Regex.

(** * models/User.js *)

Module User.

Record t := mk {
  email : string;
  username : string;
  password : string;
  avatar : option string;
  isActive : bool;
  lastLogin : option Z;
  createdAt : Z;
  updatedAt : Z
}.

Section Methods.

(** [bcrypt.compare(candidate, hash)] *)
Variable bcrypt_compare : string → string → bool.

(** [userSchema.methods.comparePassword] *)
Definition comparePassword (u : t) (candidatePassword : string) : bool :=
  bcrypt_compare candidatePassword (password u).

(** [userSchema.methods.updateLastLogin]: the assignment, and the
    [updatedAt] that [save] writes. *)
Definition updateLastLogin (now : Z) (u : t) : t :=
  mk (email u) (username u) (password u) (avatar u) (isActive u) (Some now)
     (createdAt u) now.

End Methods.

End User.

(** * server-mock.js *)

Module Mock.

(** The values that the objects of the in-memory server hold.  A JSON
    number is an integer here; [VDate] is a [Date] object with its time
    value; [VJson] is an array or an object of a request body, by its
    JSON text. *)
Inductive Value :=
| VUndefined
| VNull
| VBool (b : bool)
| VNum (n : Z)
| VStr (s : string)
| VDate (ms : Z)
| VJson (text : string).

(** A JS object: its own properties. *)
Abbreviation Obj := (gmap string Value).

(** [o.k]: [undefined] when the object has no such property. *)
Definition get (o : Obj) (k : string) : Value := default VUndefined (o !! k).

(** The truth value of [v] in a condition. *)
Definition truthy (v : Value) : bool :=
  match v with
  | VUndefined | VNull => false
  | VBool b => b
  | VNum n => negb (n =? 0)
  | VStr s => negb (bool_decide (s = ""))
  | VDate _ | VJson _ => true
  end.

(** [a === b]; two values that are objects come from different requests
    and are different objects. *)
Definition strict_eq (a b : Value) : bool :=
  match a, b with
  | VUndefined, VUndefined => true
  | VNull, VNull => true
  | VBool x, VBool y => bool_decide (x = y)
  | VNum x, VNum y => bool_decide (x = y)
  | VStr x, VStr y => bool_decide (x = y)
  | _, _ => false
  end.

(** [a || b] *)
Definition or_else (a b : Value) : Value := if truthy a then a else b.

(** [{ ...a, ...b }] *)
Definition spread (a b : Obj) : Obj := b ∪ a.

Record State := mkState {
  users : list Obj;
  tasks : list Obj;
  categories : list Obj;
  nextId : nat
}.

(** [generateId]: [(nextId++).toString()] *)
Definition generateId (st : State) : string * State :=
  (pretty (nextId st),
   mkState (users st) (tasks st) (categories st) (S (nextId st))).

Inductive Data :=
| DNone
| DObj (o : Obj)
| DList (l : list Obj)
| DAuth (user : Obj) (token : string).

(** The response: the status code, and the envelope. *)
Inductive Reply :=
| Success (data : Data) (message : string)
| Failure (code : nat) (message : string).

(** ['mock-jwt-token-' + Date.now()] *)
Definition mock_token (now : Z) : string := "mock-jwt-token-" +:+ pretty now.

(** [initializeMockData], from the state of a server that starts
    ([nextId = 1], empty arrays). *)
Definition initializeMockData (now : Z) : State :=
  let cat (id name color : string) : Obj :=
    {[ "id" := VStr id; "name" := VStr name; "color" := VStr color;
       "userId" := VStr "1"; "createdAt" := VDate now; "updatedAt" := VDate now ]} in
  mkState
    [ {[ "id" := VStr "1"; "email" := VStr "demo@example.com";
         "username" := VStr "demo";
         "createdAt" := VDate now; "updatedAt" := VDate now ]} ]
    [ {[ "id" := VStr (pretty 4%nat); "title" := VStr "Welcome to TodoApp!";
         "description" :=
           VStr "This is your first task. Tap to edit or mark as complete.";
         "completed" := VBool false; "categoryId" := VStr (pretty 1%nat);
         "dueDate" := VDate (now + 7 * 24 * 60 * 60 * 1000);
         "priority" := VStr "medium";
         "createdAt" := VDate now; "updatedAt" := VDate now;
         "userId" := VStr "1" ]} ]
    [ cat (pretty 1%nat) "Work" "#3b82f6";
      cat (pretty 2%nat) "Personal" "#10b981";
      cat (pretty 3%nat) "Shopping" "#f59e0b" ]
    5.

(** [arr.find(x => x[key] === v)] with its index ([findIndex]). *)
Definition find_by (key : string) (v : Value) (l : list Obj) : option (nat * Obj) :=
  list_find (λ o, strict_eq (get o key) v = true) l.

(** [POST /api/auth/register] *)
Definition register (now : Z) (body : Obj) (st : State) : Reply * State :=
  let email := get body "email" in
  let username := get body "username" in
  let password := get body "password" in
  if negb (truthy email) || negb (truthy username) || negb (truthy password)
  then (Failure 400 "All fields are required", st)
  else
    match find_by "email" email (users st) with
    | Some _ => (Failure 400 "User already exists", st)
    | None =>
        let '(id, st1) := generateId st in
        let newUser : Obj :=
          {[ "id" := VStr id; "email" := email; "username" := username;
             "createdAt" := VDate now; "updatedAt" := VDate now ]} in
        (Success (DAuth newUser (mock_token now)) "User registered successfully",
         mkState (users st1 ++ [newUser]) (tasks st1) (categories st1) (nextId st1))
    end.

(** [POST /api/auth/login] *)
Definition login (now : Z) (body : Obj) (st : State) : Reply * State :=
  let email := get body "email" in
  let password := get body "password" in
  if negb (truthy email) || negb (truthy password)
  then (Failure 400 "Email and password are required", st)
  else
    match find_by "email" email (users st) with
    | None => (Failure 400 "Invalid credentials", st)
    | Some (_, user) => (Success (DAuth user (mock_token now)) "Login successful", st)
    end.

(** [GET /api/tasks] *)
Definition get_tasks (st : State) : Reply * State :=
  (Success (DList (tasks st)) "", st).

Section TaskRoutes.

(** [new Date(v)] *)
Variable new_Date : Value → Value.

(** [POST /api/tasks] *)
Definition post_task (now : Z) (body : Obj) (st : State) : Reply * State :=
  let title := get body "title" in
  if negb (truthy title) then (Failure 400 "Title is required", st)
  else
    let '(id, st1) := generateId st in
    let dueDate := get body "dueDate" in
    let newTask : Obj :=
      {[ "id" := VStr id; "title" := title;
         "description" := or_else (get body "description") (VStr "");
         "completed" := VBool false;
         "categoryId" := get body "categoryId";
         "dueDate" := if truthy dueDate then new_Date dueDate else VUndefined;
         "priority" := or_else (get body "priority") (VStr "medium");
         "createdAt" := VDate now; "updatedAt" := VDate now;
         "userId" := VStr "1" ]} in
    (Success (DObj newTask) "Task created successfully",
     mkState (users st1) (newTask :: tasks st1) (categories st1) (nextId st1)).

End TaskRoutes.

(** The object that [PUT /api/tasks/:id] stores:
    [{ ...task, ...updates, updatedAt: new Date() }] *)
Definition merge (now : Z) (task updates : Obj) : Obj :=
  <["updatedAt" := VDate now]> (spread task updates).

(** [PUT /api/tasks/:id] *)
Definition put_task (now : Z) (id : string) (updates : Obj) (st : State)
    : Reply * State :=
  match find_by "id" (VStr id) (tasks st) with
  | None => (Failure 404 "Task not found", st)
  | Some (taskIndex, task) =>
      let task' := merge now task updates in
      (Success (DObj task') "Task updated successfully",
       mkState (users st) (<[taskIndex := task']> (tasks st)) (categories st)
               (nextId st))
  end.

(** [DELETE /api/tasks/:id] *)
Definition delete_task (id : string) (st : State) : Reply * State :=
  match find_by "id" (VStr id) (tasks st) with
  | None => (Failure 404 "Task not found", st)
  | Some (taskIndex, _) =>
      (Success DNone "Task deleted successfully",
       mkState (users st) (delete taskIndex (tasks st)) (categories st)
               (nextId st))
  end.

(** [PATCH /api/tasks/:id/complete] *)
Definition patch_task_complete (now : Z) (id : string) (st : State)
    : Reply * State :=
  match find_by "id" (VStr id) (tasks st) with
  | None => (Failure 404 "Task not found", st)
  | Some (i, task) =>
      let task' :=
        <["updatedAt" := VDate now]>
          (<["completed" := VBool (negb (truthy (get task "completed")))]> task) in
      (Success (DObj task') "Task status updated",
       mkState (users st) (<[i := task']> (tasks st)) (categories st) (nextId st))
  end.

(** [GET /api/categories] *)
Definition get_categories (st : State) : Reply * State :=
  (Success (DList (categories st)) "", st).

(** [POST /api/categories] *)
Definition post_category (now : Z) (body : Obj) (st : State) : Reply * State :=
  let name := get body "name" in
  let color := get body "color" in
  if negb (truthy name) || negb (truthy color)
  then (Failure 400 "Name and color are required", st)
  else
    let '(id, st1) := generateId st in
    let newCategory : Obj :=
      {[ "id" := VStr id; "name" := name; "color" := color;
         "userId" := VStr "1";
         "createdAt" := VDate now; "updatedAt" := VDate now ]} in
    (Success (DObj newCategory) "Category created successfully",
     mkState (users st1) (tasks st1) (categories st1 ++ [newCategory]) (nextId st1)).

End Mock.

(** * Ownership of the rows *)

(** Referential integrity: the category that a task refers to exists and
    belongs to the owner of the task. *)
Definition refs_owned (s : Store) : Prop :=
  ∀ id t c, tasks s !! id = Some t → Task.categoryId t = Some c →
    ∃ cat, categories s !! c = Some cat ∧ Category.userId cat = Task.userId t.

(** The stored counter of every category is the number of the tasks that
    refer to it. *)
Definition counts_exact (s : Store) : Prop :=
  ∀ id c, categories s !! id = Some c →
    Category.taskCount c = Z.of_nat (countDocuments (refers_to id) (tasks s)).

(** Two collections hold the same rows of the users other than [actor]. *)
Definition agree_off {A} (owner : A → oid) (actor : oid) (m m' : gmap oid A) : Prop :=
  ∀ k x, owner x ≠ actor → (m !! k = Some x ↔ m' !! k = Some x).

(** The row at [k], if any, belongs to [actor]. *)
Definition own_at {A} (owner : A → oid) (actor : oid) (m : gmap oid A) (k : oid) : Prop :=
  ∀ y, m !! k = Some y → owner y = actor.

(** Referential integrity of a collection of tasks against a collection of
    categories. *)
Definition refs_ok (ts : gmap oid Task.t) (cs : gmap oid Category.t) : Prop :=
  ∀ id t c, ts !! id = Some t → Task.categoryId t = Some c →
    ∃ cat, cs !! c = Some cat ∧ Category.userId cat = Task.userId t.

(** Every category is still there, with its owner. *)
Definition cats_kept (cs cs' : gmap oid Category.t) : Prop :=
  ∀ k c, cs !! k = Some c →
    ∃ c', cs' !! k = Some c' ∧ Category.userId c' = Category.userId c.

(** The rows of the other users are the same in both stores. *)
Definition foreign_rows_kept (actor : oid) (s s' : Store) : Prop :=
  agree_off Task.userId actor (tasks s) (tasks s')
  ∧ agree_off Category.userId actor (categories s) (categories s').

(** The row that a request addresses by its identifier. *)
Definition target (r : Request) : option (Kind * oid) :=
  match r with
  | GetTask id | PutTask id _ | PatchTaskComplete id | DeleteTask id =>
      Some (TaskRow, id)
  | GetCategory id | PutCategory id _ | DeleteCategory id
  | PatchCategoryToggle id | PatchCategoryReorder id _ =>
      Some (CategoryRow, id)
  | _ => None
  end.

(** Whether the body of the request passes the validation that the route
    runs before it looks anything up. *)
Definition validates (r : Request) : bool :=
  match r with
  | PostTask b | PutTask _ b => bool_decide (is_Some (validateTask b))
  | PostCategory b | PutCategory _ b => bool_decide (is_Some (validateCategory b))
  | PatchCategoryReorder _ n =>
      match n with Some n => bool_decide (0 ≤ n) | None => false end
  | _ => true
  end.

(** The owner of the row [(k, id)], when the store holds it. *)
Definition row_owner (k : Kind) (id : oid) (s : Store) : option oid :=
  match k with
  | TaskRow => Task.userId <$> tasks s !! id
  | CategoryRow => Category.userId <$> categories s !! id
  end.

(** The store without the row [(k, id)]. *)
Definition without_row (k : Kind) (id : oid) (s : Store) : Store :=
  match k with
  | TaskRow => set_tasks (delete id (tasks s)) s
  | CategoryRow => set_categories (delete id (categories s)) s
  end.

(** A task of a reply belongs to [actor], and so does the category that
    [populate] resolved for it. *)
Definition view_owned (actor : oid) (s : Store) (v : TaskView) : Prop :=
  Task.userId v.1.2 = actor
  ∧ ∀ c nm col, v.2 = Some (c, nm, col) →
      ∃ cat, categories s !! c = Some cat ∧ Category.userId cat = actor.

(** Every row that the reply carries belongs to [actor]. *)
Definition reply_rows_owned (actor : oid) (s : Store) (r : Reply) : Prop :=
  match r with
  | Ok p | Created p =>
      match p with
      | TaskData v => view_owned actor s v
      | TaskList l => Forall (view_owned actor s) l
      | CategoryData _ c => Category.userId c = actor
      | CategoryList l => Forall (λ kv, Category.userId kv.2 = actor) l
      | CategoryStatsData st =>
          Forall (λ row : oid * string * string * Z,
                    ∃ cat, categories s !! row.1.1.1 = Some cat
                           ∧ Category.userId cat = actor)
                 (cs_topCategories st)
      | NoData | TaskStatsData _ => True
      end
  | Fail _ => True
  end.

(** What a request of [actor] may do to the store [s]: it keeps the
    referential integrity, it leaves the rows of the other users as they
    are, and the rows of its reply belong to [actor]. *)
Definition scoped (actor : oid) (s : Store) (out : Reply * Store) : Prop :=
  refs_owned out.2
  ∧ foreign_rows_kept actor s out.2
  ∧ reply_rows_owned actor s out.1.

(** The requests other than the update of a task that has a category by
    a valid body that carries no [categoryId]. *)
Definition carries_category (actor : oid) (r : Request) (s : Store) : Prop :=
  match r with
  | PutTask id body =>
      ∀ b t, validateTask body = Some b → findTask id actor s = Some t →
             b_categoryId b = None → Task.categoryId t = None
  | _ => True
  end.

(** Every request of the sequence is such a request, at the store that it
    meets. *)
Fixpoint all_carry (RegExp_i : string → option (string → bool))
    (rs : list (oid * Z * Request)) (s : Store) : Prop :=
  match rs with
  | [] => True
  | (actor, now, r) :: rs' =>
      carries_category actor r s
      ∧ all_carry RegExp_i rs' (handle RegExp_i actor now r s).2
  end.

(** 1 when the row counts, 0 when it does not. *)
Definition one_if {A} (P : oid * A → Prop) `{∀ x, Decision (P x)}
    (kv : oid * A) : nat :=
  if decide (P kv) then 1%nat else 0%nat.

(** The letters of a string without their case. *)
Definition lower (s : string) : list ascii :=
  Regex.to_lower <$> String.list_ascii_of_string s.

(** A name without any metacharacter of the regular expressions. *)
Definition plain (nm : string) : Prop :=
  Forall (λ a, Regex.is_meta a = false) (String.list_ascii_of_string nm).

(** * The orders of the lists *)

(** The three orders of the routes are total and transitive: [merge_sort]
    returns a list in which every row comes before all the later ones. *)
#[global] Instance created_desc_total : Total created_desc.
Proof. intros x y. unfold created_desc. lia. Qed.

#[global] Instance created_desc_trans : Transitive created_desc.
Proof. intros x y z. unfold created_desc. lia. Qed.

#[global] Instance taskCount_desc_total : Total taskCount_desc.
Proof. intros x y. unfold taskCount_desc. lia. Qed.

#[global] Instance taskCount_desc_trans : Transitive taskCount_desc.
Proof. intros x y z. unfold taskCount_desc. lia. Qed.

#[global] Instance by_sortOrder_name_total : Total by_sortOrder_name.
Proof.
  intros x y. unfold by_sortOrder_name.
  destruct (Z.lt_trichotomy (Category.sortOrder x.2) (Category.sortOrder y.2))
    as [H | [H | H]]; [by left; left | | by right; left].
  destruct (total String.le (Category.name x.2) (Category.name y.2)).
  - left. right. done.
  - right. right. done.
Qed.

#[global] Instance by_sortOrder_name_trans : Transitive by_sortOrder_name.
Proof.
  intros x y z. unfold by_sortOrder_name.
  intros [H1 | [H1 H1']] [H2 | [H2 H2']]; [left; lia | left; lia | left; lia |].
  right. split; [lia |]. by etrans.
Qed.

(** * The notes of a task ([models/Task.js]) *)

Module Note.

(** A subdocument of the array [notes]: its [_id], the [content], and the
    two dates that default to [Date.now]. *)
Record t := mk {
  _id : oid;
  content : string;
  createdAt : Z;
  updatedAt : Z
}.

End Note.

(** [taskSchema.methods.addNote], without the [save]: [notes.push] gives
    the subdocument a new [ObjectId], one that no note of the array has. *)
Definition addNote (content : string) (now : Z) (notes : list Note.t)
    : list Note.t :=
  notes ++ [Note.mk (fresh (Note._id <$> notes)) content now now].

(** The argument [noteId] of [updateNote] and [deleteNote]: an [ObjectId]
    object, or the string of the 24 hexadecimal digits of an [ObjectId]. *)
Inductive NoteId :=
| AsObjectId (id : oid)
| AsString (id : oid).

(** The [ObjectId] that the argument stands for. *)
Definition id_of (noteId : NoteId) : oid :=
  match noteId with
  | AsObjectId id | AsString id => id
  end.

(** [taskSchema.methods.updateNote], without the [save]; [None] when the
    method throws ['Note not found'].  [notes.id(noteId)] casts its
    argument to an [ObjectId] and returns the first subdocument with this
    [_id]. *)
Definition updateNote (noteId : NoteId) (content : string) (now : Z)
    (notes : list Note.t) : option (list Note.t) :=
  match list_find (λ n, Note._id n = id_of noteId) notes with
  | Some (i, note) =>
      Some (<[i := Note.mk (Note._id note) content (Note.createdAt note) now]> notes)
  | None => None
  end.

(** [taskSchema.methods.deleteNote], without the [save]:
    [note._id.toString() !== noteId] compares a string with the argument,
    so it holds of every note when the argument is an [ObjectId] object. *)
Definition deleteNote (noteId : NoteId) (notes : list Note.t) : list Note.t :=
  match noteId with
  | AsString id => filter (λ note, Note._id note ≠ id) notes
  | AsObjectId _ => notes
  end.

(** [taskSchema.statics.findOverdue], before [populate]:
    [{ userId, completed: false, dueDate: { $lt: new Date() } }] *)
Definition findOverdue (userId : oid) (now : Z) (ts : gmap oid Task.t)
    : list (oid * Task.t) :=
  filter (λ kv : oid * Task.t,
            Task.userId kv.2 = userId
            ∧ Task.completed kv.2 = false
            ∧ match Task.dueDate kv.2 with
              | Some d => bool_decide (d < now)
              | None => false
              end = true)
         (map_to_list ts).

(** * The lookups of [models/User.js] *)

(** [String.prototype.toLowerCase] on the letters of the ASCII range. *)
Fixpoint toLowerCase (s : string) : string :=
  match s with
  | String a s' => String (Regex.to_lower a) (toLowerCase s')
  | EmptyString => EmptyString
  end.

(** [userSchema.statics.findByEmail]: [findOne({ email: email.toLowerCase() })] *)
Definition findByEmail (email : string) (us : gmap oid User.t)
    : option (oid * User.t) :=
  head (filter (λ kv : oid * User.t, User.email kv.2 = toLowerCase email)
               (map_to_list us)).

(** [userSchema.statics.findByUsername]:
    [findOne({ username: username.toLowerCase() })] *)
Definition findByUsername (username : string) (us : gmap oid User.t)
    : option (oid * User.t) :=
  head (filter (λ kv : oid * User.t, User.username kv.2 = toLowerCase username)
               (map_to_list us)).

(** * middleware/auth.js and the request interceptor of services/api.ts *)

Module Auth.

(** The rest of [s] after the prefix [p]. *)
Fixpoint strip_prefix (p s : string) : option string :=
  match p, s with
  | EmptyString, _ => Some s
  | String a p', String b s' => if decide (a = b) then strip_prefix p' s' else None
  | String _ _, EmptyString => None
  end.

(** [s.replace(p, '')] for a string [p]: [s] without the first occurrence
    of [p]. *)
Fixpoint replace_first (p s : string) : string :=
  match strip_prefix p s with
  | Some rest => rest
  | None =>
      match s with
      | String a s' => String a (replace_first p s')
      | EmptyString => EmptyString
      end
  end.

(** What [jwt.verify] does: it returns the payload, or throws an error
    with one of the names that the middleware tells apart. *)
Inductive Verified (P : Type) :=
| Decoded (payload : P)
| TokenExpiredError
| JsonWebTokenError
| OtherError.

Arguments Decoded {P} payload.
Arguments TokenExpiredError {P}.
Arguments JsonWebTokenError {P}.
Arguments OtherError {P}.

(** The middleware calls [next()] with [req.user] set, or answers. *)
Inductive Outcome (P : Type) :=
| Next (user : P)
| Denied (status : nat) (message : string).

Arguments Next {P} user.
Arguments Denied {P} status message.

(** [process.env.JWT_SECRET || 'fallback-secret'] *)
Definition secret (JWT_SECRET : option string) : string :=
  match JWT_SECRET with
  | Some k => if decide (k = "") then "fallback-secret" else k
  | None => "fallback-secret"
  end.

(** The [try] and [catch] of the middleware around [jwt.verify]. *)
Definition verdict {P} (v : Verified P) : Outcome P :=
  match v with
  | Decoded decoded => Next decoded
  | TokenExpiredError => Denied 401 "Token expired"
  | JsonWebTokenError => Denied 401 "Invalid token"
  | OtherError => Denied 401 "Token is not valid"
  end.

(** [auth]; [Authorization] is [req.header('Authorization')]. *)
Definition auth {P} (jwt_verify : string → string → Verified P)
    (JWT_SECRET : option string) (Authorization : option string) : Outcome P :=
  match replace_first "Bearer " <$> Authorization with
  | Some token =>
      if decide (token = "") then Denied 401 "No token, authorization denied"
      else verdict (jwt_verify token (secret JWT_SECRET))
  | None => Denied 401 "No token, authorization denied"
  end.

(** The request interceptor of [services/api.ts]: the [Authorization]
    header of a request, from the item [authToken] of the storage. *)
Definition authorization_header (authToken : option string) : option string :=
  match authToken with
  | Some token => if decide (token = "") then None else Some ("Bearer " +:+ token)
  | None => None
  end.

End Auth.

(** * The form of a task ([TaskForm]) *)




(** * The client: contexts/TaskContext.tsx and contexts/AuthContext.tsx

    The tasks, the categories and the user that the contexts hold are the
    objects of the JSON bodies that the server sent. *)

Module Api.

(** [ApiResponse<T>]: the envelope of a response; [data] and [message]
    are [None] when the envelope has no such property. *)
Record ApiResponse (D : Type) := mkApiResponse {
  success : bool;
  data : option D;
  message : option string
}.

Arguments mkApiResponse {D} success data message.
Arguments success {D} a.
Arguments data {D} a.
Arguments message {D} a.

(** What [await] gives: the envelope, or an exception, which is an
    [Error] with its message or ([None]) some other value. *)
Inductive Awaited (D : Type) :=
| Resolved (response : ApiResponse D)
| Rejected (error_message : option string).

Arguments Resolved {D} response.
Arguments Rejected {D} error_message.

(** [message || fallback] *)
Definition message_or (message : option string) (fallback : string) : string :=
  match message with
  | Some m => if decide (m = "") then fallback else m
  | None => fallback
  end.

End Api.

Module TaskContext.

Record TaskState := mkTaskState {
  tasks : list Mock.Obj;
  categories : list Mock.Obj;
  isLoading : bool;
  error : option string
}.

Inductive TaskAction :=
| SET_LOADING (payload : bool)
| SET_TASKS (payload : list Mock.Obj)
| SET_CATEGORIES (payload : list Mock.Obj)
| ADD_TASK (payload : Mock.Obj)
| UPDATE_TASK (payload : Mock.Obj)
| DELETE_TASK (payload : string)
| ADD_CATEGORY (payload : Mock.Obj)
| UPDATE_CATEGORY (payload : Mock.Obj)
| DELETE_CATEGORY (payload : string)
| SET_ERROR (payload : string)
| CLEAR_ERROR.

(** [xs.map(x => x.id === payload.id ? payload : x)] *)
Definition replace_by_id (payload : Mock.Obj) (xs : list Mock.Obj) : list Mock.Obj :=
  (λ x, if Mock.strict_eq (Mock.get x "id") (Mock.get payload "id")
        then payload else x) <$> xs.

(** [xs.filter(x => x.id !== id)] *)
Definition remove_by_id (id : string) (xs : list Mock.Obj) : list Mock.Obj :=
  filter (λ x, Mock.strict_eq (Mock.get x "id") (Mock.VStr id) = false) xs.

Definition taskReducer (state : TaskState) (action : TaskAction) : TaskState :=
  match action with
  | SET_LOADING payload =>
      mkTaskState (tasks state) (categories state) payload (error state)
  | SET_TASKS payload =>
      mkTaskState payload (categories state) (isLoading state) (error state)
  | SET_CATEGORIES payload =>
      mkTaskState (tasks state) payload (isLoading state) (error state)
  | ADD_TASK payload =>
      mkTaskState (payload :: tasks state) (categories state) (isLoading state)
                  (error state)
  | UPDATE_TASK payload =>
      mkTaskState (replace_by_id payload (tasks state)) (categories state)
                  (isLoading state) (error state)
  | DELETE_TASK payload =>
      mkTaskState (remove_by_id payload (tasks state)) (categories state)
                  (isLoading state) (error state)
  | ADD_CATEGORY payload =>
      mkTaskState (tasks state) (categories state ++ [payload]) (isLoading state)
                  (error state)
  | UPDATE_CATEGORY payload =>
      mkTaskState (tasks state) (replace_by_id payload (categories state))
                  (isLoading state) (error state)
  | DELETE_CATEGORY payload =>
      mkTaskState (tasks state) (remove_by_id payload (categories state))
                  (isLoading state) (error state)
  | SET_ERROR payload =>
      mkTaskState (tasks state) (categories state) (isLoading state) (Some payload)
  | CLEAR_ERROR =>
      mkTaskState (tasks state) (categories state) (isLoading state) None
  end.

Definition initialState : TaskState := mkTaskState [] [] false None.

(** The [try] and [catch] that the functions of the provider share: with
    [response.success && response.data] the action [ok response.data],
    otherwise [SET_ERROR] with [response.message || fallback], and with
    the fallback alone when the request threw. *)
Definition settle {D} (response : Api.Awaited D) (ok : D → TaskAction)
    (fallback : string) : TaskAction :=
  match response with
  | Api.Resolved r =>
      match Api.success r, Api.data r with
      | true, Some d => ok d
      | _, _ => SET_ERROR (Api.message_or (Api.message r) fallback)
      end
  | Api.Rejected _ => SET_ERROR fallback
  end.

(** The same with the test [response.success] of the two deletions. *)
Definition settle_void {D} (response : Api.Awaited D) (ok : TaskAction)
    (fallback : string) : TaskAction :=
  match response with
  | Api.Resolved r =>
      if Api.success r then ok else SET_ERROR (Api.message_or (Api.message r) fallback)
  | Api.Rejected _ => SET_ERROR fallback
  end.

(** The functions of [TaskProvider], each with what its request gave:
    the actions that it dispatches, in their order. *)
Definition fetchTasks (response : Api.Awaited (list Mock.Obj)) : list TaskAction :=
  [SET_LOADING true; settle response SET_TASKS "Failed to fetch tasks";
   SET_LOADING false].

Definition fetchCategories (response : Api.Awaited (list Mock.Obj)) : list TaskAction :=
  [settle response SET_CATEGORIES "Failed to fetch categories"].

Definition createTask (response : Api.Awaited Mock.Obj) : list TaskAction :=
  [SET_LOADING true; settle response ADD_TASK "Failed to create task";
   SET_LOADING false].

Definition updateTask (response : Api.Awaited Mock.Obj) : list TaskAction :=
  [settle response UPDATE_TASK "Failed to update task"].

Definition deleteTask (id : string) (response : Api.Awaited unit) : list TaskAction :=
  [settle_void response (DELETE_TASK id) "Failed to delete task"].

Definition toggleTaskComplete (response : Api.Awaited Mock.Obj) : list TaskAction :=
  [settle response UPDATE_TASK "Failed to toggle task"].

Definition createCategory (response : Api.Awaited Mock.Obj) : list TaskAction :=
  [settle response ADD_CATEGORY "Failed to create category"].

Definition updateCategory (response : Api.Awaited Mock.Obj) : list TaskAction :=
  [settle response UPDATE_CATEGORY "Failed to update category"].

Definition deleteCategory (id : string) (response : Api.Awaited unit) : list TaskAction :=
  [settle_void response (DELETE_CATEGORY id) "Failed to delete category"].

Definition clearError : list TaskAction := [CLEAR_ERROR].

(** [useReducer]: the actions are applied in the order of their dispatch. *)
Definition dispatch (actions : list TaskAction) (state : TaskState) : TaskState :=
  foldl taskReducer state actions.

(** A call of a function of the provider, with what its request gave. *)
Inductive Call :=
| FetchTasks (response : Api.Awaited (list Mock.Obj))
| FetchCategories (response : Api.Awaited (list Mock.Obj))
| CreateTask (response : Api.Awaited Mock.Obj)
| UpdateTask (response : Api.Awaited Mock.Obj)
| DeleteTask (id : string) (response : Api.Awaited unit)
| ToggleTaskComplete (response : Api.Awaited Mock.Obj)
| CreateCategory (response : Api.Awaited Mock.Obj)
| UpdateCategory (response : Api.Awaited Mock.Obj)
| DeleteCategory (id : string) (response : Api.Awaited unit)
| ClearError.

Definition actions (c : Call) : list TaskAction :=
  match c with
  | FetchTasks r => fetchTasks r
  | FetchCategories r => fetchCategories r
  | CreateTask r => createTask r
  | UpdateTask r => updateTask r
  | DeleteTask id r => deleteTask id r
  | ToggleTaskComplete r => toggleTaskComplete r
  | CreateCategory r => createCategory r
  | UpdateCategory r => updateCategory r
  | DeleteCategory id r => deleteCategory id r
  | ClearError => clearError
  end.

(** The request of the call did not give what the function waits for. *)
Definition failed (c : Call) : Prop :=
  let no_data {D} (r : Api.Awaited D) :=
    match r with
    | Api.Resolved r => Api.success r = false ∨ Api.data r = None
    | Api.Rejected _ => True
    end in
  let no_success {D} (r : Api.Awaited D) :=
    match r with
    | Api.Resolved r => Api.success r = false
    | Api.Rejected _ => True
    end in
  match c with
  | FetchTasks r | FetchCategories r => no_data r
  | CreateTask r | UpdateTask r | ToggleTaskComplete r
  | CreateCategory r | UpdateCategory r => no_data r
  | DeleteTask _ r | DeleteCategory _ r => no_success r
  | ClearError => False
  end.

End TaskContext.

Module AuthContext.

Record AuthState := mkAuthState {
  user : option Mock.Obj;
  token : option string;
  isLoading : bool;
  isAuthenticated : bool;
  error : option string
}.

Inductive AuthAction :=
| SET_LOADING (payload : bool)
| SET_USER (payload : Mock.Obj)
| SET_TOKEN (payload : string)
| SET_AUTHENTICATED (payload : bool)
| SET_ERROR (payload : string)
| CLEAR_ERROR
| LOGOUT.

Definition authReducer (state : AuthState) (action : AuthAction) : AuthState :=
  match action with
  | SET_LOADING payload =>
      mkAuthState (user state) (token state) payload (isAuthenticated state)
                  (error state)
  | SET_USER payload =>
      mkAuthState (Some payload) (token state) (isLoading state) true None
  | SET_TOKEN payload =>
      mkAuthState (user state) (Some payload) (isLoading state)
                  (isAuthenticated state) (error state)
  | SET_AUTHENTICATED payload =>
      mkAuthState (user state) (token state) (isLoading state) payload (error state)
  | SET_ERROR payload =>
      mkAuthState (user state) (token state) (isLoading state)
                  (isAuthenticated state) (Some payload)
  | CLEAR_ERROR =>
      mkAuthState (user state) (token state) (isLoading state)
                  (isAuthenticated state) None
  | LOGOUT => mkAuthState None None (isLoading state) false None
  end.

Definition initialState : AuthState := mkAuthState None None true false None.

(** [checkAuth], and the effect that runs it when the provider is
    mounted: [authToken] is the item of the storage, which is taken not to
    fail, [response] what [authAPI.getCurrentUser] gave. *)
Definition checkAuth (authToken : option string) (response : Api.Awaited Mock.Obj)
    : list AuthAction :=
  [SET_LOADING true]
  ++ match authToken with
     | Some t =>
         if decide (t = "") then []
         else
           SET_TOKEN t
           :: match response with
              | Api.Resolved r =>
                  match Api.success r, Api.data r with
                  | true, Some u => [SET_USER u]
                  | _, _ => [LOGOUT]
                  end
              | Api.Rejected _ => [LOGOUT]
              end
     | None => []
     end
  ++ [SET_LOADING false].

(** The message that [login] reports, and throws in an [Error], when it
    fails. *)
Definition login_error (response : Api.Awaited (Mock.Obj * string)) : option string :=
  match response with
  | Api.Resolved r =>
      match Api.success r, Api.data r with
      | true, Some _ => None
      | _, _ => Some (Api.message_or (Api.message r) "Login failed")
      end
  | Api.Rejected (Some m) => Some m
  | Api.Rejected None => Some "Login failed"
  end.

(** What [login] throws, if it throws: an [Error] with its message, or
    ([Some None]) the value, not an [Error], that rejected its request and
    that its [catch] throws again. *)
Definition login_throws (response : Api.Awaited (Mock.Obj * string))
    : option (option string) :=
  match response with
  | Api.Rejected None => Some None
  | _ => Some <$> login_error response
  end.

(** [login]: the [data] of the response is the pair [{ user, token }]. *)
Definition login (response : Api.Awaited (Mock.Obj * string)) : list AuthAction :=
  [SET_LOADING true; CLEAR_ERROR]
  ++ match response with
     | Api.Resolved r =>
         match Api.success r, Api.data r with
         | true, Some (u, t) => [SET_TOKEN t; SET_USER u]
         | _, _ =>
             let errorMessage := Api.message_or (Api.message r) "Login failed" in
             [SET_ERROR errorMessage; SET_ERROR errorMessage]
         end
     | Api.Rejected (Some m) => [SET_ERROR m]
     | Api.Rejected None => [SET_ERROR "Login failed"]
     end
  ++ [SET_LOADING false].

(** [register]: after a successful registration it awaits [login]; what
    [login] throws it catches and reports once more, with the message of
    the [Error], or with its own message for a value that is no [Error]. *)
Definition register (response : Api.Awaited Mock.Obj)
    (login_response : Api.Awaited (Mock.Obj * string)) : list AuthAction :=
  [SET_LOADING true; CLEAR_ERROR]
  ++ match response with
     | Api.Resolved r =>
         match Api.success r, Api.data r with
         | true, Some _ =>
             login login_response
             ++ match login_throws login_response with
                | Some (Some m) => [SET_ERROR m]
                | Some None => [SET_ERROR "Registration failed"]
                | None => []
                end
         | _, _ =>
             let errorMessage := Api.message_or (Api.message r) "Registration failed" in
             [SET_ERROR errorMessage; SET_ERROR errorMessage]
         end
     | Api.Rejected (Some m) => [SET_ERROR m]
     | Api.Rejected None => [SET_ERROR "Registration failed"]
     end
  ++ [SET_LOADING false].

(** [logout]: whatever [authAPI.logout] gave. *)
Definition logout : list AuthAction := [LOGOUT].

Definition clearError : list AuthAction := [CLEAR_ERROR].

Definition dispatch (actions : list AuthAction) (state : AuthState) : AuthState :=
  foldl authReducer state actions.

(** A call of a function of the provider, with what its requests gave. *)
Inductive Call :=
| CheckAuth (authToken : option string) (response : Api.Awaited Mock.Obj)
| Login (response : Api.Awaited (Mock.Obj * string))
| Register (response : Api.Awaited Mock.Obj)
           (login_response : Api.Awaited (Mock.Obj * string))
| Logout
| ClearError.

Definition actions (c : Call) : list AuthAction :=
  match c with
  | CheckAuth t r => checkAuth t r
  | Login r => login r
  | Register r l => register r l
  | Logout => logout
  | ClearError => clearError
  end.

(** The state tells that a user is logged in exactly when it holds one. *)
Definition consistent (state : AuthState) : Prop :=
  isAuthenticated state = true ↔ is_Some (user state).

End AuthContext.

(** * The client against the in-memory server *)

Section Session.

(** [Date.prototype.toISOString], by which [JSON.stringify] writes a date. *)
Variable toISOString : Z → string.

(** [new Date(v)] on the server. *)
Variable new_Date : Mock.Value → Mock.Value.

(** [JSON.stringify] followed by [JSON.parse], on a property: a date
    becomes its text, and a property that is [undefined] is left out. *)
Definition json_value (v : Mock.Value) : option Mock.Value :=
  match v with
  | Mock.VUndefined => None
  | Mock.VDate ms => Some (Mock.VStr (toISOString ms))
  | _ => Some v
  end.

Definition to_json (o : Mock.Obj) : Mock.Obj := omap json_value o.

(** The message of the error that the HTTP library throws for a response
    whose status is not 200. *)
Definition status_error (code : nat) : option string :=
  Some ("Request failed with status code " +:+ pretty code).

(** What the functions of [services/api.ts] return for a reply of the
    server: the parsed body of a response with the status 200; a response
    with another status makes the request throw. *)
Definition task_response (r : Mock.Reply) : Api.Awaited Mock.Obj :=
  match r with
  | Mock.Success d m =>
      Api.Resolved (Api.mkApiResponse true
                  (match d with Mock.DObj o => Some (to_json o) | _ => None end)
                  (Some m))
  | Mock.Failure code _ => Api.Rejected (status_error code)
  end.

Definition list_response (r : Mock.Reply) : Api.Awaited (list Mock.Obj) :=
  match r with
  | Mock.Success d m =>
      Api.Resolved (Api.mkApiResponse true
                  (match d with Mock.DList l => Some (to_json <$> l) | _ => None end)
                  (Some m))
  | Mock.Failure code _ => Api.Rejected (status_error code)
  end.

Definition void_response (r : Mock.Reply) : Api.Awaited unit :=
  match r with
  | Mock.Success _ m => Api.Resolved (Api.mkApiResponse true None (Some m))
  | Mock.Failure code _ => Api.Rejected (status_error code)
  end.

(** What the user does with the tasks; the bodies are the JSON bodies of
    the requests. *)
Inductive Gesture :=
| Refresh
| Create (taskData : Mock.Obj)
| Update (id : string) (taskData : Mock.Obj)
| Delete (id : string)
| Toggle (id : string).

(** One function of the provider from its request to its last dispatch,
    with the in-memory server on the other side. *)
Definition perform (now : Z) (g : Gesture)
    (cs : TaskContext.TaskState * Mock.State) : TaskContext.TaskState * Mock.State :=
  let client := cs.1 in
  let server := cs.2 in
  match g with
  | Refresh =>
      let out := Mock.get_tasks server in
      (TaskContext.dispatch (TaskContext.fetchTasks (list_response out.1)) client,
       out.2)
  | Create taskData =>
      let out := Mock.post_task new_Date now taskData server in
      (TaskContext.dispatch (TaskContext.createTask (task_response out.1)) client,
       out.2)
  | Update id taskData =>
      let out := Mock.put_task now id taskData server in
      (TaskContext.dispatch (TaskContext.updateTask (task_response out.1)) client,
       out.2)
  | Delete id =>
      let out := Mock.delete_task id server in
      (TaskContext.dispatch (TaskContext.deleteTask id (void_response out.1)) client,
       out.2)
  | Toggle id =>
      let out := Mock.patch_task_complete now id server in
      (TaskContext.dispatch
         (TaskContext.toggleTaskComplete (task_response out.1)) client,
       out.2)
  end.

(** A sequence of gestures, each at its time. *)
Definition session (gs : list (Z * Gesture))
    (cs : TaskContext.TaskState * Mock.State) : TaskContext.TaskState * Mock.State :=
  foldl (λ cs g, perform g.1 g.2 cs) cs gs.

(** The tasks of the client are the tasks of the server, as JSON. *)
Definition in_sync (cs : TaskContext.TaskState * Mock.State) : Prop :=
  TaskContext.tasks cs.1 = to_json <$> Mock.tasks cs.2.

End Session.

(** The identifiers of the tasks of the server. *)
Definition task_ids (st : Mock.State) : list Mock.Value :=
  (λ o, Mock.get o "id") <$> Mock.tasks st.

(** The tasks of the server have different identifiers, each one a number
    that [generateId] has issued. *)
Definition ids_issued (st : Mock.State) : Prop :=
  NoDup (task_ids st)
  ∧ Forall (λ v, ∃ n, (n < Mock.nextId st)%nat ∧ v = Mock.VStr (pretty n))
           (task_ids st).

(** The tasks [l] have different identifiers, all of them strings. *)
Definition distinct_ids (l : list Mock.Obj) : Prop :=
  NoDup ((λ o, Mock.get o "id") <$> l)
  ∧ Forall (λ o, ∃ s, Mock.get o "id" = Mock.VStr s) l.

(** The body of an update carries no [id]. *)
Definition keeps_id (g : Gesture) : Prop :=
  match g with
  | Update _ taskData => taskData !! "id" = None
  | _ => True
  end.

(** Two collections hold the same rows of [actor]. *)
Definition agree_on {A} (owner : A → oid) (actor : oid) (m m' : gmap oid A) : Prop :=
  ∀ k x, owner x = actor → (m !! k = Some x ↔ m' !! k = Some x).

(** Two stores hold the same tasks and the same categories of [actor]. *)
Definition same_rows_of (actor : oid) (s s' : Store) : Prop :=
  agree_on Task.userId actor (tasks s) (tasks s')
  ∧ agree_on Category.userId actor (categories s) (categories s').

(** Two replies say the same: the same failure, the same row, the same
    rows (a sort leaves the order of rows that compare equal open), the
    same numbers in an overview and the same counters in its list. *)
Definition same_answer (r r' : Reply) : Prop :=
  match r, r' with
  | Ok (TaskList l), Ok (TaskList l') => l ≡ₚ l'
  | Ok (CategoryList l), Ok (CategoryList l') => l ≡ₚ l'
  | Ok (CategoryStatsData st), Ok (CategoryStatsData st') =>
      cs_total st = cs_total st'
      ∧ cs_active st = cs_active st'
      ∧ cs_default st = cs_default st'
      ∧ cs_withTasks st = cs_withTasks st'
      ∧ (λ row : oid * string * string * Z, row.2) <$> cs_topCategories st
        = (λ row : oid * string * string * Z, row.2) <$> cs_topCategories st'
  | _, _ => r = r'
  end.

(** The requests that only read. *)
Definition reads_only (r : Request) : bool :=
  match r with
  | GetTasks _ | GetTask _ | GetTaskStats
  | GetCategories _ | GetCategory _ | GetCategoryStats => true
  | _ => false
  end.

(** * Stores and requests of the examples *)

(** The in-memory server right after it starts, at time 0. *)
Definition mock_demo : Mock.State := Mock.initializeMockData 0.

(** The task that [initializeMockData] creates. *)
Definition welcome_task : Mock.Obj :=
  {[ "id" := Mock.VStr "4"; "title" := Mock.VStr "Welcome to TodoApp!";
     "description" :=
       Mock.VStr "This is your first task. Tap to edit or mark as complete.";
     "completed" := Mock.VBool false; "categoryId" := Mock.VStr "1";
     "dueDate" := Mock.VDate 604800000;
     "priority" := Mock.VStr "medium";
     "createdAt" := Mock.VDate 0; "updatedAt" := Mock.VDate 0;
     "userId" := Mock.VStr "1" ]}.

(** A body for [PUT /api/tasks/4] that rewrites the identity, the owner,
    the completion flag and the creation date of the task. *)
Definition forged_update : Mock.Obj :=
  {[ "id" := Mock.VStr "9"; "userId" := Mock.VStr "2";
     "completed" := Mock.VBool true; "createdAt" := Mock.VNum 0 ]}.

(** The demo user of the in-memory server. *)
Definition demo_user : Mock.Obj :=
  {[ "id" := Mock.VStr "1"; "email" := Mock.VStr "demo@example.com";
     "username" := Mock.VStr "demo";
     "createdAt" := Mock.VDate 0; "updatedAt" := Mock.VDate 0 ]}.

Definition login_body (password : string) : Mock.Obj :=
  {[ "email" := Mock.VStr "demo@example.com"; "password" := Mock.VStr password ]}.

Definition register_body : Mock.Obj :=
  {[ "email" := Mock.VStr "ann@example.com"; "username" := Mock.VStr "ann";
     "password" := Mock.VStr "secret1" ]}.

(** A task that was completed at time 5. *)
Definition finished_doc : Task.doc :=
  Task.mkdoc (Task.mk "Pay rent" None true medium None None 1%nat 0 5) (Some 5).

Definition empty_store : Store := mkStore ∅ ∅.

Definition errands_body : CategoryBody :=
  mkCategoryBody (Some "Errands") (Some "#10b981") None None.

(** A task in the category 0. *)
Definition milk_body : TaskBody :=
  mkTaskBody (Some "Buy milk") None None (Some 0%nat) None.

(** A new title, and nothing else. *)
Definition retitle_body : TaskBody :=
  mkTaskBody (Some "Buy oat milk") None None None None.

(** User 7 creates a category, creates a task in it and renames the task. *)
Definition drift_requests : list (oid * Z * Request) :=
  [ (7%nat, 100, PostCategory errands_body);
    (7%nat, 200, PostTask milk_body);
    (7%nat, 300, PutTask 0%nat retitle_body) ].

Definition drifted_store : Store := run Regex.RegExp_i drift_requests empty_store.

(** The store after user 7 created the category "Errands". *)
Definition errands_store : Store :=
  (handle Regex.RegExp_i 7%nat 100 (PostCategory errands_body) empty_store).2.

Definition named (name : string) : CategoryBody :=
  mkCategoryBody (Some name) (Some "#8b5cf6") None None.

(** The store after user 7 created the category "R+D". *)
Definition rnd_store : Store :=
  (handle Regex.RegExp_i 7%nat 100 (PostCategory (named "R+D")) empty_store).2.

(** A task of user 1, and a body without a title. *)
Definition one_task_store : Store :=
  mkStore {[ 0%nat := Task.mk "Pay rent" None false medium None None 1%nat 0 0 ]} ∅.

Definition untitled_body : TaskBody := mkTaskBody None None None None None.

(** A new title, and the category 0 once more. *)
Definition move_body : TaskBody :=
  mkTaskBody (Some "Buy oat milk") None None (Some 0%nat) None.

(** User 7 creates a category, creates a task in it, updates the task with
    its category and deletes it. *)
Definition tidy_requests : list (oid * Z * Request) :=
  [ (7%nat, 100, PostCategory errands_body);
    (7%nat, 200, PostTask milk_body);
    (7%nat, 300, PutTask 0%nat move_body);
    (7%nat, 400, DeleteTask 0%nat) ].

(** The task that [POST /api/tasks] with [milk_body] returns to user 7 at
    time 200, in the category "Errands". *)
Definition milk_view : TaskView :=
  (0%nat, Task.mk "Buy milk" None false medium (Some 0%nat) None 7%nat 200 200,
   Some (0%nat, "Errands", "#10b981")).

(** The default category "Work" of user 7. *)
Definition work_category : Category.t :=
  Category.of_seed 7%nat 0 (Category.mkseed "Work" "#3b82f6" "briefcase" 1).

Definition seeded_store : Store := mkStore ∅ {[ 0%nat := work_category ]}.

(** Requests of the owner and of another user against the default
    category. *)
Definition default_requests : list (oid * Z * Request) :=
  [ (7%nat, 10, DeleteCategory 0%nat);
    (8%nat, 20, DeleteCategory 0%nat);
    (7%nat, 30, PatchCategoryToggle 0%nat);
    (7%nat, 40, PutCategory 0%nat (named "Office")) ].

(** The categories after [createDefaults] for user 1 on an empty
    collection and a [PUT /api/categories/0] of user 1 that renames "Work". *)
Definition renamed_defaults : gmap oid Category.t :=
  categories
    (handle Regex.RegExp_i 1%nat 5 (PutCategory 0%nat (named "Office"))
       (mkStore ∅ (createDefaults 1 0 ∅).2)).2.

(** A user whose name has a capital letter. *)
Definition ann : User.t :=
  User.mk "ann@example.com" "Ann" "$2a$12$hash" None true None 0 0.

Definition ann_lower : User.t :=
  User.mk "ann@example.com" "ann" "$2a$12$hash" None true None 0 0.


(** The client right after it has fetched the tasks of the in-memory
    server, with dates written as their time value. *)
Definition fetched : TaskContext.TaskState * Mock.State :=
  perform pretty (λ v, v) 1 Refresh (TaskContext.initialState, mock_demo).

(** A new task, a new title for it, its completion, and the deletion of
    the welcome task. *)
Definition gestures : list (Z * Gesture) :=
  [ (2, Create {[ "title" := Mock.VStr "Buy milk" ]});
    (3, Update "5" {[ "title" := Mock.VStr "Buy oat milk" ]});
    (4, Toggle "5");
    (5, Delete "4") ].

(** * Properties of the task model *)

(** C5: at an instant [now], the derived status of a task is the one the
    decision list of the specification gives: "completed" when [completed]
    is true; otherwise "overdue" exactly when the task is not completed and
    [dueDate < now]; otherwise "due-soon" exactly when it has a [dueDate]
    with [dueDate - now] below 24 hours; otherwise "pending". *)
Theorem status_derivation (now : Z) (x : Task.t) :
  Task.status now x = Task.status_spec now x
  ∧ (Task.status now x = "completed" ↔ Task.completed x = true)
  ∧ (Task.status now x = "overdue" ↔
       Task.completed x = false ∧ ∃ d, Task.dueDate x = Some d ∧ d < now)
  ∧ (Task.status now x = "due-soon" ↔
       Task.completed x = false
       ∧ ∃ d, Task.dueDate x = Some d ∧ ¬ d < now ∧ d - now < 24 * 60 * 60 * 1000)
  ∧ (Task.status now x = "pending" ↔
       Task.completed x = false
       ∧ (Task.dueDate x = None
          ∨ ∃ d, Task.dueDate x = Some d ∧ ¬ d < now
                 ∧ ¬ d - now < 24 * 60 * 60 * 1000)).
Proof.
  unfold Task.status, Task.status_at, Task.status_spec.
  change day_ms with (24 * 60 * 60 * 1000).
  destruct x as [ttl descr done prio cat due uid cr up]; simpl.
  destruct done; [| destruct due as [d|]]; repeat case_bool_decide;
    repeat split; try discriminate; try done;
    try (intros [? _]; discriminate);
    try (intros [_ (d' & [= <-] & ?)]; tauto);
    try (intros [_ (d' & ? & _)]; discriminate);
    try (intros [_ [? | (d' & [= <-] & ?)]]; (discriminate || tauto));
    try (intros _; split; [done | eauto]);
    try (intros _; split; [done | right; eauto]).
  all: first [ by left | right; by eauto | by eauto ].
Qed.

(** The paths that [toggleComplete] saves: [completed] is flipped and
    [updatedAt] is the time of the call. *)
Lemma toggleComplete_paths (now : Z) (d : Task.doc) :
  Task.paths (Task.toggleComplete now d)
  = Task.set_updatedAt now
      (Task.set_completed (negb (Task.completed (Task.paths d))) (Task.paths d)).
Proof.
  unfold Task.toggleComplete, Task.save.
  destruct d as [[ttl descr done prio cat due uid cr up] at_]. simpl.
  rewrite decide_False by (destruct done; intros [=]).
  by destruct done.
Qed.


(** * Properties of the in-memory server *)

Lemma mock_find_by_Some (key : string) (v : Mock.Value) (l : list Mock.Obj)
    (i : nat) (o : Mock.Obj) :
  Mock.find_by key v l = Some (i, o) →
  l !! i = Some o ∧ Mock.strict_eq (Mock.get o key) v = true.
Proof.
  unfold Mock.find_by. intros H%list_find_Some. tauto.
Qed.

Lemma mock_merge_lookup (now : Z) (task updates : Mock.Obj) (k : string) :
  Mock.merge now task updates !! k
  = if decide (k = "updatedAt") then Some (Mock.VDate now)
    else match updates !! k with Some v => Some v | None => task !! k end.
Proof.
  unfold Mock.merge, Mock.spread.
  destruct (decide (k = "updatedAt")) as [->|Hk].
  - by rewrite lookup_insert_eq.
  - rewrite lookup_insert_ne by done. rewrite lookup_union.
    destruct (updates !! k), (task !! k); done.
Qed.

(** C10: in the in-memory server, [PUT /api/tasks/:id] on an identifier
    that a task carries replaces the first such task by the shallow merge
    of the task and the body: a field that the body does not carry, other
    than [updatedAt], keeps its value; a field that the body carries,
    whichever it is ([id], [userId], [completed], [createdAt], ...), takes
    the value of the body, whatever that value is; [updatedAt] is the
    current time; the other tasks, the users and the categories are
    unchanged; the request succeeds for every body. *)
Theorem mock_put_task_shallow_merge (now : Z) (id : string)
    (updates : Mock.Obj) (st : Mock.State) (i : nat) (task : Mock.Obj) :
  Mock.find_by "id" (Mock.VStr id) (Mock.tasks st) = Some (i, task) →
  ∃ task',
    (Mock.put_task now id updates st).1
    = Mock.Success (Mock.DObj task') "Task updated successfully"
    ∧ Mock.tasks (Mock.put_task now id updates st).2 !! i = Some task'
    ∧ (∀ j, j ≠ i →
         Mock.tasks (Mock.put_task now id updates st).2 !! j = Mock.tasks st !! j)
    ∧ length (Mock.tasks (Mock.put_task now id updates st).2)
      = length (Mock.tasks st)
    ∧ Mock.users (Mock.put_task now id updates st).2 = Mock.users st
    ∧ Mock.categories (Mock.put_task now id updates st).2 = Mock.categories st
    ∧ Mock.nextId (Mock.put_task now id updates st).2 = Mock.nextId st
    ∧ (∀ k, k ≠ "updatedAt" → updates !! k = None → task' !! k = task !! k)
    ∧ (∀ k v, k ≠ "updatedAt" → updates !! k = Some v → task' !! k = Some v)
    ∧ task' !! "updatedAt" = Some (Mock.VDate now).
Proof.
  intros Hfind. pose proof (mock_find_by_Some _ _ _ _ _ Hfind) as [Hi _].
  unfold Mock.put_task. rewrite Hfind. cbn.
  exists (Mock.merge now task updates). repeat split.
  - apply list_lookup_insert_eq. by eapply lookup_lt_Some.
  - intros j Hj. by apply list_lookup_insert_ne.
  - apply length_insert.
  - intros k Hk Hu. rewrite mock_merge_lookup, Hu. by rewrite decide_False.
  - intros k v Hk Hu. rewrite mock_merge_lookup, Hu. by rewrite decide_False.
  - by rewrite mock_merge_lookup.
Qed.

(** C10 at work: the body [forged_update] sent for the task "4" of the
    server that has just started. *)
Lemma mock_put_task_witness :
  Mock.find_by "id" (Mock.VStr "4") (Mock.tasks mock_demo) = Some (0%nat, welcome_task)
  ∧ ∃ task',
      (Mock.put_task 1 "4" forged_update mock_demo).1
      = Mock.Success (Mock.DObj task') "Task updated successfully"
      ∧ Mock.tasks (Mock.put_task 1 "4" forged_update mock_demo).2 !! 0%nat = Some task'
      ∧ (∀ j, j ≠ 0%nat →
           Mock.tasks (Mock.put_task 1 "4" forged_update mock_demo).2 !! j
           = Mock.tasks mock_demo !! j)
      ∧ length (Mock.tasks (Mock.put_task 1 "4" forged_update mock_demo).2)
        = length (Mock.tasks mock_demo)
      ∧ Mock.users (Mock.put_task 1 "4" forged_update mock_demo).2 = Mock.users mock_demo
      ∧ Mock.categories (Mock.put_task 1 "4" forged_update mock_demo).2
        = Mock.categories mock_demo
      ∧ Mock.nextId (Mock.put_task 1 "4" forged_update mock_demo).2
        = Mock.nextId mock_demo
      ∧ (∀ k, k ≠ "updatedAt" → forged_update !! k = None →
           task' !! k = welcome_task !! k)
      ∧ (∀ k v, k ≠ "updatedAt" → forged_update !! k = Some v → task' !! k = Some v)
      ∧ task' !! "updatedAt" = Some (Mock.VDate 1).
Proof.
  split; [vm_compute; reflexivity |].
  apply (mock_put_task_shallow_merge 1 "4" forged_update mock_demo 0 welcome_task).
  vm_compute; reflexivity.
Defined.

(** C6, counterexample: on the in-memory server the login of the demo user
    succeeds with any two different passwords, the user object holds
    neither a password hash nor a [lastLogin], the state after the login is
    the state before it, and the token is the one of the instant. *)
Lemma mock_login_counterexample :
  Mock.login 1 (login_body "demo1234") mock_demo
  = (Mock.Success (Mock.DAuth demo_user "mock-jwt-token-1") "Login successful",
     mock_demo)
  ∧ Mock.login 1 (login_body "not-the-password") mock_demo
    = (Mock.Success (Mock.DAuth demo_user "mock-jwt-token-1") "Login successful",
       mock_demo)
  ∧ demo_user !! "password" = None
  ∧ demo_user !! "lastLogin" = None.
Proof. repeat split; vm_compute; reflexivity. Qed.

(** C6, amended: the login of the in-memory server never changes the
    state; it fails with "Invalid credentials" exactly when the email and
    the password are present and no user has this very email; otherwise,
    when both are present, it succeeds for the first user with this email
    whatever the password is, with the token ['mock-jwt-token-' + now];
    the outcome does not depend on the password beyond its presence.
    The password check and the login date exist as methods of the user
    model: [comparePassword] is the comparison of bcrypt against the stored
    hash, [updateLastLogin] sets [lastLogin] to the current time. *)
Theorem mock_login_spec (now : Z) (body : Mock.Obj) (st : Mock.State) :
  (Mock.login now body st).2 = st
  ∧ ((Mock.login now body st).1 = Mock.Failure 400 "Invalid credentials" ↔
       Mock.truthy (Mock.get body "email") = true
       ∧ Mock.truthy (Mock.get body "password") = true
       ∧ ∀ u, u ∈ Mock.users st →
              Mock.strict_eq (Mock.get u "email") (Mock.get body "email") = false)
  ∧ (∀ user token msg,
       (Mock.login now body st).1 = Mock.Success (Mock.DAuth user token) msg →
       user ∈ Mock.users st
       ∧ Mock.strict_eq (Mock.get user "email") (Mock.get body "email") = true
       ∧ token = "mock-jwt-token-" +:+ pretty now)
  ∧ (∀ i user,
       Mock.truthy (Mock.get body "email") = true →
       Mock.truthy (Mock.get body "password") = true →
       Mock.find_by "email" (Mock.get body "email") (Mock.users st) = Some (i, user) →
       (Mock.login now body st).1
       = Mock.Success (Mock.DAuth user (Mock.mock_token now)) "Login successful")
  ∧ (∀ body',
       Mock.get body' "email" = Mock.get body "email" →
       Mock.truthy (Mock.get body' "password") = Mock.truthy (Mock.get body "password") →
       Mock.login now body' st = Mock.login now body st)
  ∧ (∀ (bcrypt_compare : string → string → bool) (u : User.t) (candidate : string),
       User.comparePassword bcrypt_compare u candidate
       = bcrypt_compare candidate (User.password u)
       ∧ User.lastLogin (User.updateLastLogin now u) = Some now
       ∧ User.email (User.updateLastLogin now u) = User.email u
       ∧ User.password (User.updateLastLogin now u) = User.password u
       ∧ User.isActive (User.updateLastLogin now u) = User.isActive u).
Proof.
  unfold Mock.login.
  destruct (Mock.truthy (Mock.get body "email")) eqn:He;
    destruct (Mock.truthy (Mock.get body "password")) eqn:Hp; cbn [negb orb];
    try (split; [done |]; split; [split; [done | by intros (? & ? & _)] |];
         split; [done |]; split; [done |]; split; [| done];
         intros body' -> ->; rewrite ?He; cbn; by rewrite ?orb_true_r).
  destruct (Mock.find_by "email" (Mock.get body "email") (Mock.users st))
    as [[i user]|] eqn:Hfind; cbn.
  - pose proof (mock_find_by_Some _ _ _ _ _ Hfind) as [Hi Heq].
    assert (user ∈ Mock.users st) as Hin by (by eapply list_elem_of_lookup_2).
    split; [done |]. split.
    { split; [done |]. intros (_ & _ & Hall). by rewrite (Hall user Hin) in Heq. }
    split. { by intros u tk msg [= <- <- _]. }
    split. { by intros i' u _ _ [= <- <-]. }
    split; [| done].
    intros body' -> ->. by rewrite He, Hfind.
  - assert (∀ u, u ∈ Mock.users st →
              Mock.strict_eq (Mock.get u "email") (Mock.get body "email") = false)
      as Hnone.
    { intros u Hu. unfold Mock.find_by in Hfind.
      apply list_find_None in Hfind. rewrite Forall_forall in Hfind.
      specialize (Hfind u Hu). by destruct (Mock.strict_eq _ _). }
    split; [done |]. split; [done |].
    split; [done |]. split; [done |].
    split; [| done].
    intros body' -> ->. by rewrite He, Hfind.
Qed.

(** C8, counterexample: the registration of the in-memory server creates
    the user and no category: the three categories of the server stay
    those of user "1", and the new user, whose identifier is "5", has
    none. *)
Lemma mock_register_seeds_nothing :
  ∃ user,
    (Mock.register 1 register_body mock_demo).1
    = Mock.Success (Mock.DAuth user "mock-jwt-token-1") "User registered successfully"
    ∧ Mock.get user "id" = Mock.VStr "5"
    ∧ Mock.categories (Mock.register 1 register_body mock_demo).2
      = Mock.categories mock_demo
    ∧ length (Mock.categories (Mock.register 1 register_body mock_demo).2) = 3%nat
    ∧ Forall (λ c, Mock.get c "userId" = Mock.VStr "1")
             (Mock.categories (Mock.register 1 register_body mock_demo).2).
Proof.
  eexists. split; [vm_compute; reflexivity |].
  split; [vm_compute; reflexivity |].
  split; [vm_compute; reflexivity |].
  split; [vm_compute; reflexivity |].
  repeat constructor.
Qed.

(** * Properties of the seeding of the default categories *)

Lemma new_id_fresh {A} (m : gmap oid A) : m !! new_id m = None.
Proof. apply not_elem_of_dom, is_fresh. Qed.

Lemma index_conflict_iff (self uid : oid) (nm : string) (cs : gmap oid Category.t) :
  index_conflict self uid nm cs ↔
  ∃ id c, cs !! id = Some c ∧ id ≠ self ∧ Category.userId c = uid ∧ Category.name c = nm.
Proof.
  unfold index_conflict. rewrite map_Exists_lookup. naive_solver.
Qed.

(** What the collection holds stays where it is. *)
Lemma insertMany_keeps (docs : list Category.t) (cs : gmap oid Category.t)
    (id : oid) (c : Category.t) :
  cs !! id = Some c → (insertMany docs cs).2 !! id = Some c.
Proof.
  revert cs. induction docs as [|d docs IH]; intros cs Hc; simpl; [done |].
  case_decide; simpl; [done |].
  apply IH. rewrite lookup_insert_ne; [done |].
  intros <-. by rewrite new_id_fresh in Hc.
Qed.

(** Documents of one user with distinct names, none of which the user
    already has, are all inserted, at new identifiers, in order. *)
Lemma insertMany_success (uid : oid) (docs : list Category.t)
    (cs : gmap oid Category.t) :
  Forall (λ d, Category.userId d = uid) docs →
  NoDup (Category.name <$> docs) →
  (∀ id c, cs !! id = Some c → Category.userId c = uid →
           Category.name c ∉ Category.name <$> docs) →
  ∃ ids,
    (insertMany docs cs).1 = Some ids
    ∧ NoDup ids
    ∧ Forall (λ id, cs !! id = None) ids
    ∧ Forall2 (λ id d, (insertMany docs cs).2 !! id = Some d) ids docs
    ∧ (∀ id, id ∉ ids → (insertMany docs cs).2 !! id = cs !! id).
Proof.
  revert cs. induction docs as [|d docs IH]; intros cs Hown Hnd Hnew; simpl.
  { exists []. repeat split; try constructor; done. }
  apply Forall_cons in Hown as [Hd Hown].
  rewrite fmap_cons in Hnd. apply NoDup_cons in Hnd as [Hdn Hnd].
  rewrite decide_False; last first.
  { rewrite index_conflict_iff. intros (id & c & Hc & _ & Hu & Hn).
    rewrite Hd in Hu. apply (Hnew id c Hc Hu). rewrite fmap_cons, Hn. left. }
  simpl. set (id0 := new_id cs).
  destruct (IH (<[id0 := d]> cs) Hown Hnd) as (ids & Hr & Hnd' & Hfresh & Hdocs & Hrest).
  { intros id c Hc Hu. destruct (decide (id0 = id)) as [<-|Hne].
    - rewrite lookup_insert_eq in Hc. by injection Hc as <-.
    - rewrite lookup_insert_ne in Hc by done.
      specialize (Hnew id c Hc Hu). rewrite fmap_cons in Hnew.
      by apply not_elem_of_cons in Hnew as []. }
  assert (id0 ∉ ids) as Hid0.
  { intros Hin. rewrite Forall_forall in Hfresh.
    specialize (Hfresh id0 Hin). by rewrite lookup_insert_eq in Hfresh. }
  exists (id0 :: ids). rewrite Hr. simpl. repeat split.
  - by apply NoDup_cons.
  - constructor; [apply new_id_fresh |].
    eapply Forall_impl; [exact Hfresh |]. simpl. intros id Hid.
    by apply lookup_insert_None in Hid as [].
  - constructor; [| done]. rewrite Hrest by done. apply lookup_insert_eq.
  - intros id Hid. apply not_elem_of_cons in Hid as [Hne Hid].
    rewrite Hrest by done. by rewrite lookup_insert_ne.
Qed.

(** C8, amended: [createDefaults], called for a user who has no category
    yet, inserts exactly six categories, at six new identifiers: Work,
    Personal, Shopping, Health, Learning and Travel with their fixed
    colors and icons and the sort orders 1 to 6, each owned by the user,
    each with [isDefault] true, [isActive] true and [taskCount] 0; the
    categories of the other users are unchanged and the user has no
    category besides the six.  The registration of the in-memory server
    leaves its categories as they are. *)
Theorem createDefaults_seeds_six (uid : oid) (now : Z) (cs : gmap oid Category.t) :
  (∀ id c, cs !! id = Some c → Category.userId c ≠ uid) →
  ∃ ids docs,
    (createDefaults uid now cs).1 = Some ids
    ∧ length ids = 6%nat
    ∧ NoDup ids
    ∧ Forall (λ id, cs !! id = None) ids
    ∧ Forall2 (λ id d, (createDefaults uid now cs).2 !! id = Some d) ids docs
    ∧ (λ c, (Category.name c, Category.color c, Category.icon c, Category.sortOrder c))
      <$> docs = default_set_spec
    ∧ Forall (λ c, Category.isDefault c = true ∧ Category.userId c = uid
                   ∧ Category.isActive c = true ∧ Category.taskCount c = 0) docs
    ∧ (∀ id, id ∉ ids → (createDefaults uid now cs).2 !! id = cs !! id)
    ∧ (∀ id c, (createDefaults uid now cs).2 !! id = Some c →
               Category.userId c = uid → id ∈ ids)
    ∧ (∀ now' body st,
         Mock.categories (Mock.register now' body st).2 = Mock.categories st).
Proof.
  intros Hnone. unfold createDefaults.
  set (docs := Category.of_seed uid now <$> Category.defaultCategories).
  destruct (insertMany_success uid docs cs) as (ids & Hr & Hnd & Hfresh & Hdocs & Hrest).
  - subst docs. cbn. repeat constructor.
  - subst docs. cbn. apply (bool_decide_unpack _). vm_compute. exact I.
  - intros id c Hc Hu. by destruct (Hnone id c Hc).
  - exists ids, docs. repeat split; try done.
    + apply Forall2_length in Hdocs. by rewrite Hdocs.
    + subst docs. cbn. repeat constructor.
    + intros id c Hc Hu. destruct (decide (id ∈ ids)) as [|Hid]; [done |].
      rewrite Hrest in Hc by done. by destruct (Hnone id c Hc).
    + intros now' body st. unfold Mock.register.
      by repeat (case_match; simpl; try done).
Qed.

(** C8 at work: user 1, empty collection. *)
Lemma createDefaults_seeds_six_witness :
  ∃ ids docs,
    (createDefaults 1 0 ∅).1 = Some ids
    ∧ length ids = 6%nat
    ∧ NoDup ids
    ∧ Forall (λ id, (∅ : gmap oid Category.t) !! id = None) ids
    ∧ Forall2 (λ id d, (createDefaults 1 0 ∅).2 !! id = Some d) ids docs
    ∧ (λ c, (Category.name c, Category.color c, Category.icon c, Category.sortOrder c))
      <$> docs = default_set_spec
    ∧ Forall (λ c, Category.isDefault c = true ∧ Category.userId c = 1%nat
                   ∧ Category.isActive c = true ∧ Category.taskCount c = 0) docs
    ∧ (∀ id, id ∉ ids → (createDefaults 1 0 ∅).2 !! id = (∅ : gmap oid Category.t) !! id)
    ∧ (∀ id c, (createDefaults 1 0 ∅).2 !! id = Some c →
               Category.userId c = 1%nat → id ∈ ids)
    ∧ (∀ now' body st,
         Mock.categories (Mock.register now' body st).2 = Mock.categories st).
Proof.
  apply (createDefaults_seeds_six 1 0 ∅).
  intros id c H. by rewrite lookup_empty in H.
Defined.

(** C9, counterexample: a second call of [createDefaults], right after the
    first one succeeded on an empty collection, is rejected. *)
Lemma createDefaults_twice_counterexample :
  (createDefaults 1 0 ∅).1 = Some [0; 1; 2; 3; 4; 5]%nat
  ∧ (createDefaults 1 7 (createDefaults 1 0 ∅).2).1 = None.
Proof. split; vm_compute; reflexivity. Qed.

(** Once a list of documents went in, a list that starts with a document
    of the same owner and name is rejected at once. *)
Lemma insertMany_again (d d' : Category.t) (docs docs' : list Category.t)
    (cs : gmap oid Category.t) (ids : list oid) :
  Category.userId d' = Category.userId d →
  Category.name d' = Category.name d →
  (insertMany (d :: docs) cs).1 = Some ids →
  insertMany (d' :: docs') (insertMany (d :: docs) cs).2
  = (None, (insertMany (d :: docs) cs).2).
Proof.
  intros Hu Hn. simpl.
  destruct (decide (index_conflict (new_id cs) (Category.userId d)
                                   (Category.name d) cs)) as [|_];
    [done |].
  simpl. intros _.
  pose proof (insertMany_keeps docs (<[new_id cs := d]> cs) (new_id cs) d
                (lookup_insert_eq _ _ _)) as Hkept.
  set (cs' := (insertMany docs (<[new_id cs := d]> cs)).2) in *.
  rewrite decide_True; [done |].
  apply index_conflict_iff. exists (new_id cs), d. repeat split; [done | | done..].
  intros Heq. rewrite Heq in Hkept. by rewrite new_id_fresh in Hkept.
Qed.

(** The first document whose owner and name a category already has stops
    [insertMany]: nothing is inserted when it is the first of the list, and
    the first of the list is inserted when it is the second. *)
Lemma insertMany_first_conflict (d : Category.t) (docs : list Category.t)
    (cs : gmap oid Category.t) (id : oid) (c : Category.t) :
  cs !! id = Some c → Category.userId c = Category.userId d →
  Category.name c = Category.name d →
  insertMany (d :: docs) cs = (None, cs).
Proof.
  intros Hc Hu Hn. simpl. rewrite decide_True; [done |].
  apply index_conflict_iff. exists id, c. split; [done |]. split; [| done].
  intros ->. by rewrite new_id_fresh in Hc.
Qed.

Lemma insertMany_second_conflict (d1 d2 : Category.t) (docs : list Category.t)
    (cs : gmap oid Category.t) (id : oid) (c : Category.t) :
  ¬ index_conflict (new_id cs) (Category.userId d1) (Category.name d1) cs →
  cs !! id = Some c → Category.userId c = Category.userId d2 →
  Category.name c = Category.name d2 →
  insertMany (d1 :: d2 :: docs) cs = (None, <[new_id cs := d1]> cs).
Proof.
  intros Hfree Hc Hu Hn.
  change (insertMany (d1 :: d2 :: docs) cs)
    with (let id1 := new_id cs in
          if decide (index_conflict id1 (Category.userId d1) (Category.name d1) cs)
          then (None, cs)
          else
            let r := insertMany (d2 :: docs) (<[id1 := d1]> cs) in
            (cons id1 <$> r.1, r.2)).
  cbv zeta. rewrite decide_False by done.
  assert (id ≠ new_id cs) as Hne by (intros ->; by rewrite new_id_fresh in Hc).
  by rewrite (insertMany_first_conflict d2 docs (<[new_id cs := d1]> cs) id c)
    by (by rewrite ?lookup_insert_ne).
Qed.

(** C9, amended: while a user owns a category named "Work", in particular
    right after [createDefaults] succeeded for the user, a call of
    [createDefaults] for the user leaves the collection of categories
    unchanged, and it is rejected: the first document of the set violates
    the unique index on the owner and the name.  The call is no silent
    no-op, and it changes the collection once "Work" is gone: for a user
    who owns no "Work" but a "Personal", it inserts a new "Work" and is
    rejected at "Personal". *)
Theorem createDefaults_again (uid : oid) (now now' : Z)
    (cs : gmap oid Category.t) :
  (∀ ids, (createDefaults uid now cs).1 = Some ids →
     createDefaults uid now' (createDefaults uid now cs).2
     = (None, (createDefaults uid now cs).2))
  ∧ ((∃ id c, cs !! id = Some c ∧ Category.userId c = uid
              ∧ Category.name c = "Work") →
     createDefaults uid now' cs = (None, cs))
  ∧ ((∀ id c, cs !! id = Some c → Category.userId c = uid →
              Category.name c ≠ "Work") →
     (∃ id c, cs !! id = Some c ∧ Category.userId c = uid
              ∧ Category.name c = "Personal") →
     createDefaults uid now' cs
     = (None,
        <[new_id cs := Category.of_seed uid now'
                         (Category.mkseed "Work" "#3b82f6" "briefcase" 1)]> cs)).
Proof.
  unfold createDefaults, Category.defaultCategories. rewrite !fmap_cons.
  split; [| split].
  - intros ids Hok. by eapply insertMany_again.
  - intros (id & c & Hc & Hu & Hn). by eapply insertMany_first_conflict.
  - intros Hnone (id & c & Hc & Hu & Hn).
    eapply insertMany_second_conflict; [| exact Hc | exact Hu | exact Hn].
    rewrite index_conflict_iff. intros (id' & c' & Hc' & _ & Hu' & Hn').
    by apply (Hnone id' c' Hc' Hu').
Qed.

(** C9 at work: user 1 is seeded twice, from the empty collection. *)
Lemma createDefaults_again_witness :
  createDefaults 1 7 (createDefaults 1 0 ∅).2 = (None, (createDefaults 1 0 ∅).2)
  ∧ createDefaults 1 7 renamed_defaults
    = (None,
       <[6%nat := Category.of_seed 1 7 (Category.mkseed "Work" "#3b82f6" "briefcase" 1)]>
         renamed_defaults)
  ∧ size renamed_defaults = 6%nat
  ∧ size (createDefaults 1 7 renamed_defaults).2 = 7%nat.
Proof.
  destruct (createDefaults_again 1 0 7 ∅) as [Hfirst _].
  destruct (createDefaults_again 1 0 7 renamed_defaults) as (_ & _ & Hrenamed).
  split; [apply (Hfirst [0; 1; 2; 3; 4; 5]%nat); vm_compute; reflexivity |].
  assert (new_id renamed_defaults = 6%nat) as Hnew by (vm_compute; reflexivity).
  rewrite Hnew in Hrenamed.
  assert (createDefaults 1 7 renamed_defaults
          = (None,
             <[6%nat := Category.of_seed 1 7
                          (Category.mkseed "Work" "#3b82f6" "briefcase" 1)]>
               renamed_defaults)) as Hcall.
  { apply Hrenamed.
    - intros id c Hc _. revert id c Hc.
      change (map_Forall (λ (_ : oid) (c : Category.t), Category.name c ≠ "Work")
                renamed_defaults).
      apply (bool_decide_unpack _). vm_compute. exact I.
    - exists 1%nat, (Category.of_seed 1 0 (Category.mkseed "Personal" "#10b981" "heart" 2)).
      split; [vm_compute; reflexivity | split; reflexivity]. }
  split; [exact Hcall |]. split; [vm_compute; reflexivity |].
  rewrite Hcall. vm_compute. reflexivity.
Defined.

(** * Properties of the routers *)

Lemma countDocuments_0 {A} (P : oid * A → Prop) `{∀ x, Decision (P x)}
    (m : gmap oid A) :
  countDocuments P m = 0%nat ↔ ∀ k x, m !! k = Some x → ¬ P (k, x).
Proof.
  unfold countDocuments. split.
  - intros Hlen%nil_length_inv k x Hk HP.
    apply (filter_nil_not_elem_of _ _ _ Hlen HP). by apply elem_of_map_to_list.
  - intros Hnone. destruct (filter P (map_to_list m)) as [|[k x] l] eqn:Hf; [done |].
    assert ((k, x) ∈ filter P (map_to_list m)) as Hin by (rewrite Hf; left).
    apply list_elem_of_filter in Hin as [HP Hin].
    apply elem_of_map_to_list in Hin. by destruct (Hnone k x Hin).
Qed.

Lemma pre_remove_unreferenced (id : oid) (now : Z) (ts : gmap oid Task.t) :
  countDocuments (refers_to id) ts = 0%nat → pre_remove id now ts = ts.
Proof.
  intros Hnone. apply map_eq. intros k. unfold pre_remove. rewrite lookup_fmap.
  destruct (ts !! k) as [t|] eqn:Hk; [| done]. simpl.
  rewrite decide_False; [done |].
  intros Hc. by apply (proj1 (countDocuments_0 _ _) Hnone k t Hk).
Qed.

(** C1, the failing input: user 7 creates the category "Errands", creates
    a task in it and renames the task with a body that carries no
    [categoryId].  The task still refers to the category, and the counter
    of the category is back to 0; a second such update brings it to -1. *)
Lemma taskCount_drifts :
  (∃ t, tasks drifted_store !! 0%nat = Some t
        ∧ Task.userId t = 7%nat ∧ Task.categoryId t = Some 0%nat)
  ∧ countDocuments (refers_to 0) (tasks drifted_store) = 1%nat
  ∧ (∃ c, categories drifted_store !! 0%nat = Some c
          ∧ Category.userId c = 7%nat ∧ Category.taskCount c = 0)
  ∧ (∃ c, categories (handle Regex.RegExp_i 7%nat 400
                        (PutTask 0%nat retitle_body) drifted_store).2 !! 0%nat
          = Some c
          ∧ Category.taskCount c = -1).
Proof.
  repeat split; try (eexists; repeat split); vm_compute; reflexivity.
Qed.

(** C3, counterexample: in the store that the three requests above leave,
    the category "Errands" is not a default category and its [taskCount]
    is 0, and its deletion fails with [CategoryInUse]. *)
Lemma delete_category_counterexample :
  (∃ c, categories drifted_store !! 0%nat = Some c
        ∧ Category.userId c = 7%nat
        ∧ Category.isDefault c = false
        ∧ Category.taskCount c = 0)
  ∧ delete_category 7%nat 400 0%nat drifted_store
    = (Fail (CategoryInUse 1), drifted_store).
Proof.
  split; [eexists; repeat split |]; vm_compute; reflexivity.
Qed.

(** C3, amended: the deletion of a category that its owner asks for, when
    the category is not a default one, is decided by the number of tasks
    that refer to the category, which the route counts; the stored
    [taskCount] is not read.  With at least one such task the deletion
    fails with [CategoryInUse] and the store is unchanged; with none it
    succeeds, the category is removed and every task is unchanged.  When
    the stored [taskCount] is that number, a positive [taskCount] makes
    the deletion fail and a [taskCount] of 0 makes it succeed. *)
Theorem delete_category_spec (actor : oid) (now : Z) (id : oid) (s : Store)
    (c : Category.t) :
  categories s !! id = Some c →
  Category.userId c = actor →
  Category.isDefault c = false →
  let n := countDocuments (refers_to id) (tasks s) in
  ((0 < n)%nat → delete_category actor now id s = (Fail (CategoryInUse n), s))
  ∧ (n = 0%nat →
       delete_category actor now id s
       = (Ok NoData, mkStore (tasks s) (delete id (categories s))))
  ∧ (Category.taskCount c = Z.of_nat n →
       (Category.taskCount c > 0 →
          delete_category actor now id s = (Fail (CategoryInUse n), s))
       ∧ (Category.taskCount c = 0 →
            delete_category actor now id s
            = (Ok NoData, mkStore (tasks s) (delete id (categories s))))).
Proof.
  intros Hc Hu Hd n.
  assert (findCategory id actor s = Some c) as Hfind.
  { unfold findCategory. rewrite Hc. by rewrite decide_True. }
  assert ((0 < n)%nat → delete_category actor now id s = (Fail (CategoryInUse n), s))
    as Hpos.
  { intros Hn. unfold delete_category. rewrite Hfind, Hd. fold n.
    by rewrite bool_decide_eq_true_2. }
  assert (n = 0%nat →
          delete_category actor now id s
          = (Ok NoData, mkStore (tasks s) (delete id (categories s)))) as Hzero.
  { intros Hn. unfold delete_category. rewrite Hfind, Hd. fold n.
    rewrite bool_decide_eq_false_2 by lia.
    by rewrite pre_remove_unreferenced. }
  split; [exact Hpos |]. split; [exact Hzero |].
  intros Heq. split; intros ?; [apply Hpos | apply Hzero]; lia.
Qed.

(** C3 at work: the category "Errands" of the store [drifted_store], to
    which one task refers. *)
Lemma delete_category_spec_witness :
  ((0 < countDocuments (refers_to 0) (tasks drifted_store))%nat →
     delete_category 7%nat 400 0%nat drifted_store
     = (Fail (CategoryInUse (countDocuments (refers_to 0) (tasks drifted_store))),
        drifted_store))
  ∧ (0 < countDocuments (refers_to 0) (tasks drifted_store))%nat.
Proof.
  split.
  - refine (proj1 (delete_category_spec 7%nat 400 0%nat drifted_store
                     (Category.mk "Errands" "#10b981" "tag" None 7%nat false true 0 0
                                  100 300) _ _ _));
      vm_compute; reflexivity.
  - vm_compute. lia.
Defined.

(** C7, the failing input: user 7 owns the category "R+D".  The creation
    of a category "r+d" by the same user succeeds, and the creation of a
    second category "R+D" fails with the status 500 of a server error, not
    with [DuplicateName]: the name goes into the regular expression as it
    is, so that [^R+D$] does not match the name "R+D". *)
Lemma duplicate_name_slips_through :
  (∃ c, categories rnd_store !! 0%nat = Some c
        ∧ Category.userId c = 7%nat ∧ Category.name c = "R+D")
  ∧ (∃ c, (handle Regex.RegExp_i 7%nat 200 (PostCategory (named "r+d")) rnd_store).1
          = Created (CategoryData 1 c)
          ∧ Category.userId c = 7%nat ∧ Category.name c = "r+d")
  ∧ (handle Regex.RegExp_i 7%nat 200 (PostCategory (named "R+D")) rnd_store)
    = (Fail ServerError, rnd_store)
  ∧ status_code ServerError = 500%nat
  ∧ (∃ test, Regex.RegExp_i "^R+D$" = Some test
             ∧ test "R+D" = false ∧ test "rrd" = true).
Proof.
  repeat split; try (eexists; repeat split); vm_compute; reflexivity.
Qed.

(** ** Collections that differ on the rows of one user only *)

Section AgreeOff.

Context {A : Type} (owner : A → oid) (actor : oid).

Lemma agree_off_refl (m : gmap oid A) : agree_off owner actor m m.
Proof. by intros k x _. Qed.

Lemma agree_off_trans (m1 m2 m3 : gmap oid A) :
  agree_off owner actor m1 m2 → agree_off owner actor m2 m3 →
  agree_off owner actor m1 m3.
Proof. intros H12 H23 k x Hx. by rewrite (H12 k x Hx), (H23 k x Hx). Qed.

Lemma agree_off_insert (m : gmap oid A) (k : oid) (x : A) :
  own_at owner actor m k → owner x = actor → agree_off owner actor m (<[k := x]> m).
Proof.
  intros Hown Hx k' x' Hx'. destruct (decide (k = k')) as [<-|Hne].
  - rewrite lookup_insert_eq. split.
    + intros Hk. exfalso. apply Hx'. by apply Hown.
    + intros [= <-]. by exfalso.
  - by rewrite lookup_insert_ne.
Qed.

Lemma agree_off_delete (m : gmap oid A) (k : oid) :
  own_at owner actor m k → agree_off owner actor m (delete k m).
Proof.
  intros Hown k' x' Hx'. destruct (decide (k = k')) as [<-|Hne].
  - rewrite lookup_delete_eq. split; [| done].
    intros Hk. exfalso. apply Hx'. by apply Hown.
  - by rewrite lookup_delete_ne.
Qed.

Lemma agree_off_alter (f : A → A) (m : gmap oid A) (k : oid) :
  own_at owner actor m k → (∀ y, owner (f y) = owner y) →
  agree_off owner actor m (alter f k m).
Proof.
  intros Hown Hf k' x' Hx'. destruct (decide (k = k')) as [<-|Hne].
  - rewrite lookup_alter_eq. destruct (m !! k) as [y|] eqn:Hk; simpl; [| done].
    split.
    + intros [= <-]. exfalso. apply Hx'. by apply Hown.
    + intros [= <-]. exfalso. apply Hx'. rewrite Hf. by apply Hown.
  - by rewrite lookup_alter_ne.
Qed.

Lemma own_at_alter (f : A → A) (m : gmap oid A) (k k' : oid) :
  own_at owner actor m k → (∀ y, owner (f y) = owner y) → own_at owner actor (alter f k' m) k.
Proof.
  intros Hown Hf y. destruct (decide (k' = k)) as [<-|Hne].
  - rewrite lookup_alter_eq. destruct (m !! k') as [z|] eqn:Hk; simpl; [| done].
    intros [= <-]. rewrite Hf. by apply Hown.
  - rewrite lookup_alter_ne by done. apply Hown.
Qed.

Lemma own_at_fresh (m : gmap oid A) : own_at owner actor m (new_id m).
Proof. intros y. by rewrite new_id_fresh. Qed.

End AgreeOff.

(** ** Referential integrity, step by step *)

Lemma cats_kept_refl (cs : gmap oid Category.t) : cats_kept cs cs.
Proof. intros k c Hk. eauto. Qed.

Lemma cats_kept_trans (cs1 cs2 cs3 : gmap oid Category.t) :
  cats_kept cs1 cs2 → cats_kept cs2 cs3 → cats_kept cs1 cs3.
Proof.
  intros H12 H23 k c Hk. destruct (H12 k c Hk) as (c2 & Hk2 & Hu2).
  destruct (H23 k c2 Hk2) as (c3 & Hk3 & Hu3). exists c3. split; congruence.
Qed.

Lemma cats_kept_inc (id : oid) (delta now : Z) (cs : gmap oid Category.t) :
  cats_kept cs (findByIdAndInc id delta now cs).
Proof.
  intros k c Hk. unfold findByIdAndInc. destruct (decide (id = k)) as [<-|Hne].
  - rewrite lookup_alter_eq, Hk. simpl. eauto.
  - rewrite lookup_alter_ne by done. eauto.
Qed.

Lemma cats_kept_insert (k : oid) (x : Category.t) (cs : gmap oid Category.t) :
  (∀ c, cs !! k = Some c → Category.userId x = Category.userId c) →
  cats_kept cs (<[k := x]> cs).
Proof.
  intros Hsame k' c Hk. destruct (decide (k = k')) as [<-|Hne].
  - rewrite lookup_insert_eq. eauto.
  - rewrite lookup_insert_ne by done. eauto.
Qed.

Lemma refs_ok_cats (ts : gmap oid Task.t) (cs cs' : gmap oid Category.t) :
  refs_ok ts cs → cats_kept cs cs' → refs_ok ts cs'.
Proof.
  intros Hok Hkept id t c Ht Hc.
  destruct (Hok id t c Ht Hc) as (cat & Hcat & Hu).
  destruct (Hkept c cat Hcat) as (cat' & Hcat' & Hu').
  exists cat'. split; congruence.
Qed.

Lemma refs_ok_insert (ts : gmap oid Task.t) (cs : gmap oid Category.t)
    (id : oid) (t : Task.t) :
  refs_ok ts cs →
  (∀ c, Task.categoryId t = Some c →
        ∃ cat, cs !! c = Some cat ∧ Category.userId cat = Task.userId t) →
  refs_ok (<[id := t]> ts) cs.
Proof.
  intros Hok Ht id' t' c. destruct (decide (id = id')) as [<-|Hne].
  - rewrite lookup_insert_eq. intros [= <-]. apply Ht.
  - rewrite lookup_insert_ne by done. apply Hok.
Qed.

Lemma refs_ok_delete (ts : gmap oid Task.t) (cs : gmap oid Category.t) (id : oid) :
  refs_ok ts cs → refs_ok (delete id ts) cs.
Proof.
  intros Hok id' t' c Ht. apply lookup_delete_Some in Ht as [_ Ht]. by eapply Hok.
Qed.

Lemma refs_ok_delete_category (ts : gmap oid Task.t) (cs : gmap oid Category.t)
    (id : oid) :
  refs_ok ts cs → countDocuments (refers_to id) ts = 0%nat →
  refs_ok ts (delete id cs).
Proof.
  intros Hok Hnone id' t c Ht Hc.
  destruct (Hok id' t c Ht Hc) as (cat & Hcat & Hu).
  exists cat. split; [| done]. rewrite lookup_delete_ne; [done |].
  intros <-. by apply (proj1 (countDocuments_0 _ _) Hnone id' t Ht).
Qed.

(** ** The lookups that the routes start with *)

Lemma findTask_Some (id actor : oid) (s : Store) (t : Task.t) :
  findTask id actor s = Some t ↔ tasks s !! id = Some t ∧ Task.userId t = actor.
Proof.
  unfold findTask. destruct (tasks s !! id) as [t'|]; [| by split; [| intros []]].
  destruct (decide (Task.userId t' = actor)) as [Hu|Hu]; split.
  - by intros [= <-].
  - by intros [[= <-] _].
  - done.
  - intros [[= <-] ?]. by destruct Hu.
Qed.

Lemma findCategory_Some (id actor : oid) (s : Store) (c : Category.t) :
  findCategory id actor s = Some c ↔
  categories s !! id = Some c ∧ Category.userId c = actor.
Proof.
  unfold findCategory. destruct (categories s !! id) as [c'|]; [| by split; [| intros []]].
  destruct (decide (Category.userId c' = actor)) as [Hu|Hu]; split.
  - by intros [= <-].
  - by intros [[= <-] _].
  - done.
  - intros [[= <-] ?]. by destruct Hu.
Qed.

Lemma findTask_foreign (id actor other : oid) (s : Store) :
  row_owner TaskRow id s = Some other → other ≠ actor →
  findTask id actor s = None
  ∧ findTask id actor (without_row TaskRow id s) = None.
Proof.
  unfold row_owner, findTask. simpl. rewrite lookup_delete_eq.
  destruct (tasks s !! id) as [t|]; simpl; [| done].
  intros [= <-] Hne. by rewrite decide_False.
Qed.

Lemma findCategory_foreign (id actor other : oid) (s : Store) :
  row_owner CategoryRow id s = Some other → other ≠ actor →
  findCategory id actor s = None
  ∧ findCategory id actor (without_row CategoryRow id s) = None.
Proof.
  unfold row_owner, findCategory. simpl. rewrite lookup_delete_eq.
  destruct (categories s !! id) as [c|]; simpl; [| done].
  intros [= <-] Hne. by rewrite decide_False.
Qed.

Lemma own_task (id actor : oid) (s : Store) (t : Task.t) :
  findTask id actor s = Some t → own_at Task.userId actor (tasks s) id.
Proof. intros [Ht Hu]%findTask_Some y Hy. congruence. Qed.

Lemma own_category (id actor : oid) (s : Store) (c : Category.t) :
  findCategory id actor s = Some c → own_at Category.userId actor (categories s) id.
Proof. intros [Hc Hu]%findCategory_Some y Hy. congruence. Qed.

Lemma agree_off_inc (actor id : oid) (delta now : Z) (cs : gmap oid Category.t) :
  own_at Category.userId actor cs id →
  agree_off Category.userId actor cs (findByIdAndInc id delta now cs).
Proof. intros Hown. by apply agree_off_alter. Qed.

Lemma own_at_inc (actor k id : oid) (delta now : Z) (cs : gmap oid Category.t) :
  own_at Category.userId actor cs k →
  own_at Category.userId actor (findByIdAndInc id delta now cs) k.
Proof. intros Hown. by apply own_at_alter. Qed.

Lemma populate_owned (actor : oid) (s : Store) (cs : gmap oid Category.t)
    (id : oid) (t : Task.t) :
  Task.userId t = actor →
  (∀ c, Task.categoryId t = Some c →
        ∃ cat, categories s !! c = Some cat ∧ Category.userId cat = actor) →
  view_owned actor s (populate cs id t).
Proof.
  intros Hu Hc. split; [done |]. unfold populate. simpl.
  intros c nm col. destruct (Task.categoryId t) as [c'|]; [| done].
  destruct (cs !! c'); [| done]. intros [= <- _ _]. by apply Hc.
Qed.

(** ** Every route stays within the rows of the actor *)

Lemma scoped_unchanged (actor : oid) (s : Store) (r : Reply) :
  refs_owned s → reply_rows_owned actor s r → scoped actor s (r, s).
Proof.
  intros Hrefs Hr. repeat split; try done; apply agree_off_refl.
Qed.

Lemma refs_owned_category (s : Store) (id : oid) (t : Task.t) (c : oid) :
  refs_owned s → tasks s !! id = Some t → Task.categoryId t = Some c →
  own_at Category.userId (Task.userId t) (categories s) c
  ∧ ∃ cat, categories s !! c = Some cat ∧ Category.userId cat = Task.userId t.
Proof.
  intros Hrefs Ht Hc. destruct (Hrefs id t c Ht Hc) as (cat & Hcat & Hu).
  split; [| eauto]. intros y Hy. congruence.
Qed.

Lemma post_task_scoped (actor : oid) (now : Z) (body : TaskBody) (s : Store) :
  refs_owned s → scoped actor s (post_task actor now body s).
Proof.
  intros Hrefs. unfold post_task.
  destruct (validateTask body) as [b|]; [| by apply scoped_unchanged].
  cbv zeta. destruct (b_categoryId b) as [c|] eqn:Hc.
  - case_bool_decide as Hfind; [by apply scoped_unchanged |].
    destruct (findCategory c actor s) as [cat|] eqn:Hcat; [clear Hfind | done].
    pose proof (own_category _ _ _ _ Hcat) as Hown.
    apply findCategory_Some in Hcat as [Hcat Hu].
    split; [| split]; simpl.
    + apply refs_ok_insert.
      * eapply refs_ok_cats; [exact Hrefs | apply cats_kept_inc].
      * simpl. intros c' [= <-].
        destruct (cats_kept_inc c 1 now (categories s) c cat Hcat) as (cat' & ? & ?).
        exists cat'. split; congruence.
    + split; simpl.
      * apply agree_off_insert; [apply own_at_fresh | done].
      * by apply agree_off_inc.
    + apply populate_owned; [done |]. simpl. intros c' [= <-]. eauto.
  - split; [| split]; simpl.
    + apply refs_ok_insert; [exact Hrefs | done].
    + split; simpl; [| apply agree_off_refl].
      apply agree_off_insert; [apply own_at_fresh | done].
    + by apply populate_owned.
Qed.

Lemma put_task_scoped (actor : oid) (now : Z) (id : oid) (body : TaskBody)
    (s : Store) :
  refs_owned s → scoped actor s (put_task actor now id body s).
Proof.
  intros Hrefs. unfold put_task.
  destruct (validateTask body) as [b|]; [| by apply scoped_unchanged].
  destruct (findTask id actor s) as [task|] eqn:Htask; [| by apply scoped_unchanged].
  pose proof (own_task _ _ _ _ Htask) as Hown.
  apply findTask_Some in Htask as [Htask Hu].
  cbv zeta. unfold strict_neq. cbn [andb].
  assert (∀ old, Task.categoryId task = Some old →
            own_at Category.userId actor (categories s) old
            ∧ ∃ cat, categories s !! old = Some cat ∧ Category.userId cat = actor)
    as Hold.
  { intros old Hc. rewrite <- Hu. by eapply refs_owned_category. }
  set (cs1 := match Task.categoryId task with
              | Some old => findByIdAndInc old (-1) now (categories s)
              | None => categories s
              end).
  assert (cats_kept (categories s) cs1
          ∧ agree_off Category.userId actor (categories s) cs1
          ∧ ∀ k, own_at Category.userId actor (categories s) k →
                 own_at Category.userId actor cs1 k) as (Hk1 & Ha1 & Ho1).
  { subst cs1. destruct (Task.categoryId task) as [old|] eqn:Hc.
    - destruct (Hold old eq_refl) as [Hoo _].
      split; [apply cats_kept_inc |]. split; [by apply agree_off_inc |].
      intros k Hk. by apply own_at_inc.
    - split; [apply cats_kept_refl |]. split; [apply agree_off_refl | done]. }
  destruct (b_categoryId b) as [c|] eqn:Hc.
  - case_bool_decide as Hfind; [by apply scoped_unchanged |].
    destruct (findCategory c actor s) as [cat|] eqn:Hcat; [clear Hfind | done].
    pose proof (own_category _ _ _ _ Hcat) as Hownc.
    apply findCategory_Some in Hcat as [Hcat Huc].
    assert (cats_kept (categories s) (findByIdAndInc c 1 now cs1)) as Hk2.
    { eapply cats_kept_trans; [exact Hk1 | apply cats_kept_inc]. }
    split; [| split]; simpl.
    + apply refs_ok_insert.
      * eapply refs_ok_cats; [exact Hrefs | exact Hk2].
      * unfold apply_task_update. rewrite Hc. simpl. intros c' [= <-].
        destruct (Hk2 c cat Hcat) as (cat' & ? & ?). exists cat'. split; congruence.
    + split; simpl.
      * apply agree_off_insert; [done |]. by unfold apply_task_update.
      * eapply agree_off_trans; [exact Ha1 |]. apply agree_off_inc. by apply Ho1.
    + apply populate_owned; [by unfold apply_task_update |].
      unfold apply_task_update. rewrite Hc. simpl. intros c' [= <-]. eauto.
  - split; [| split]; simpl.
    + apply refs_ok_insert.
      * eapply refs_ok_cats; [exact Hrefs | exact Hk1].
      * unfold apply_task_update. rewrite Hc. simpl. intros old Hold'.
        destruct (Hold old Hold') as [_ (cat & Hcat & Huc)].
        destruct (Hk1 old cat Hcat) as (cat' & ? & ?). exists cat'. split; congruence.
    + split; simpl; [| done].
      apply agree_off_insert; [done |]. by unfold apply_task_update.
    + apply populate_owned; [by unfold apply_task_update |].
      unfold apply_task_update. rewrite Hc. simpl. intros old Hold'.
      by destruct (Hold old Hold') as [_ ?].
Qed.

Lemma patch_task_complete_scoped (actor : oid) (now : Z) (id : oid) (s : Store) :
  refs_owned s → scoped actor s (patch_task_complete actor now id s).
Proof.
  intros Hrefs. unfold patch_task_complete.
  destruct (findTask id actor s) as [task|] eqn:Htask; [| by apply scoped_unchanged].
  pose proof (own_task _ _ _ _ Htask) as Hown.
  apply findTask_Some in Htask as [Htask Hu].
  cbv zeta.
  set (saved := Task.paths (Task.toggleComplete now (Task.mkdoc task None))).
  assert (Task.userId saved = actor ∧ Task.categoryId saved = Task.categoryId task)
    as [Hus Hcs].
  { subst saved. by rewrite toggleComplete_paths. }
  assert (∀ c, Task.categoryId saved = Some c →
            ∃ cat, categories s !! c = Some cat ∧ Category.userId cat = actor)
    as Hcat.
  { intros c Hc. rewrite Hcs in Hc. rewrite <- Hu.
    by destruct (refs_owned_category s id task c Hrefs Htask Hc). }
  split; [| split]; simpl.
  - apply refs_ok_insert; [exact Hrefs |]. rewrite Hus. exact Hcat.
  - split; simpl; [| apply agree_off_refl]. by apply agree_off_insert.
  - by apply populate_owned.
Qed.

Lemma delete_task_scoped (actor : oid) (now : Z) (id : oid) (s : Store) :
  refs_owned s → scoped actor s (delete_task actor now id s).
Proof.
  intros Hrefs. unfold delete_task.
  destruct (findTask id actor s) as [task|] eqn:Htask; [| by apply scoped_unchanged].
  pose proof (own_task _ _ _ _ Htask) as Hown.
  apply findTask_Some in Htask as [Htask Hu].
  cbv zeta. destruct (Task.categoryId task) as [c|] eqn:Hc.
  - destruct (refs_owned_category s id task c Hrefs Htask Hc) as [Hownc _].
    rewrite Hu in Hownc.
    split; [| split]; simpl; [| | done].
    + apply refs_ok_delete. eapply refs_ok_cats; [exact Hrefs | apply cats_kept_inc].
    + split; simpl; [by apply agree_off_delete | by apply agree_off_inc].
  - split; [| split]; simpl; [| | done].
    + by apply refs_ok_delete.
    + split; simpl; [by apply agree_off_delete | apply agree_off_refl].
Qed.

Lemma delete_category_scoped (actor : oid) (now : Z) (id : oid) (s : Store) :
  refs_owned s → scoped actor s (delete_category actor now id s).
Proof.
  intros Hrefs. unfold delete_category.
  destruct (findCategory id actor s) as [c|] eqn:Hcat; [| by apply scoped_unchanged].
  pose proof (own_category _ _ _ _ Hcat) as Hown.
  destruct (Category.isDefault c); [by apply scoped_unchanged |].
  cbv zeta. case_bool_decide as Hn; [by apply scoped_unchanged |].
  assert (countDocuments (refers_to id) (tasks s) = 0%nat) as Hnone by lia.
  rewrite pre_remove_unreferenced by done.
  split; [| split]; simpl; [| | done].
  - by apply refs_ok_delete_category.
  - split; simpl; [apply agree_off_refl | by apply agree_off_delete].
Qed.

Lemma patch_category_toggle_scoped (actor : oid) (now : Z) (id : oid) (s : Store) :
  refs_owned s → scoped actor s (patch_category_toggle actor now id s).
Proof.
  intros Hrefs. unfold patch_category_toggle.
  destruct (findCategory id actor s) as [c|] eqn:Hcat; [| by apply scoped_unchanged].
  pose proof (own_category _ _ _ _ Hcat) as Hown.
  apply findCategory_Some in Hcat as [Hcat Hu].
  split; [| split]; simpl; [| | done].
  - eapply refs_ok_cats; [exact Hrefs |]. apply cats_kept_insert.
    intros c'. rewrite Hcat. by intros [= <-].
  - split; simpl; [apply agree_off_refl | by apply agree_off_insert].
Qed.

Lemma patch_category_reorder_scoped (actor : oid) (now : Z) (id : oid)
    (sortOrder : option Z) (s : Store) :
  refs_owned s → scoped actor s (patch_category_reorder actor now id sortOrder s).
Proof.
  intros Hrefs. unfold patch_category_reorder.
  destruct sortOrder as [n|]; [| by apply scoped_unchanged].
  case_bool_decide; [by apply scoped_unchanged |].
  destruct (findCategory id actor s) as [c|] eqn:Hcat; [| by apply scoped_unchanged].
  pose proof (own_category _ _ _ _ Hcat) as Hown.
  apply findCategory_Some in Hcat as [Hcat Hu].
  cbv zeta.
  set (saved := if decide (Category.sortOrder c = to_Number n) then c
                else Category.set_updatedAt now
                       (Category.set_sortOrder (to_Number n) c)).
  assert (Category.userId saved = Category.userId c) as Hus.
  { subst saved. by case_decide. }
  split; [| split]; simpl; [| | congruence].
  - eapply refs_ok_cats; [exact Hrefs |]. apply cats_kept_insert.
    intros c'. rewrite Hcat. by intros [= <-].
  - split; simpl; [apply agree_off_refl |]. apply agree_off_insert; [done | congruence].
Qed.

Lemma sorted_owned {A} (R : A → A → Prop) `{∀ x y, Decision (R x y)}
    (P Q : A → Prop) `{∀ x, Decision (P x)} (l : list A) :
  (∀ x, P x → Q x) → Forall Q (merge_sort R (filter P l)).
Proof.
  intros HPQ. rewrite merge_sort_Permutation. apply Forall_forall.
  intros x [HP _]%list_elem_of_filter. by apply HPQ.
Qed.

Lemma get_category_scoped (actor id : oid) (s : Store) :
  refs_owned s → scoped actor s (get_category actor id s).
Proof.
  intros Hrefs. unfold get_category.
  destruct (findCategory id actor s) as [c|] eqn:Hcat; apply scoped_unchanged; try done.
  simpl. by apply findCategory_Some in Hcat as [_ ?].
Qed.

Lemma get_categories_scoped (actor : oid) (q : CategoryQuery) (s : Store) :
  refs_owned s → scoped actor s (get_categories actor q s).
Proof.
  intros Hrefs. apply scoped_unchanged; [done |]. simpl.
  apply sorted_owned. intros [k c]. unfold category_filter. simpl.
  intros Hf. apply andb_prop in Hf as [Hf _]. apply andb_prop in Hf as [Hf _].
  by apply bool_decide_eq_true in Hf.
Qed.

Lemma get_task_scoped (actor id : oid) (s : Store) :
  refs_owned s → scoped actor s (get_task actor id s).
Proof.
  intros Hrefs. unfold get_task.
  destruct (findTask id actor s) as [t|] eqn:Htask; apply scoped_unchanged; try done.
  simpl. apply findTask_Some in Htask as [Htask Hu].
  apply populate_owned; [done |]. intros c Hc. rewrite <- Hu.
  by destruct (refs_owned_category s id t c Hrefs Htask Hc).
Qed.

Lemma find_tasks_owned (q : TaskQuery) (actor : oid)
    (search : option (string → bool)) (s : Store) :
  refs_owned s → Forall (view_owned actor s) (find_tasks q actor search s).
Proof.
  intros Hrefs. unfold find_tasks. apply Forall_fmap.
  rewrite merge_sort_Permutation. apply Forall_forall.
  intros [k t] [Hf Hin]%list_elem_of_filter. simpl in *.
  apply elem_of_map_to_list in Hin.
  assert (Task.userId t = actor) as Hu.
  { unfold task_filter in Hf. repeat (apply andb_prop in Hf as [Hf _]).
    by apply bool_decide_eq_true in Hf. }
  apply populate_owned; [done |]. intros c Hc. rewrite <- Hu.
  by destruct (refs_owned_category s k t c Hrefs Hin Hc).
Qed.

Lemma get_category_stats_scoped (actor : oid) (s : Store) :
  refs_owned s → scoped actor s (get_category_stats actor s).
Proof.
  intros Hrefs. apply scoped_unchanged; [done |]. simpl.
  apply Forall_fmap, Forall_take.
  rewrite merge_sort_Permutation. apply Forall_forall.
  intros [k c] [[Hu _] Hin]%list_elem_of_filter. simpl in *.
  apply elem_of_map_to_list in Hin. eauto.
Qed.

Section RoutesFacts.

Variable RegExp_i : string → option (string → bool).

Lemma save_new_Some (c : Category.t) (cs cs' : gmap oid Category.t) (id : oid) :
  save_new RegExp_i c cs = Some (id, cs') →
  id = new_id cs ∧ cs' = <[new_id cs := c]> cs.
Proof.
  unfold save_new.
  destruct (findByNameAndUser RegExp_i (Category.name c) (Category.userId c) cs)
    as [[[id' c']|]|]; repeat case_decide; naive_solver.
Qed.

Lemma get_tasks_scoped (actor : oid) (q : TaskQuery) (s : Store) :
  refs_owned s → scoped actor s (get_tasks RegExp_i actor q s).
Proof.
  intros Hrefs. unfold get_tasks.
  destruct (q_search q) as [pat|]; [case_decide; [| destruct (RegExp_i pat)] |];
    apply scoped_unchanged; try done; simpl; by apply find_tasks_owned.
Qed.

Lemma post_category_scoped (actor : oid) (now : Z) (body : CategoryBody) (s : Store) :
  refs_owned s → scoped actor s (post_category RegExp_i actor now body s).
Proof.
  intros Hrefs. unfold post_category.
  destruct (validateCategory body) as [b|]; [| by apply scoped_unchanged].
  cbv zeta.
  destruct (findByNameAndUser RegExp_i (default "" (b_name b)) actor (categories s))
    as [[?|]|]; [by apply scoped_unchanged | | by apply scoped_unchanged].
  match goal with
  | |- context [save_new RegExp_i ?c ?cs] =>
      destruct (save_new RegExp_i c cs) as [[id cs']|] eqn:Hsave;
        [| by apply scoped_unchanged]
  end.
  apply save_new_Some in Hsave as [-> ->].
  split; [| split]; simpl; [| | done].
  - eapply refs_ok_cats; [exact Hrefs |]. apply cats_kept_insert.
    intros c'. by rewrite new_id_fresh.
  - split; simpl; [apply agree_off_refl |].
    apply agree_off_insert; [apply own_at_fresh | done].
Qed.

Lemma put_category_scoped (actor : oid) (now : Z) (id : oid) (body : CategoryBody)
    (s : Store) :
  refs_owned s → scoped actor s (put_category RegExp_i actor now id body s).
Proof.
  intros Hrefs. unfold put_category.
  destruct (validateCategory body) as [b|]; [| by apply scoped_unchanged].
  destruct (findCategory id actor s) as [c|] eqn:Hcat; [| by apply scoped_unchanged].
  pose proof (own_category _ _ _ _ Hcat) as Hown.
  apply findCategory_Some in Hcat as [Hcat Hu].
  cbv zeta.
  assert (scoped actor s
            (if decide (index_conflict id
                          (Category.userId (apply_category_update b now c))
                          (Category.name (apply_category_update b now c))
                          (categories s))
             then (Fail ServerError, s)
             else (Ok (CategoryData id (apply_category_update b now c)),
                   set_categories (<[id := apply_category_update b now c]> (categories s)) s)))
    as Hwrite.
  { case_decide; [by apply scoped_unchanged |].
    split; [| split]; simpl; [| | done].
    - eapply refs_ok_cats; [exact Hrefs |]. apply cats_kept_insert.
      intros c'. rewrite Hcat. by intros [= <-].
    - split; simpl; [apply agree_off_refl | by apply agree_off_insert]. }
  destruct (bool_decide (default "" (b_name b) ≠ "")
            && bool_decide (default "" (b_name b) ≠ Category.name c));
    [| exact Hwrite].
  destruct (findByNameAndUser RegExp_i (default "" (b_name b)) actor (categories s))
    as [[?|]|]; [by apply scoped_unchanged | exact Hwrite | by apply scoped_unchanged].
Qed.

(** Every request keeps the referential integrity, leaves the rows of the
    other users alone and answers with rows of the actor. *)
Lemma handle_scoped (actor : oid) (now : Z) (r : Request) (s : Store) :
  refs_owned s → scoped actor s (handle RegExp_i actor now r s).
Proof.
  intros Hrefs. destruct r; simpl.
  - by apply get_tasks_scoped.
  - by apply get_task_scoped.
  - by apply post_task_scoped.
  - by apply put_task_scoped.
  - by apply patch_task_complete_scoped.
  - by apply delete_task_scoped.
  - by apply scoped_unchanged.
  - by apply get_categories_scoped.
  - by apply get_category_scoped.
  - by apply post_category_scoped.
  - by apply put_category_scoped.
  - by apply delete_category_scoped.
  - by apply patch_category_toggle_scoped.
  - by apply patch_category_reorder_scoped.
  - by apply get_category_stats_scoped.
Qed.

(** A request that addresses a row of another user fails, as it does when
    the row does not exist, and changes nothing. *)
Lemma handle_foreign_target (actor : oid) (now : Z) (r : Request) (s : Store)
    (k : Kind) (id other : oid) :
  target r = Some (k, id) → row_owner k id s = Some other → other ≠ actor →
  handle RegExp_i actor now r s
  = (Fail (if validates r then NotFound k else ValidationError), s)
  ∧ (handle RegExp_i actor now r (without_row k id s)).1
    = (handle RegExp_i actor now r s).1.
Proof.
  intros Ht Ho Hne.
  destruct r; simpl in Ht; try discriminate; injection Ht as <- <-;
    cbn [handle validates];
    first [ destruct (findTask_foreign _ _ _ _ Ho Hne) as [Hf Hf']
          | destruct (findCategory_foreign _ _ _ _ Ho Hne) as [Hf Hf'] ].
  - unfold get_task. by rewrite Hf, Hf'.
  - unfold put_task. destruct (validateTask body) as [b|] eqn:Hv.
    + rewrite Hf, Hf'. by rewrite bool_decide_eq_true_2.
    + rewrite bool_decide_eq_false_2; [done |]. by intros [].
  - unfold patch_task_complete. by rewrite Hf, Hf'.
  - unfold delete_task. by rewrite Hf, Hf'.
  - unfold get_category. by rewrite Hf, Hf'.
  - unfold put_category. destruct (validateCategory body) as [b|] eqn:Hv.
    + rewrite Hf, Hf'. by rewrite bool_decide_eq_true_2.
    + rewrite bool_decide_eq_false_2; [done |]. by intros [].
  - unfold delete_category. by rewrite Hf, Hf'.
  - unfold patch_category_toggle. by rewrite Hf, Hf'.
  - unfold patch_category_reorder. destruct sortOrder as [n|]; [| done].
    repeat case_bool_decide; try lia; [done |]. by rewrite Hf, Hf'.
Qed.

End RoutesFacts.

Lemma refs_owned_empty : refs_owned empty_store.
Proof. intros id t c Ht. simpl in Ht. by rewrite lookup_empty in Ht. Qed.

(** Referential integrity holds in every store that requests produce from
    a store where it holds. *)
Lemma run_refs_owned (RegExp_i : string → option (string → bool))
    (rs : list (oid * Z * Request)) (s : Store) :
  refs_owned s → refs_owned (run RegExp_i rs s).
Proof.
  revert s. induction rs as [|[[actor now] r] rs IH]; intros s Hrefs; simpl; [done |].
  apply IH. by apply handle_scoped.
Qed.

(** C2, counterexample: the task 0 belongs to user 1; the update that user
    2 sends for it with a body that has no title fails with
    [ValidationError], status 400, not with [NotFound].  In the in-memory
    server, once a second user is registered, [DELETE /api/tasks/4]
    removes the task of user "1": the route takes no caller into
    account. *)
Lemma foreign_access_counterexample :
  row_owner TaskRow 0 one_task_store = Some 1%nat
  ∧ handle Regex.RegExp_i 2%nat 50 (PutTask 0%nat untitled_body) one_task_store
    = (Fail ValidationError, one_task_store)
  ∧ status_code ValidationError = 400%nat
  ∧ Fail ValidationError ≠ Fail (NotFound TaskRow)
  ∧ Mock.get welcome_task "userId" = Mock.VStr "1"
  ∧ Mock.tasks (Mock.register 1 register_body mock_demo).2 = [welcome_task]
  ∧ Mock.tasks (Mock.delete_task "4" (Mock.register 1 register_body mock_demo).2).2
    = []
  ∧ (Mock.delete_task "4" (Mock.register 1 register_body mock_demo).2).1
    = Mock.Success Mock.DNone "Task deleted successfully".
Proof.
  repeat split; try discriminate; vm_compute; reflexivity.
Qed.

(** ** The reads answer from the rows of the actor *)

(** A query that selects rows of [actor] only finds the same rows in two
    collections that hold the same rows of [actor]. *)
Lemma own_filter_Permutation {A} (owner : A → oid) (actor : oid)
    (P : oid * A → Prop) `{∀ x, Decision (P x)} (m m' : gmap oid A) :
  agree_on owner actor m m' → (∀ kv, P kv → owner kv.2 = actor) →
  filter P (map_to_list m) ≡ₚ filter P (map_to_list m').
Proof.
  intros Hag HP.
  apply NoDup_Permutation; [apply NoDup_filter, NoDup_map_to_list.. |].
  intros [k x]. rewrite !list_elem_of_filter, !elem_of_map_to_list.
  split; intros [HPx Hl]; (split; [done |]); by apply (Hag k x (HP _ HPx)).
Qed.

Lemma own_count {A} (owner : A → oid) (actor : oid)
    (P : oid * A → Prop) `{∀ x, Decision (P x)} (m m' : gmap oid A) :
  agree_on owner actor m m' → (∀ kv, P kv → owner kv.2 = actor) →
  countDocuments P m = countDocuments P m'.
Proof.
  intros Hag HP. unfold countDocuments. apply Permutation_length.
  by apply (own_filter_Permutation owner actor).
Qed.

Lemma own_populate (actor : oid) (s s' : Store) (id : oid) (t : Task.t) :
  refs_owned s → refs_owned s' → same_rows_of actor s s' →
  tasks s !! id = Some t → Task.userId t = actor →
  populate (categories s) id t = populate (categories s') id t.
Proof.
  intros Hr Hr' [Ht Hc] Hid Hu. unfold populate. f_equal.
  destruct (Task.categoryId t) as [c |] eqn:Ec; [| done].
  destruct (Hr id t c Hid Ec) as (cat & Hcat & Hucat).
  rewrite Hcat. rewrite Hu in Hucat.
  by rewrite (proj1 (Hc c cat Hucat) Hcat).
Qed.

Lemma own_findTask (actor id : oid) (s s' : Store) :
  same_rows_of actor s s' → findTask id actor s = findTask id actor s'.
Proof.
  intros [Ht _]. apply option_eq. intros t. rewrite !findTask_Some.
  split; intros [Hl Hu]; (split; [| done]); by apply (Ht id t Hu).
Qed.

Lemma own_findCategory (actor id : oid) (s s' : Store) :
  same_rows_of actor s s' → findCategory id actor s = findCategory id actor s'.
Proof.
  intros [_ Hc]. apply option_eq. intros c. rewrite !findCategory_Some.
  split; intros [Hl Hu]; (split; [| done]); by apply (Hc id c Hu).
Qed.

Lemma own_find_tasks (q : TaskQuery) (actor : oid)
    (search : option (string → bool)) (s s' : Store) :
  refs_owned s → refs_owned s' → same_rows_of actor s s' →
  find_tasks q actor search s ≡ₚ find_tasks q actor search s'.
Proof.
  intros Hr Hr' Hsame. unfold find_tasks.
  assert (∀ kv : oid * Task.t, task_filter q actor search kv.2 = true →
            Task.userId kv.2 = actor) as Hown.
  { intros kv Hf. unfold task_filter in Hf. rewrite !andb_true_iff in Hf.
    destruct Hf as [[[[[Hu _] _] _] _] _]. by apply bool_decide_eq_true in Hu. }
  set (found := merge_sort created_desc
                  (filter (λ kv : oid * Task.t, task_filter q actor search kv.2 = true)
                          (map_to_list (tasks s)))).
  assert ((λ kv : oid * Task.t, populate (categories s) kv.1 kv.2) <$> found
          = (λ kv : oid * Task.t, populate (categories s') kv.1 kv.2) <$> found)
    as ->.
  { apply list_fmap_ext. intros i [id t] Hi.
    apply list_elem_of_lookup_2 in Hi. unfold found in Hi.
    rewrite merge_sort_Permutation, list_elem_of_filter, elem_of_map_to_list in Hi.
    destruct Hi as [Hf Hl]. simpl.
    apply (own_populate actor s s' id t Hr Hr' Hsame Hl (Hown (id, t) Hf)). }
  apply fmap_Permutation. unfold found. rewrite !merge_sort_Permutation.
  apply (own_filter_Permutation Task.userId actor); [by destruct Hsame | done].
Qed.

(** A read of [actor] says the same in two stores that hold the same rows
    of [actor]. *)
Lemma handle_reads_own (RegExp_i : string → option (string → bool))
    (actor : oid) (now : Z) (r : Request) (s s' : Store) :
  refs_owned s → refs_owned s' → same_rows_of actor s s' → reads_only r = true →
  same_answer (handle RegExp_i actor now r s).1 (handle RegExp_i actor now r s').1.
Proof.
  intros Hr Hr' Hsame Hread. pose proof Hsame as [Hts Hcs].
  destruct r as [q | id | | | | | | q | id | | | | | |]; try discriminate;
    cbn [handle].
  - unfold get_tasks. destruct (q_search q) as [pat |].
    + destruct (decide (pat = "")); [by apply own_find_tasks |].
      destruct (RegExp_i pat); [by apply own_find_tasks | done].
    + by apply own_find_tasks.
  - unfold get_task. rewrite <- (own_findTask actor id s s' Hsame).
    destruct (findTask id actor s) as [t |] eqn:Ht; [| done].
    apply findTask_Some in Ht as [Ht Hu]. simpl.
    by rewrite (own_populate actor s s' id t Hr Hr' Hsame Ht Hu).
  - unfold get_task_stats. cbn [fst same_answer]. f_equal. f_equal.
    f_equal; (apply (own_count Task.userId actor); [done | by intros kv [? _]]).
  - simpl. rewrite !merge_sort_Permutation.
    apply (own_filter_Permutation Category.userId actor); [done |].
    intros kv Hf. unfold category_filter in Hf. rewrite !andb_true_iff in Hf.
    destruct Hf as [[Hu _] _]. by apply bool_decide_eq_true in Hu.
  - unfold get_category. rewrite <- (own_findCategory actor id s s' Hsame).
    by destruct (findCategory id actor s).
  - unfold get_category_stats.
    cbn [fst same_answer cs_total cs_active cs_default cs_withTasks cs_topCategories].
    do 4 (split; [apply (own_count Category.userId actor);
                  [done | by intros kv [? _]] |]).
    rewrite <- !list_fmap_compose, !fmap_take. f_equal.
    assert (Transitive (λ a b : Z, b ≤ a)) as Htrans by (intros a b c; lia).
    assert (AntiSymm (=) (λ a b : Z, b ≤ a)) as Hanti by (intros a b; lia).
    apply (Sorted_unique (λ a b : Z, b ≤ a)).
    + apply (Sorted_fmap _ taskCount_desc); [by intros [? ?] [? ?] |].
      apply Sorted_merge_sort, _.
    + apply (Sorted_fmap _ taskCount_desc); [by intros [? ?] [? ?] |].
      apply Sorted_merge_sort, _.
    + apply fmap_Permutation. rewrite !merge_sort_Permutation.
      apply (own_filter_Permutation Category.userId actor); [done |].
      by intros kv [? _].
Qed.

(** The overview of user 1 does not count a task that user 2 adds. *)
Example overview_counts_own_tasks :
  (handle Regex.RegExp_i 1%nat 50 GetTaskStats one_task_store).1
  = (handle Regex.RegExp_i 1%nat 50 GetTaskStats
       (set_tasks (<[1%nat := Task.mk "Call home" None false high None None 2%nat 9 9]>
                     (tasks one_task_store)) one_task_store)).1.
Proof.
  apply (handle_reads_own Regex.RegExp_i 1%nat 50 GetTaskStats); [| | | done];
    unfold one_task_store; simpl.
  - intros id t c Ht Hc. simpl in Ht.
    apply lookup_singleton_Some in Ht as [_ <-]. discriminate.
  - intros id t c Ht Hc. simpl in Ht.
    apply lookup_insert_Some in Ht as [[_ <-] | [_ Ht]]; [discriminate |].
    apply lookup_singleton_Some in Ht as [_ <-]. discriminate.
  - split; [| done]. intros k x Hx. simpl.
    destruct (decide (k = 1%nat)) as [-> | Hk].
    + split; intros Hl; [by apply lookup_singleton_Some in Hl as [? _] |].
      apply lookup_insert_Some in Hl as [[_ <-] | [? _]]; done.
    + split; intros Hl.
      * apply lookup_insert_Some. right. by split.
      * by apply lookup_insert_Some in Hl as [[? _] | [_ ?]].
Qed.

(** C2, amended: in the task and category routers, in a store where the
    category of every task is a category of the owner of the task, a
    request of [actor] leaves that so, changes no row of another user and
    answers with rows of [actor] only; and a request that addresses by its
    identifier a task or a category of another user changes nothing and
    fails exactly as it does when the row does not exist: with [NotFound]
    when its body passes the validation of the route, with
    [ValidationError] when it does not.  The in-memory server has no such
    scoping: its deletion removes the first task that has the identifier,
    whoever owns it.  The six reads, the two overviews among them, answer
    from the rows of [actor] alone: in two such stores that hold the same
    tasks and categories of [actor], whatever the other users own, a read
    gives the same failure or row, the same rows, and the same numbers. *)
Theorem ownership_scoping (RegExp_i : string → option (string → bool))
    (actor : oid) (now : Z) (r : Request) (s : Store) :
  refs_owned s →
  refs_owned (handle RegExp_i actor now r s).2
  ∧ foreign_rows_kept actor s (handle RegExp_i actor now r s).2
  ∧ reply_rows_owned actor s (handle RegExp_i actor now r s).1
  ∧ (∀ k id other,
      target r = Some (k, id) → row_owner k id s = Some other → other ≠ actor →
      handle RegExp_i actor now r s
      = (Fail (if validates r then NotFound k else ValidationError), s)
      ∧ (handle RegExp_i actor now r (without_row k id s)).1
        = (handle RegExp_i actor now r s).1)
  ∧ (∀ (id' : string) (st : Mock.State) (i : nat) (task : Mock.Obj),
       Mock.find_by "id" (Mock.VStr id') (Mock.tasks st) = Some (i, task) →
       Mock.delete_task id' st
       = (Mock.Success Mock.DNone "Task deleted successfully",
          Mock.mkState (Mock.users st) (delete i (Mock.tasks st))
                       (Mock.categories st) (Mock.nextId st)))
  ∧ (∀ s', refs_owned s' → same_rows_of actor s s' → reads_only r = true →
       same_answer (handle RegExp_i actor now r s).1
                   (handle RegExp_i actor now r s').1).
Proof.
  intros Hrefs. destruct (handle_scoped RegExp_i actor now r s Hrefs) as (H1 & H2 & H3).
  split; [exact H1 |]. split; [exact H2 |]. split; [exact H3 |].
  split; [intros k id other; apply handle_foreign_target |].
  split; [intros id' st i task Hfind; unfold Mock.delete_task; by rewrite Hfind |].
  intros s' Hrefs' Hsame Hread. by apply handle_reads_own.
Qed.

(** C2 at work: user 2 asks for the deletion of the task of user 1. *)
Lemma ownership_scoping_witness :
  handle Regex.RegExp_i 2%nat 50 (DeleteTask 0%nat) one_task_store
  = (Fail (NotFound TaskRow), one_task_store)
  ∧ (handle Regex.RegExp_i 2%nat 50 (DeleteTask 0%nat)
       (without_row TaskRow 0%nat one_task_store)).1
    = (handle Regex.RegExp_i 2%nat 50 (DeleteTask 0%nat) one_task_store).1.
Proof.
  assert (refs_owned one_task_store) as Hrefs.
  { intros id t c Ht Hc. unfold one_task_store in Ht. simpl in Ht.
    apply lookup_singleton_Some in Ht as [_ <-]. discriminate. }
  destruct (ownership_scoping Regex.RegExp_i 2%nat 50 (DeleteTask 0%nat)
              one_task_store Hrefs) as (_ & _ & _ & Hforeign & _).
  apply (Hforeign TaskRow 0%nat 1%nat); [reflexivity | reflexivity | lia].
Defined.


(** ** The counter of a category and the tasks that refer to it *)

Section Counting.

Context {A : Type} (P : oid * A → Prop) `{∀ x, Decision (P x)}.

Lemma countDocuments_insert (m : gmap oid A) (k : oid) (x : A) :
  m !! k = None →
  countDocuments P (<[k := x]> m) = (one_if P (k, x) + countDocuments P m)%nat.
Proof.
  intros Hk. unfold countDocuments, one_if.
  rewrite (map_to_list_insert m k x Hk), filter_cons.
  by case_decide.
Qed.

Lemma countDocuments_delete (m : gmap oid A) (k : oid) (x : A) :
  m !! k = Some x →
  countDocuments P m = (one_if P (k, x) + countDocuments P (delete k m))%nat.
Proof.
  intros Hk. unfold countDocuments, one_if.
  rewrite <- (map_to_list_delete m k x Hk), filter_cons.
  by case_decide.
Qed.

Lemma countDocuments_replace (m : gmap oid A) (k : oid) (x y : A) :
  m !! k = Some x →
  (countDocuments P (<[k := y]> m) + one_if P (k, x)
   = one_if P (k, y) + countDocuments P m)%nat.
Proof.
  intros Hk. rewrite <- insert_delete_eq.
  rewrite countDocuments_insert by apply lookup_delete_eq.
  rewrite (countDocuments_delete m k x Hk). lia.
Qed.

End Counting.

Lemma one_if_refers (k : oid) (id : oid) (t : Task.t) :
  one_if (refers_to k) (id, t)
  = if decide (Task.categoryId t = Some k) then 1%nat else 0%nat.
Proof. reflexivity. Qed.

Lemma inc_lookup_Some (id k : oid) (delta now : Z) (cs : gmap oid Category.t)
    (c' : Category.t) :
  findByIdAndInc id delta now cs !! k = Some c' →
  ∃ c, cs !! k = Some c
       ∧ Category.taskCount c'
         = Category.taskCount c + (if decide (id = k) then delta else 0).
Proof.
  unfold findByIdAndInc. rewrite lookup_alter. case_decide as Hk.
  - subst k. destruct (cs !! id) as [c|]; simpl; [| done].
    intros [= <-]. exists c. split; [done |]. simpl. lia.
  - intros Hc. exists c'. split; [done | lia].
Qed.

Lemma unreferenced_without_category (s : Store) (k : oid) :
  refs_owned s → categories s !! k = None →
  countDocuments (refers_to k) (tasks s) = 0%nat.
Proof.
  intros Hrefs Hk. apply countDocuments_0. intros id t Ht Hc.
  destruct (Hrefs id t k Ht Hc) as (cat & Hcat & _). congruence.
Qed.

(** The counters stay exact when each category that the new store holds
    either was there, with a counter that moved as the number of its tasks
    did, or is new, with counter 0 and no task. *)
Lemma counts_exact_step (s : Store) (ts' : gmap oid Task.t)
    (cs' : gmap oid Category.t) :
  counts_exact s →
  (∀ k c', cs' !! k = Some c' →
     (∃ c, categories s !! k = Some c
           ∧ Category.taskCount c' - Category.taskCount c
             = Z.of_nat (countDocuments (refers_to k) ts')
               - Z.of_nat (countDocuments (refers_to k) (tasks s)))
     ∨ (Category.taskCount c' = 0
        ∧ countDocuments (refers_to k) ts' = 0%nat)) →
  counts_exact (mkStore ts' cs').
Proof.
  intros Hex Hstep k c' Hk. simpl in *.
  destruct (Hstep k c' Hk) as [(c & Hc & Hd) | [H0 Hn]].
  - specialize (Hex k c Hc). lia.
  - lia.
Qed.

Ltac count_cases :=
  rewrite ?one_if_refers in *; repeat case_decide; simplify_eq; try lia.

Lemma post_task_counts (actor : oid) (now : Z) (body : TaskBody) (s : Store) :
  counts_exact s → counts_exact (post_task actor now body s).2.
Proof.
  intros Hex. unfold post_task.
  destruct (validateTask body) as [b|]; [| done].
  cbv zeta. destruct (b_categoryId b) as [c|] eqn:Hc.
  - case_bool_decide as Hfind; [done |]. simpl.
    apply (counts_exact_step s); [done |]. intros k c' Hk. left.
    apply inc_lookup_Some in Hk as (c0 & Hc0 & Hcount). exists c0. split; [done |].
    rewrite countDocuments_insert by apply new_id_fresh.
    rewrite Hcount. rewrite one_if_refers. simpl. count_cases.
  - simpl. apply (counts_exact_step s); [done |]. intros k c' Hk. left.
    exists c'. split; [done |].
    rewrite countDocuments_insert by apply new_id_fresh.
    rewrite one_if_refers. simpl. lia.
Qed.

Lemma put_task_counts (actor : oid) (now : Z) (id : oid) (body : TaskBody)
    (s : Store) :
  counts_exact s → carries_category actor (PutTask id body) s →
  counts_exact (put_task actor now id body s).2.
Proof.
  intros Hex Hcarry. unfold put_task. simpl in Hcarry.
  destruct (validateTask body) as [b|]; [| done].
  destruct (findTask id actor s) as [task|] eqn:Htask; [| done].
  specialize (Hcarry b task eq_refl eq_refl).
  apply findTask_Some in Htask as [Htask Hu].
  cbv zeta. unfold strict_neq. cbn [andb].
  destruct (b_categoryId b) as [c|] eqn:Hc.
  - case_bool_decide as Hfind; [done |]. simpl.
    apply (counts_exact_step s); [done |]. intros k c' Hk. left.
    apply inc_lookup_Some in Hk as (c1 & Hc1 & Hcount1).
    pose proof (countDocuments_replace (refers_to k) (tasks s) id task
                  (apply_task_update b now task) Htask) as Hrep.
    rewrite !one_if_refers in Hrep.
    assert (Task.categoryId (apply_task_update b now task) = Some c) as Hnew.
    { unfold apply_task_update. by rewrite Hc. }
    rewrite Hnew in Hrep.
    destruct (Task.categoryId task) as [old|] eqn:Hold.
    + apply inc_lookup_Some in Hc1 as (c0 & Hc0 & Hcount0).
      exists c0. split; [done |]. count_cases.
    + exists c1. split; [done |]. count_cases.
  - rewrite (Hcarry eq_refl). simpl.
    apply (counts_exact_step s); [done |]. intros k c' Hk. left.
    exists c'. split; [done |].
    pose proof (countDocuments_replace (refers_to k) (tasks s) id task
                  (apply_task_update b now task) Htask) as Hrep.
    rewrite !one_if_refers in Hrep.
    assert (Task.categoryId (apply_task_update b now task) = None) as Hnew.
    { unfold apply_task_update. rewrite Hc. by apply Hcarry. }
    rewrite Hnew, (Hcarry eq_refl) in Hrep. count_cases.
Qed.

Lemma patch_task_complete_counts (actor : oid) (now : Z) (id : oid) (s : Store) :
  counts_exact s → counts_exact (patch_task_complete actor now id s).2.
Proof.
  intros Hex. unfold patch_task_complete.
  destruct (findTask id actor s) as [task|] eqn:Htask; [| done].
  apply findTask_Some in Htask as [Htask Hu].
  cbv zeta. simpl. destruct s as [ts cs]. simpl in *.
  apply (counts_exact_step (mkStore ts cs)); [done |]. intros k c' Hk. left.
  exists c'. split; [done |].
  match goal with
  | |- context [<[id := ?saved]> ts] =>
      pose proof (countDocuments_replace (refers_to k) ts id task saved Htask) as Hrep;
      assert (Task.categoryId saved = Task.categoryId task) as Hsame
  end.
  { by rewrite toggleComplete_paths. }
  rewrite !one_if_refers, Hsame in Hrep. simpl. lia.
Qed.

Lemma delete_task_counts (actor : oid) (now : Z) (id : oid) (s : Store) :
  counts_exact s → counts_exact (delete_task actor now id s).2.
Proof.
  intros Hex. unfold delete_task.
  destruct (findTask id actor s) as [task|] eqn:Htask; [| done].
  apply findTask_Some in Htask as [Htask Hu].
  cbv zeta. simpl.
  apply (counts_exact_step s); [done |]. intros k c' Hk. left.
  pose proof (countDocuments_delete (refers_to k) (tasks s) id task Htask) as Hdel.
  rewrite one_if_refers in Hdel.
  destruct (Task.categoryId task) as [c|] eqn:Hc.
  - apply inc_lookup_Some in Hk as (c0 & Hc0 & Hcount). exists c0.
    split; [done |]. count_cases.
  - exists c'. split; [done |]. count_cases.
Qed.

(** A route that leaves the tasks and the counter of every category it
    keeps as they are, and adds no category. *)
Lemma counts_exact_categories (s : Store) (cs' : gmap oid Category.t) :
  counts_exact s →
  (∀ k c', cs' !! k = Some c' →
     ∃ c, categories s !! k = Some c
          ∧ Category.taskCount c' = Category.taskCount c) →
  counts_exact (set_categories cs' s).
Proof.
  intros Hex Hsame. apply (counts_exact_step s); [done |]. intros k c' Hk. left.
  destruct (Hsame k c' Hk) as (c & Hc & Hcount). exists c. split; [done | lia].
Qed.

Lemma insert_same_count (cs : gmap oid Category.t) (id : oid) (c x : Category.t) :
  cs !! id = Some c → Category.taskCount x = Category.taskCount c →
  ∀ k c', <[id := x]> cs !! k = Some c' →
    ∃ c0, cs !! k = Some c0 ∧ Category.taskCount c' = Category.taskCount c0.
Proof.
  intros Hc Hx k c'. destruct (decide (id = k)) as [<-|Hne].
  - rewrite lookup_insert_eq. intros [= <-]. eauto.
  - rewrite lookup_insert_ne by done. eauto.
Qed.

Lemma delete_category_counts (actor : oid) (now : Z) (id : oid) (s : Store) :
  counts_exact s → counts_exact (delete_category actor now id s).2.
Proof.
  intros Hex. unfold delete_category.
  destruct (findCategory id actor s) as [c|]; [| done].
  destruct (Category.isDefault c); [done |].
  cbv zeta. case_bool_decide as Hn; [done |]. simpl.
  rewrite pre_remove_unreferenced by lia.
  apply (counts_exact_categories s); [done |]. intros k c' Hk.
  apply lookup_delete_Some in Hk as [_ Hk]. eauto.
Qed.

Lemma patch_category_toggle_counts (actor : oid) (now : Z) (id : oid) (s : Store) :
  counts_exact s → counts_exact (patch_category_toggle actor now id s).2.
Proof.
  intros Hex. unfold patch_category_toggle.
  destruct (findCategory id actor s) as [c|] eqn:Hcat; [| done].
  apply findCategory_Some in Hcat as [Hcat _]. simpl.
  apply (counts_exact_categories s); [done |]. by eapply insert_same_count.
Qed.

Lemma patch_category_reorder_counts (actor : oid) (now : Z) (id : oid)
    (sortOrder : option Z) (s : Store) :
  counts_exact s → counts_exact (patch_category_reorder actor now id sortOrder s).2.
Proof.
  intros Hex. unfold patch_category_reorder.
  destruct sortOrder as [n|]; [| done]. case_bool_decide; [done |].
  destruct (findCategory id actor s) as [c|] eqn:Hcat; [| done].
  apply findCategory_Some in Hcat as [Hcat _]. simpl.
  apply (counts_exact_categories s); [done |].
  eapply insert_same_count; [done |]. by case_decide.
Qed.

Section CountingRoutes.

Variable RegExp_i : string → option (string → bool).

Lemma post_category_counts (actor : oid) (now : Z) (body : CategoryBody) (s : Store) :
  refs_owned s → counts_exact s →
  counts_exact (post_category RegExp_i actor now body s).2.
Proof.
  intros Hrefs Hex. unfold post_category.
  destruct (validateCategory body) as [b|]; [| done].
  cbv zeta.
  destruct (findByNameAndUser RegExp_i (default "" (b_name b)) actor (categories s))
    as [[?|]|]; [done | | done].
  match goal with
  | |- context [save_new RegExp_i ?c ?cs] =>
      destruct (save_new RegExp_i c cs) as [[id cs']|] eqn:Hsave; [| done]
  end.
  apply save_new_Some in Hsave as [-> ->]. simpl.
  apply (counts_exact_step s); [done |]. intros k c' Hk.
  destruct (decide (new_id (categories s) = k)) as [<-|Hne].
  - right. rewrite lookup_insert_eq in Hk. injection Hk as <-.
    split; [done |]. apply unreferenced_without_category; [done |].
    apply new_id_fresh.
  - left. rewrite lookup_insert_ne in Hk by done. exists c'. split; [done | lia].
Qed.

Lemma put_category_counts (actor : oid) (now : Z) (id : oid) (body : CategoryBody)
    (s : Store) :
  counts_exact s → counts_exact (put_category RegExp_i actor now id body s).2.
Proof.
  intros Hex. unfold put_category.
  destruct (validateCategory body) as [b|]; [| done].
  destruct (findCategory id actor s) as [c|] eqn:Hcat; [| done].
  apply findCategory_Some in Hcat as [Hcat _].
  cbv zeta.
  assert (counts_exact
            (if decide (index_conflict id
                          (Category.userId (apply_category_update b now c))
                          (Category.name (apply_category_update b now c))
                          (categories s))
             then (Fail ServerError, s)
             else (Ok (CategoryData id (apply_category_update b now c)),
                   set_categories (<[id := apply_category_update b now c]> (categories s)) s)).2)
    as Hwrite.
  { case_decide; [done |]. simpl.
    apply (counts_exact_categories s); [done |]. by eapply insert_same_count. }
  destruct (bool_decide (default "" (b_name b) ≠ "")
            && bool_decide (default "" (b_name b) ≠ Category.name c));
    [| exact Hwrite].
  by destruct (findByNameAndUser RegExp_i (default "" (b_name b)) actor (categories s))
    as [[?|]|].
Qed.

(** Every request but the update of a categorized task by a body without
    [categoryId] keeps the counters exact. *)
Lemma handle_counts_exact (actor : oid) (now : Z) (r : Request) (s : Store) :
  refs_owned s → counts_exact s → carries_category actor r s →
  counts_exact (handle RegExp_i actor now r s).2.
Proof.
  intros Hrefs Hex Hcarry. destruct r; simpl.
  - unfold get_tasks. by repeat case_match.
  - unfold get_task. by case_match.
  - by apply post_task_counts.
  - by apply put_task_counts.
  - by apply patch_task_complete_counts.
  - by apply delete_task_counts.
  - done.
  - done.
  - unfold get_category. by case_match.
  - by apply post_category_counts.
  - by apply put_category_counts.
  - by apply delete_category_counts.
  - by apply patch_category_toggle_counts.
  - by apply patch_category_reorder_counts.
  - done.
Qed.

End CountingRoutes.

(** From a store with exact counters and referential integrity, a sequence
    of requests none of which updates a categorized task by a body without
    [categoryId] leaves every counter equal to the number of the tasks that
    refer to the category, hence not negative. *)
Lemma counts_exact_run (RegExp_i : string → option (string → bool))
    (rs : list (oid * Z * Request)) (s : Store) :
  refs_owned s → counts_exact s → all_carry RegExp_i rs s →
  counts_exact (run RegExp_i rs s)
  ∧ ∀ id c, categories (run RegExp_i rs s) !! id = Some c → 0 ≤ Category.taskCount c.
Proof.
  revert s. induction rs as [|[[actor now] r] rs IH]; intros s Hrefs Hex Hall; simpl.
  - split; [done |]. intros id c Hc. rewrite (Hex id c Hc). lia.
  - destruct Hall as [Hcarry Hall]. apply IH; [| | done].
    + by apply handle_scoped.
    + by apply handle_counts_exact.
Qed.

Lemma counts_exact_empty : counts_exact empty_store.
Proof. intros id c Hc. simpl in Hc. by rewrite lookup_empty in Hc. Qed.

(** The counter methods of the category model: [decrementTaskCount] stops
    at 0, [updateTaskCount] stores the number of the referring tasks. *)
Lemma decrementTaskCount_floor (c : Category.t) :
  0 ≤ Category.taskCount c →
  0 ≤ Category.taskCount (Category.decrementTaskCount c)
  ∧ (Category.taskCount c > 0 →
       Category.taskCount (Category.decrementTaskCount c) = Category.taskCount c - 1)
  ∧ (Category.taskCount c = 0 → Category.decrementTaskCount c = c).
Proof.
  intros Hc. unfold Category.decrementTaskCount.
  case_bool_decide; simpl; repeat split; lia.
Qed.

Lemma updateTaskCount_exact (ts : gmap oid Task.t) (id : oid) (c : Category.t) :
  Category.taskCount (updateTaskCount ts id c)
  = Z.of_nat (countDocuments (refers_to id) ts).
Proof. reflexivity. Qed.

Lemma incrementTaskCount_next (c : Category.t) :
  Category.taskCount (Category.incrementTaskCount c) = Category.taskCount c + 1.
Proof. reflexivity. Qed.

(** With two readings of the clock, the first decides "overdue" and the
    second "due-soon". *)
Lemma status_at_two_readings (now1 now2 : Z) (x : Task.t) :
  (Task.status_at now1 now2 x = "overdue" ↔
     Task.completed x = false ∧ ∃ d, Task.dueDate x = Some d ∧ d < now1)
  ∧ (Task.status_at now1 now2 x = "due-soon" ↔
       Task.completed x = false
       ∧ ∃ d, Task.dueDate x = Some d ∧ ¬ d < now1 ∧ d - now2 < day_ms).
Proof.
  unfold Task.status_at.
  destruct x as [ttl descr done prio cat due uid cr up]; simpl.
  destruct done; [| destruct due as [d|]]; repeat case_bool_decide;
    repeat split; try discriminate; try done;
    try (intros [? _]; discriminate);
    try (intros [_ (d' & [= <-] & ?)]; tauto);
    try (intros [_ (d' & ? & _)]; discriminate).
  all: by eauto.
Qed.

(** ** Category names without metacharacters *)

Lemma plain_not_meta (a : ascii) :
  Regex.is_meta a = false → Regex.atom_of a = Some (Regex.Lit a) ∧ Regex.quant_of a = None.
Proof.
  intros Ha. unfold Regex.atom_of, Regex.quant_of. rewrite Ha.
  repeat case_decide; subst; try done; by vm_compute in Ha.
Qed.

Lemma parse_plain (l : list ascii) :
  Forall (λ a, Regex.is_meta a = false) l →
  Regex.parse l = Some ((λ a, (Regex.Lit a, Regex.Once)) <$> l).
Proof.
  induction 1 as [|a l Ha Hl IH]; [done |].
  cbn [Regex.parse]. destruct (plain_not_meta a Ha) as [-> _].
  destruct l as [|q l']; [done |].
  apply Forall_cons in Hl as [Hq _]. destruct (plain_not_meta q Hq) as [_ ->].
  by rewrite IH.
Qed.

Lemma matches_literals (l s : list ascii) :
  Regex.matches ((λ a, (Regex.Lit a, Regex.Once)) <$> l) s
  = bool_decide (Regex.to_lower <$> s = Regex.to_lower <$> l).
Proof.
  revert s. induction l as [|a l IH]; intros [|c s]; simpl; try done.
  rewrite IH. unfold Regex.atom_matches. rewrite <- bool_decide_and.
  apply bool_decide_ext. split.
  - intros [Hac Hsl]. f_equal; [done | exact Hsl].
  - intros [= Hac Hsl]. split; [done | exact Hsl].
Qed.

Lemma list_ascii_of_string_app (a b : string) :
  String.list_ascii_of_string (a +:+ b)
  = String.list_ascii_of_string a ++ String.list_ascii_of_string b.
Proof. induction a as [|c a IH]; simpl; [done | by rewrite IH]. Qed.

(** On a name without metacharacters the expression [^name$] with the flag
    [i] is the comparison of the names without their case. *)
Lemma RegExp_i_plain (nm : string) :
  plain nm →
  ∃ test, Regex.RegExp_i ("^" +:+ nm +:+ "$") = Some test
          ∧ ∀ s, test s = bool_decide (lower s = lower nm).
Proof.
  intros Hplain. unfold Regex.RegExp_i.
  rewrite list_ascii_of_string_app, list_ascii_of_string_app.
  cbn [String.list_ascii_of_string app]. rewrite decide_True by done.
  rewrite reverse_snoc. rewrite decide_True by done.
  rewrite reverse_involutive, (parse_plain _ Hplain). simpl.
  eexists. split; [done |]. intros s. apply matches_literals.
Qed.

Section PlainNames.

Variable RegExp_i : string → option (string → bool).

(** The regular expressions of plain names do what they are meant to. *)
Hypothesis RegExp_i_plain_names :
  ∀ nm, plain nm →
    ∃ test, RegExp_i ("^" +:+ nm +:+ "$") = Some test
            ∧ ∀ s, test s = bool_decide (lower s = lower nm).

(** A second category of the same user under a name that differs by the
    case at most is refused with [DuplicateName]. *)
Lemma post_category_duplicate (actor : oid) (now : Z) (body b : CategoryBody)
    (nm : string) (s : Store) (id : oid) (c : Category.t) :
  validateCategory body = Some b → b_name b = Some nm → plain nm →
  categories s !! id = Some c → Category.userId c = actor →
  lower (Category.name c) = lower nm →
  post_category RegExp_i actor now body s = (Fail DuplicateName, s).
Proof.
  intros Hv Hnm Hplain Hc Hu Hsame. unfold post_category. rewrite Hv, Hnm. simpl.
  unfold findByNameAndUser.
  destruct (RegExp_i_plain_names nm Hplain) as (test & -> & Htest).
  match goal with
  | |- context [head (filter ?Q ?l)] =>
      assert ((id, c) ∈ filter Q l) as Hin
  end.
  { apply list_elem_of_filter. split; [| by apply elem_of_map_to_list].
    simpl. split; [| done]. rewrite Htest. by apply bool_decide_eq_true. }
  match goal with
  | |- context [head ?l] => destruct l as [|kv l']
  end; [by apply elem_of_nil in Hin | done].
Qed.

(** The creation of a category depends on the categories of the actor
    only: when none of them has the name, whatever the case, the category
    is created, at a new identifier, whatever the other users own. *)
Lemma post_category_independent (actor : oid) (now : Z) (body b : CategoryBody)
    (nm : string) (s : Store) :
  validateCategory body = Some b → b_name b = Some nm → plain nm →
  (∀ id c, categories s !! id = Some c → Category.userId c = actor →
           lower (Category.name c) ≠ lower nm) →
  ∃ c,
    post_category RegExp_i actor now body s
    = (Created (CategoryData (new_id (categories s)) c),
       set_categories (<[new_id (categories s) := c]> (categories s)) s)
    ∧ Category.name c = nm ∧ Category.userId c = actor
    ∧ Category.taskCount c = 0 ∧ Category.isDefault c = false.
Proof.
  intros Hv Hnm Hplain Hnone. unfold post_category. rewrite Hv, Hnm. simpl.
  assert (findByNameAndUser RegExp_i nm actor (categories s) = Some None) as Hfind.
  { unfold findByNameAndUser.
    destruct (RegExp_i_plain_names nm Hplain) as (test & -> & Htest).
    match goal with
    | |- context [head ?l] => destruct l as [|[id c] l'] eqn:Hl
    end; [done |].
    assert ((id, c) ∈ (id, c) :: l') as Hin by left.
    rewrite <- Hl in Hin. apply list_elem_of_filter in Hin as [[Ht Hu] Hin].
    apply elem_of_map_to_list in Hin. simpl in *.
    rewrite Htest in Ht. apply bool_decide_eq_true in Ht.
    by destruct (Hnone id c Hin Hu). }
  rewrite Hfind. unfold save_new. cbn [Category.name Category.userId].
  rewrite Hfind. rewrite decide_False.
  - eexists. split; [reflexivity | done].
  - rewrite index_conflict_iff. intros (id & c & Hc & _ & Hu & Hn).
    apply (Hnone id c Hc Hu). by rewrite Hn.
Qed.

End PlainNames.

(** The two lemmas above hold of the fragment of the regular expressions:
    user 7 owns "Errands"; "errands" is refused to user 7 and "Errands" is
    granted to user 8. *)
Lemma plain_names_example :
  handle Regex.RegExp_i 7%nat 200 (PostCategory (named "errands")) errands_store
  = (Fail DuplicateName, errands_store)
  ∧ ∃ c,
      (handle Regex.RegExp_i 8%nat 200 (PostCategory (named "Errands")) errands_store).1
      = Created (CategoryData 1 c)
      ∧ Category.name c = "Errands" ∧ Category.userId c = 8%nat.
Proof.
  split.
  - apply (post_category_duplicate Regex.RegExp_i RegExp_i_plain 7%nat 200
             (named "errands") (named "errands") "errands" errands_store 0%nat
             (Category.mk "Errands" "#10b981" "tag" None 7%nat false true 0 0 100 100));
      try (vm_compute; reflexivity).
    unfold plain. cbn [String.list_ascii_of_string].
    repeat (constructor; [vm_compute; reflexivity |]). constructor.
  - eexists. repeat split; vm_compute; reflexivity.
Qed.

(** * The completion of a task *)

(** The completion route of the in-memory server flips the truth value of
    [completed], stamps [updatedAt] and writes no other field: it keeps no
    [completedAt]. *)
Lemma mock_patch_task_complete_effect (now : Z) (id : string) (st : Mock.State)
    (i : nat) (task : Mock.Obj) :
  Mock.find_by "id" (Mock.VStr id) (Mock.tasks st) = Some (i, task) →
  ∃ task',
    Mock.tasks (Mock.patch_task_complete now id st).2 !! i = Some task'
    ∧ task' !! "completed"
      = Some (Mock.VBool (negb (Mock.truthy (Mock.get task "completed"))))
    ∧ task' !! "updatedAt" = Some (Mock.VDate now)
    ∧ ∀ k, k ≠ "completed" → k ≠ "updatedAt" → task' !! k = task !! k.
Proof.
  intros Hfind. pose proof (mock_find_by_Some _ _ _ _ _ Hfind) as [Hi _].
  unfold Mock.patch_task_complete. rewrite Hfind. cbn.
  eexists. split; [apply list_lookup_insert_eq; by eapply lookup_lt_Some |].
  split; [by rewrite lookup_insert_ne, lookup_insert_eq |].
  split; [by rewrite lookup_insert_eq |].
  intros k Hk1 Hk2. by rewrite !lookup_insert_ne.
Qed.

(** C4, counterexample: two applications of [toggleComplete] to a
    completed task give back [completed], but [completedAt] is the time of
    the second application, not the original one. *)
Lemma toggleComplete_twice_counterexample :
  Task.completedAt finished_doc = Some 5
  ∧ Task.completedAt (Task.toggleComplete 20 (Task.toggleComplete 10 finished_doc))
    = Some 20
  ∧ Task.toggleComplete 20 (Task.toggleComplete 10 finished_doc) ≠ finished_doc.
Proof. repeat split; discriminate. Qed.

(** C4, amended: one application of [toggleComplete] flips [completed],
    sets [completedAt] to the current time when the task becomes complete
    and clears it when the task becomes incomplete, and its [save] writes
    the current time as [updatedAt]; it changes no other path.  Two
    applications restore every path but [updatedAt], which is the time of
    the second application, and leave [completedAt] empty when the task
    was incomplete at the start and equal to the time of the second
    application when it was complete.  The completion route of the
    in-memory server flips the truth value of [completed] and stamps
    [updatedAt]; it writes no [completedAt]. *)
Theorem toggleComplete_spec (now1 now2 : Z) (d : Task.doc) :
  let d1 := Task.toggleComplete now1 d in
  let d2 := Task.toggleComplete now2 d1 in
  Task.paths d1
  = Task.set_updatedAt now1
      (Task.set_completed (negb (Task.completed (Task.paths d))) (Task.paths d))
  ∧ Task.completed (Task.paths d1) = negb (Task.completed (Task.paths d))
  ∧ Task.completedAt d1
    = (if Task.completed (Task.paths d) then None else Some now1)
  ∧ Task.paths d2 = Task.set_updatedAt now2 (Task.paths d)
  ∧ Task.completedAt d2
    = (if Task.completed (Task.paths d) then Some now2 else None)
  ∧ (d2 = d ↔
       Task.updatedAt (Task.paths d) = now2
       ∧ Task.completedAt d
         = if Task.completed (Task.paths d) then Some now2 else None)
  ∧ (∀ (id : string) (st : Mock.State) (i : nat) (task : Mock.Obj),
       Mock.find_by "id" (Mock.VStr id) (Mock.tasks st) = Some (i, task) →
       ∃ task',
         Mock.tasks (Mock.patch_task_complete now1 id st).2 !! i = Some task'
         ∧ task' !! "completed"
           = Some (Mock.VBool (negb (Mock.truthy (Mock.get task "completed"))))
         ∧ task' !! "updatedAt" = Some (Mock.VDate now1)
         ∧ ∀ k, k ≠ "completed" → k ≠ "updatedAt" → task' !! k = task !! k).
Proof.
  cbv zeta.
  assert (∀ now x, Task.completedAt (Task.toggleComplete now x)
                   = if Task.completed (Task.paths x) then None else Some now)
    as Hat.
  { intros now x. unfold Task.toggleComplete. simpl.
    by destruct (Task.completed (Task.paths x)). }
  assert (∀ x : Task.doc, x = Task.mkdoc (Task.paths x) (Task.completedAt x))
    as Heta by by intros [? ?].
  rewrite (Heta (Task.toggleComplete now2 (Task.toggleComplete now1 d))).
  rewrite !Hat, !toggleComplete_paths.
  destruct d as [[ttl descr done prio cat due uid cr up] at_].
  split; [reflexivity |]. split; [reflexivity |]. split; [reflexivity |].
  split; [by destruct done |]. split; [by destruct done |].
  split; [| intros; by apply mock_patch_task_complete_effect].
  destruct done; cbn; (split; [intros [= -> ->]; done | intros [-> ->]; done]).
Qed.

(** * Further properties of the routers *)

(** ** Creating, reading and deleting a task *)

(** X1: along every sequence of requests that starts in a database with
    referential integrity and exact counters, and in which no update of a
    categorized task comes without a [categoryId], the counter of every
    category stays equal to the number of the tasks that refer to it, it
    is never negative, and the referential integrity is kept. *)
Theorem counters_exact_along_requests (RegExp_i : string → option (string → bool))
    (rs : list (oid * Z * Request)) (s : Store) :
  refs_owned s → counts_exact s → all_carry RegExp_i rs s →
  refs_owned (run RegExp_i rs s)
  ∧ counts_exact (run RegExp_i rs s)
  ∧ ∀ id c, categories (run RegExp_i rs s) !! id = Some c →
      0 ≤ Category.taskCount c
      ∧ (Category.taskCount c = 0 ↔
           ∀ k t, tasks (run RegExp_i rs s) !! k = Some t →
                  Task.categoryId t ≠ Some id).
Proof.
  revert s. induction rs as [| [[actor now] r] rs IH]; intros s Hr Hc Ha.
  - simpl. split; [done |]. split; [done |]. intros id c Hl.
    rewrite (Hc id c Hl). split; [lia |].
    rewrite <- Nat2Z.inj_0, Nat2Z.inj_iff, countDocuments_0. done.
  - destruct Ha as [Ha1 Ha2]. simpl. apply IH; [| | done].
    + by apply handle_scoped.
    + by apply handle_counts_exact.
Qed.

(** X2: a task cannot be put into a category that does not exist or that
    belongs to another user: [POST /api/tasks], and [PUT /api/tasks/:id]
    on a task of the actor, fail with "Invalid category" and leave the
    database as it is. *)
Theorem task_category_must_be_own (actor : oid) (now : Z) (body b : TaskBody)
    (c : oid) (s : Store) :
  validateTask body = Some b → b_categoryId b = Some c →
  (∀ cat, categories s !! c = Some cat → Category.userId cat ≠ actor) →
  post_task actor now body s = (Fail InvalidCategory, s)
  ∧ ∀ id t, tasks s !! id = Some t → Task.userId t = actor →
      put_task actor now id body s = (Fail InvalidCategory, s).
Proof.
  intros Hv Hc Hforeign.
  assert (findCategory c actor s = None) as Hnone.
  { destruct (findCategory c actor s) as [cat |] eqn:E; [| done].
    apply findCategory_Some in E as [E1 E2]. by destruct (Hforeign cat E1). }
  split.
  - unfold post_task. rewrite Hv, Hc, Hnone. by rewrite bool_decide_eq_true_2.
  - intros id t Ht Hu. unfold put_task. rewrite Hv.
    rewrite (proj2 (findTask_Some id actor s t) (conj Ht Hu)).
    rewrite Hc, Hnone. by rewrite bool_decide_eq_true_2.
Qed.


(** X4: deleting a task right after its creation restores the tasks, and
    restores every category up to its [updatedAt]: the counter that the
    creation raised is lowered again. *)
Theorem post_then_delete_task (actor : oid) (now now' : Z) (body : TaskBody)
    (s : Store) (v : TaskView) :
  (post_task actor now body s).1 = Created (TaskData v) →
  let s1 := (post_task actor now body s).2 in
  let out := delete_task actor now' v.1.1 s1 in
  out.1 = Ok NoData
  ∧ tasks out.2 = tasks s
  ∧ ∀ k, Category.set_updatedAt 0 <$> categories out.2 !! k
         = Category.set_updatedAt 0 <$> categories s !! k.
Proof.
  unfold post_task. destruct (validateTask body) as [b |]; [| done].
  destruct (match b_categoryId b with Some _ => _ | None => _ end); [done |].
  simpl. intros [= <-]. simpl.
  unfold delete_task, findTask. simpl. rewrite lookup_insert_eq. simpl.
  rewrite decide_True by done. simpl.
  split; [done |]. split.
  - apply delete_insert_id, new_id_fresh.
  - intros k. destruct (b_categoryId b) as [c |]; [| done].
    unfold findByIdAndInc. destruct (decide (c = k)) as [-> | Hne].
    + rewrite !lookup_alter_eq. destruct (categories s !! k) as [cat |]; [| done].
      simpl. f_equal. destruct cat. unfold Category.set_updatedAt,
        Category.set_taskCount. simpl. f_equal. lia.
    + by rewrite !lookup_alter_ne.
Qed.

(** ** The lists of the routers *)

(** X5: [GET /api/categories] returns each category of the actor that
    passes the filters of the query exactly once, every category before
    all the categories with a larger [sortOrder], or the same [sortOrder]
    and a name that is not smaller. *)
Theorem get_categories_sorted (actor : oid) (q : CategoryQuery) (s : Store) :
  ∃ l, get_categories actor q s = (Ok (CategoryList l), s)
       ∧ StronglySorted by_sortOrder_name l
       ∧ NoDup l
       ∧ ∀ id c, (id, c) ∈ l ↔
           categories s !! id = Some c
           ∧ Category.userId c = actor
           ∧ (∀ v, q_isActive q = Some v →
                   Category.isActive c = bool_decide (v = "true"))
           ∧ (∀ v, q_isDefault q = Some v →
                   Category.isDefault c = bool_decide (v = "true")).
Proof.
  eexists. split; [reflexivity |].
  split; [apply StronglySorted_merge_sort; apply _ |].
  split.
  - rewrite merge_sort_Permutation. apply NoDup_filter, NoDup_map_to_list.
  - intros id c. rewrite merge_sort_Permutation, list_elem_of_filter, elem_of_map_to_list.
    simpl. unfold category_filter. rewrite !andb_true_iff, bool_decide_eq_true.
    split.
    + intros [[[Hu Ha] Hd] Hl]. split; [done |]. split; [done |]. split.
      * intros v Hv. rewrite Hv in Ha. by apply bool_decide_eq_true in Ha.
      * intros v Hv. rewrite Hv in Hd. by apply bool_decide_eq_true in Hd.
    + intros (Hl & Hu & Ha & Hd). split; [| done]. split; [split; [done |] |].
      * destruct (q_isActive q) as [v |]; [| done].
        apply bool_decide_eq_true. by apply Ha.
      * destruct (q_isDefault q) as [v |]; [| done].
        apply bool_decide_eq_true. by apply Hd.
Qed.

(** X6: the list of [GET /api/tasks] holds the tasks of the actor that
    pass the filter, each once and with its populated category, the newer
    before the older; the filter searches with the regular expression of
    the [search] string when the string is not empty, and a [search]
    string that is not a regular expression makes the route fail with a
    server error. *)
Theorem get_tasks_sorted (RegExp_i : string → option (string → bool))
    (actor : oid) (q : TaskQuery) (s : Store) :
  (∀ pat, q_search q = Some pat → pat ≠ "" → RegExp_i pat = None →
     get_tasks RegExp_i actor q s = (Fail ServerError, s))
  ∧ ∀ l, get_tasks RegExp_i actor q s = (Ok (TaskList l), s) →
      ∃ rows search,
        search = match q_search q with
                 | Some pat => if decide (pat = "") then None else RegExp_i pat
                 | None => None
                 end
        ∧ l = (λ kv : oid * Task.t, populate (categories s) kv.1 kv.2) <$> rows
        ∧ StronglySorted created_desc rows
        ∧ NoDup rows
        ∧ (∀ id t, (id, t) ∈ rows ↔
             tasks s !! id = Some t ∧ task_filter q actor search t = true)
        ∧ (∀ id t, (id, t) ∈ rows → Task.userId t = actor).
Proof.
  split.
  - intros pat Hp Hne Hre. unfold get_tasks. rewrite Hp.
    rewrite decide_False by done. by rewrite Hre.
  - intros l Hl.
    assert (∃ search,
              search = match q_search q with
                       | Some pat => if decide (pat = "") then None else RegExp_i pat
                       | None => None
                       end
              ∧ l = find_tasks q actor search s) as (search & Hsearch & ->).
    { unfold get_tasks in Hl. destruct (q_search q) as [pat |].
      - destruct (decide (pat = "")).
        + injection Hl as <-. by eexists.
        + destruct (RegExp_i pat); [| done]. injection Hl as <-. by eexists.
      - injection Hl as <-. by eexists. }
    eexists _, search. split; [exact Hsearch |]. split; [reflexivity |].
    split; [apply StronglySorted_merge_sort; apply _ |].
    split; [rewrite merge_sort_Permutation; apply NoDup_filter, NoDup_map_to_list |].
    assert (∀ id t, (id, t) ∈ merge_sort created_desc
              (filter (λ kv : oid * Task.t, task_filter q actor search kv.2 = true)
                      (map_to_list (tasks s)))
            ↔ tasks s !! id = Some t ∧ task_filter q actor search t = true) as Hin.
    { intros id t. rewrite merge_sort_Permutation, list_elem_of_filter,
        elem_of_map_to_list. simpl. tauto. }
    split; [exact Hin |].
    intros id t [_ Hf]%Hin. unfold task_filter in Hf.
    rewrite !andb_true_iff in Hf. destruct Hf as [[[[[Hu _] _] _] _] _].
    by apply bool_decide_eq_true in Hu.
Qed.

(** The largest [sortOrder] among the categories of a user. *)
Lemma foldr_max_bound (x : Z) (l : list Z) :
  foldr Z.max x l ∈ x :: l ∧ ∀ y, y ∈ x :: l → y ≤ foldr Z.max x l.
Proof.
  induction l as [| a l [IH1 IH2]]; simpl.
  - split; [left |]. intros y ->%list_elem_of_singleton. lia.
  - split.
    + destruct (Z.max_spec a (foldr Z.max x l)) as [[_ ->] | [_ ->]].
      * apply elem_of_cons in IH1 as [-> | IH1]; [left | right; by right].
      * right. left.
    + intros y Hy. assert (y = a ∨ y ∈ x :: l) as [-> | Hy'].
      { apply elem_of_cons in Hy as [-> | Hy]; [right; left |].
        apply elem_of_cons in Hy as [-> | Hy]; [by left | right; by right]. }
      * lia.
      * specialize (IH2 y Hy'). lia.
Qed.

Lemma last_sortOrder_spec (actor : oid) (cs : gmap oid Category.t) :
  match last_sortOrder actor cs with
  | Some n =>
      (∃ id c, cs !! id = Some c ∧ Category.userId c = actor
               ∧ Category.sortOrder c = n)
      ∧ ∀ id c, cs !! id = Some c → Category.userId c = actor →
                Category.sortOrder c ≤ n
  | None => ∀ id c, cs !! id = Some c → Category.userId c ≠ actor
  end.
Proof.
  unfold last_sortOrder.
  set (own := filter (λ kv : oid * Category.t, Category.userId kv.2 = actor)
                     (map_to_list cs)).
  assert (∀ id c, (id, c) ∈ own ↔ cs !! id = Some c ∧ Category.userId c = actor)
    as Hown.
  { intros id c. unfold own. rewrite list_elem_of_filter, elem_of_map_to_list.
    simpl. tauto. }
  destruct ((λ kv : oid * Category.t, Category.sortOrder kv.2) <$> own)
    as [| x l] eqn:E.
  - apply fmap_nil_inv in E. intros id c Hc Hu.
    assert ((id, c) ∈ own) as Hin by by apply Hown.
    rewrite E in Hin. by apply elem_of_nil in Hin.
  - destruct (foldr_max_bound x l) as [Hin Hmax]. split.
    + rewrite <- E in Hin. apply list_elem_of_fmap in Hin as ([id c] & Hn & Hin).
      apply Hown in Hin as [Hc Hu]. by exists id, c.
    + intros id c Hc Hu. apply Hmax. rewrite <- E.
      apply list_elem_of_fmap. exists (id, c). split; [done |]. by apply Hown.
Qed.

(** ** Categories *)

(** An integer that is at most [2^53] in absolute value is a [Number];
    the successor of [2^53] is not, and rounds to [2^53]. *)
Lemma to_Number_exact (z : Z) : Z.abs z ≤ 2 ^ 53 → to_Number z = z.
Proof.
  intros Hz. unfold to_Number. cbv zeta.
  destruct (Z.ltb_spec (Z.abs z) (2 ^ 53)) as [| Hge]; [done |].
  assert (Z.abs z = 2 ^ 53) as Habs by lia. rewrite Habs.
  change (Z.sgn z * 2 ^ 53 = z). lia.
Qed.

(** X7: a category created by [POST /api/categories] gets an identifier
    that no category had, belongs to the actor, is active and not a
    default and counts no task.  Its [sortOrder] is 0 when the actor had
    no category; it is larger than the [sortOrder] of every category that
    the actor had when these are below [2^53] in absolute value, so the
    new category sorts last; and it is [2^53] again, the [Number] that
    [2^53 + 1] rounds to, when the largest of them is [2^53]. *)
Theorem post_category_sorts_last (RegExp_i : string → option (string → bool))
    (actor : oid) (now : Z) (body : CategoryBody) (s : Store)
    (id : oid) (c : Category.t) :
  (post_category RegExp_i actor now body s).1 = Created (CategoryData id c) →
  categories s !! id = None
  ∧ categories (post_category RegExp_i actor now body s).2
    = <[id := c]> (categories s)
  ∧ tasks (post_category RegExp_i actor now body s).2 = tasks s
  ∧ Category.name c = trim (default "" (b_name body))
  ∧ Category.userId c = actor
  ∧ Category.isDefault c = false
  ∧ Category.isActive c = true
  ∧ Category.taskCount c = 0
  ∧ ((∀ id' c', categories s !! id' = Some c' → Category.userId c' = actor →
        Z.abs (Category.sortOrder c') < 2 ^ 53) →
     ∀ id' c', categories s !! id' = Some c' → Category.userId c' = actor →
       Category.sortOrder c' < Category.sortOrder c)
  ∧ ((∀ id' c', categories s !! id' = Some c' → Category.userId c' = actor →
        Category.sortOrder c' ≤ 2 ^ 53) →
     ∀ id' c', categories s !! id' = Some c' → Category.userId c' = actor →
       Category.sortOrder c' = 2 ^ 53 → Category.sortOrder c = 2 ^ 53)
  ∧ ((∀ id' c', categories s !! id' = Some c' → Category.userId c' ≠ actor) →
       Category.sortOrder c = 0).
Proof.
  unfold post_category, validateCategory.
  destruct (isLength 1 30 _ && _ && _ && _); [| done]. cbn [b_name default b_color
    b_icon b_cdescription].
  destruct (findByNameAndUser _ _ _ _) as [[? |] |]; [done | | done].
  destruct (save_new _ _ _) as [[id0 cs] |] eqn:Esave; [| done].
  apply save_new_Some in Esave as [-> ->]. simpl. intros [= <- <-]. simpl.
  split; [apply new_id_fresh |]. do 7 (split; [reflexivity |]).
  pose proof (last_sortOrder_spec actor (categories s)) as Hlast.
  destruct (last_sortOrder actor (categories s)) as [n |].
  - destruct Hlast as [(id1 & c1 & Hc1 & Hu1 & Hn) Hmax]. split; [| split].
    + intros Hsafe id' c' Hc' Hu'. specialize (Hmax id' c' Hc' Hu').
      specialize (Hsafe id1 c1 Hc1 Hu1). rewrite Hn in Hsafe.
      rewrite to_Number_exact by lia. lia.
    + intros Hle id' c' Hc' Hu' Htop. specialize (Hmax id' c' Hc' Hu').
      specialize (Hle id1 c1 Hc1 Hu1). rewrite Hn in Hle.
      assert (n = 2 ^ 53) as -> by lia. reflexivity.
    + intros Hnone. by destruct (Hnone id1 c1 Hc1).
  - split; [| split; [| done]].
    + intros _ id' c' Hc' Hu'. by destruct (Hlast id' c' Hc').
    + intros _ id' c' Hc' Hu'. by destruct (Hlast id' c' Hc').
Qed.

(** One request keeps every default category: it stays in the collection,
    a default, with its owner. *)
Lemma handle_keeps_default (RegExp_i : string → option (string → bool))
    (actor : oid) (now : Z) (r : Request) (s : Store) (id : oid) (c : Category.t) :
  categories s !! id = Some c → Category.isDefault c = true →
  ∃ c', categories (handle RegExp_i actor now r s).2 !! id = Some c'
        ∧ Category.isDefault c' = true
        ∧ Category.userId c' = Category.userId c.
Proof.
  intros Hc Hd.
  assert (∀ k delta t, ∃ c', findByIdAndInc k delta t (categories s) !! id = Some c'
            ∧ Category.isDefault c' = true
            ∧ Category.userId c' = Category.userId c) as Hinc.
  { intros k delta t. unfold findByIdAndInc. destruct (decide (k = id)) as [-> | Hne].
    - rewrite lookup_alter_eq, Hc. simpl. by eexists.
    - rewrite lookup_alter_ne by done. by eexists. }
  assert (∃ c', categories s !! id = Some c' ∧ Category.isDefault c' = true
                ∧ Category.userId c' = Category.userId c) as Hsame by by eexists.
  destruct r as [q | k | body | k body | k | k | | q | k | body | k body | k | k
                | k n |]; cbn [handle].
  - unfold get_tasks. repeat case_match; exact Hsame.
  - unfold get_task. repeat case_match; exact Hsame.
  - unfold post_task. destruct (validateTask body) as [b |]; [| exact Hsame].
    destruct (match b_categoryId b with Some _ => _ | None => _ end);
      [exact Hsame |]. simpl. destruct (b_categoryId b); [apply Hinc | exact Hsame].
  - unfold put_task. destruct (validateTask body) as [b |]; [| exact Hsame].
    destruct (findTask k actor s) as [t |]; [| exact Hsame].
    destruct (match b_categoryId b with Some _ => _ | None => _ end);
      [exact Hsame |]. unfold strict_neq. simpl.
    assert (∃ c1, match Task.categoryId t with
                  | Some old => findByIdAndInc old (-1) now (categories s)
                  | None => categories s
                  end !! id = Some c1
                  ∧ Category.isDefault c1 = true
                  ∧ Category.userId c1 = Category.userId c) as (c1 & Hc1 & Hd1 & Hu1).
    { destruct (Task.categoryId t); [apply Hinc | exact Hsame]. }
    destruct (b_categoryId b) as [new |]; [| by eexists].
    unfold findByIdAndInc at 1. destruct (decide (new = id)) as [-> | Hne].
    + rewrite lookup_alter_eq, Hc1. simpl. by eexists.
    + rewrite lookup_alter_ne by done. by eexists.
  - unfold patch_task_complete. destruct (findTask k actor s); exact Hsame.
  - unfold delete_task. destruct (findTask k actor s) as [t |]; [| exact Hsame].
    simpl. destruct (Task.categoryId t); [apply Hinc | exact Hsame].
  - exact Hsame.
  - exact Hsame.
  - unfold get_category. destruct (findCategory k actor s); exact Hsame.
  - unfold post_category. destruct (validateCategory body) as [b |]; [| exact Hsame].
    destruct (findByNameAndUser _ _ _ _) as [[? |] |]; [exact Hsame | | exact Hsame].
    destruct (save_new _ _ _) as [[id0 cs] |] eqn:Esave; [| exact Hsame].
    apply save_new_Some in Esave as [-> ->]. simpl.
    rewrite lookup_insert_ne; [exact Hsame |].
    intros Heq. pose proof (new_id_fresh (categories s)) as Hf.
    rewrite Heq in Hf. congruence.
  - unfold put_category. destruct (validateCategory body) as [b |]; [| exact Hsame].
    destruct (findCategory k actor s) as [cat |] eqn:Ecat; [| exact Hsame].
    apply findCategory_Some in Ecat as [Ecat Hu].
    assert (∃ c', categories
              (let updated := apply_category_update b now cat in
               if decide (index_conflict k (Category.userId updated)
                            (Category.name updated) (categories s))
               then (Fail ServerError, s)
               else (Ok (CategoryData k updated),
                     set_categories (<[k := updated]> (categories s)) s)).2 !! id
              = Some c'
            ∧ Category.isDefault c' = true
            ∧ Category.userId c' = Category.userId c) as Hwrite.
    { cbv zeta. destruct (decide (index_conflict _ _ _ _)); [exact Hsame |].
      simpl. destruct (decide (k = id)) as [-> | Hne].
      - rewrite lookup_insert_eq. rewrite Hc in Ecat. injection Ecat as <-.
        by eexists.
      - rewrite lookup_insert_ne by done. exact Hsame. }
    cbv zeta in Hwrite |- *.
    destruct (bool_decide _ && bool_decide _); [| exact Hwrite].
    destruct (findByNameAndUser _ _ _ _) as [[? |] |];
      [exact Hsame | exact Hwrite | exact Hsame].
  - unfold delete_category.
    destruct (findCategory k actor s) as [cat |] eqn:Ecat; [| exact Hsame].
    apply findCategory_Some in Ecat as [Ecat Hu].
    destruct (Category.isDefault cat) eqn:Edef; [exact Hsame |].
    destruct (bool_decide _); [exact Hsame |]. simpl.
    rewrite lookup_delete_ne; [exact Hsame |].
    intros ->. rewrite Hc in Ecat. injection Ecat as <-. congruence.
  - unfold patch_category_toggle.
    destruct (findCategory k actor s) as [cat |] eqn:Ecat; [| exact Hsame].
    apply findCategory_Some in Ecat as [Ecat Hu]. simpl.
    destruct (decide (k = id)) as [-> | Hne].
    + rewrite lookup_insert_eq. rewrite Hc in Ecat. injection Ecat as <-. by eexists.
    + rewrite lookup_insert_ne by done. exact Hsame.
  - unfold patch_category_reorder. destruct n as [n |]; [| exact Hsame].
    destruct (bool_decide (n < 0)); [exact Hsame |].
    destruct (findCategory k actor s) as [cat |] eqn:Ecat; [| exact Hsame].
    apply findCategory_Some in Ecat as [Ecat Hu]. simpl.
    destruct (decide (k = id)) as [-> | Hne].
    + rewrite lookup_insert_eq. rewrite Hc in Ecat. injection Ecat as <-.
      destruct (decide _); by eexists.
    + rewrite lookup_insert_ne by done. exact Hsame.
  - exact Hsame.
Qed.

(** X8: no sequence of requests, of whatever users, removes a default
    category, makes it a category that is not a default, or gives it to
    another user; and [DELETE /api/categories/:id] of a default category
    by its owner fails with "Cannot delete default categories". *)
Theorem default_categories_stay (RegExp_i : string → option (string → bool))
    (rs : list (oid * Z * Request)) (s : Store) (id : oid) (c : Category.t) :
  categories s !! id = Some c → Category.isDefault c = true →
  (∃ c', categories (run RegExp_i rs s) !! id = Some c'
         ∧ Category.isDefault c' = true
         ∧ Category.userId c' = Category.userId c)
  ∧ ∀ now, delete_category (Category.userId c) now id s
           = (Fail DefaultCategoryProtected, s).
Proof.
  intros Hc Hd. split.
  - revert s c Hc Hd. induction rs as [| [[actor now] r] rs IH]; intros s c Hc Hd.
    + by exists c.
    + simpl.
      destruct (handle_keeps_default RegExp_i actor now r s id c Hc Hd)
        as (c1 & Hc1 & Hd1 & Hu1).
      destruct (IH _ c1 Hc1 Hd1) as (c2 & Hc2 & Hd2 & Hu2).
      exists c2. split; [done |]. split; [done |]. congruence.
  - intros now. unfold delete_category.
    rewrite (proj2 (findCategory_Some id _ s c) (conj Hc eq_refl)). by rewrite Hd.
Qed.

(** X9: the two toggles undo themselves: [PATCH /api/categories/:id/toggle]
    twice, and [PATCH /api/tasks/:id/complete] twice, leave the row as it
    was but for [updatedAt], which is the time of the second request, and
    leave every other row as it was. *)
Theorem toggles_twice (actor : oid) (now1 now2 : Z) (id : oid) (s : Store) :
  (∀ c, categories s !! id = Some c → Category.userId c = actor →
     patch_category_toggle actor now2 id (patch_category_toggle actor now1 id s).2
     = (Ok (CategoryData id (Category.set_updatedAt now2 c)),
        set_categories (<[id := Category.set_updatedAt now2 c]> (categories s)) s))
  ∧ (∀ t, tasks s !! id = Some t → Task.userId t = actor →
     patch_task_complete actor now2 id (patch_task_complete actor now1 id s).2
     = (Ok (TaskData (populate (categories s) id (Task.set_updatedAt now2 t))),
        set_tasks (<[id := Task.set_updatedAt now2 t]> (tasks s)) s)).
Proof.
  split.
  - intros c Hc Hu. unfold patch_category_toggle at 2.
    rewrite (proj2 (findCategory_Some id actor s c) (conj Hc Hu)). simpl.
    unfold patch_category_toggle, findCategory. simpl. rewrite lookup_insert_eq.
    simpl. rewrite decide_True by done.
    unfold set_categories. simpl. rewrite insert_insert_eq.
    by destruct c as [? ? ? ? ? ? [] ? ? ? ?].
  - intros t Ht Hu.
    assert (∀ now (s0 : Store) x, tasks s0 !! id = Some x → Task.userId x = actor →
              patch_task_complete actor now id s0
              = (Ok (TaskData
                       (populate (categories s0) id
                          (Task.set_updatedAt now
                             (Task.set_completed (negb (Task.completed x)) x)))),
                 set_tasks
                   (<[id := Task.set_updatedAt now
                              (Task.set_completed (negb (Task.completed x)) x)]>
                      (tasks s0)) s0)) as Hstep.
    { intros now s0 x Hx Hux. unfold patch_task_complete.
      rewrite (proj2 (findTask_Some id actor s0 x) (conj Hx Hux)). cbv zeta.
      rewrite toggleComplete_paths. by destruct x. }
    rewrite (Hstep now1 s t Ht Hu). cbn [snd].
    erewrite Hstep; [| unfold set_tasks; simpl; apply lookup_insert_eq | done].
    unfold set_tasks. simpl. rewrite insert_insert_eq.
    by destruct t as [? ? [] ? ? ? ? ? ?].
Qed.

(** ** The two overviews *)

Lemma filter_length_le {A} (P Q : A → Prop) `{∀ x, Decision (P x)}
    `{∀ x, Decision (Q x)} (l : list A) :
  (∀ x, P x → Q x) → (length (filter P l) ≤ length (filter Q l))%nat.
Proof.
  intros HPQ. induction l as [| x l IH]; [done |].
  rewrite !filter_cons. destruct (decide (P x)) as [HP | HP].
  - rewrite decide_True by auto. simpl. lia.
  - destruct (decide (Q x)); simpl; lia.
Qed.

Lemma filter_length_split {A} (P Q R : A → Prop) `{∀ x, Decision (P x)}
    `{∀ x, Decision (Q x)} `{∀ x, Decision (R x)} (l : list A) :
  (∀ x, P x ↔ Q x ∨ R x) → (∀ x, Q x → R x → False) →
  length (filter P l) = (length (filter Q l) + length (filter R l))%nat.
Proof.
  intros HP Hdis. induction l as [| x l IH]; [done |].
  rewrite !filter_cons.
  destruct (decide (Q x)) as [HQ | HQ]; destruct (decide (R x)) as [HR | HR].
  - by destruct (Hdis x).
  - rewrite decide_True by (apply HP; by left). simpl. lia.
  - rewrite decide_True by (apply HP; by right). simpl. lia.
  - rewrite decide_False by (rewrite HP; tauto). lia.
Qed.

(** X10: in the overview of [GET /api/tasks/stats/overview] the total is
    the number of completed tasks plus the number of pending tasks, the
    overdue tasks and the pending tasks of high priority are among the
    pending ones, and only tasks of the actor count: the total is zero
    exactly when the actor has no task. *)
Theorem task_stats_consistent (actor : oid) (now : Z) (s : Store) :
  ∃ st, get_task_stats actor now s = (Ok (TaskStatsData st), s)
        ∧ ts_total st = (ts_completed st + ts_pending st)%nat
        ∧ (ts_overdue st ≤ ts_pending st)%nat
        ∧ (ts_highPriority st ≤ ts_pending st)%nat
        ∧ (ts_total st ≤ size (tasks s))%nat
        ∧ (ts_total st = 0%nat ↔
             ∀ id t, tasks s !! id = Some t → Task.userId t ≠ actor)
        ∧ (ts_overdue st = 0%nat ↔
             ∀ id t d, tasks s !! id = Some t → Task.userId t = actor →
                       Task.completed t = false → Task.dueDate t = Some d →
                       now ≤ d).
Proof.
  eexists. split; [reflexivity |]. cbn [ts_total ts_completed ts_pending
    ts_overdue ts_highPriority]. unfold countDocuments.
  split; [| split; [| split; [| split; [| split]]]].
  - apply filter_length_split.
    + intros [id t]. simpl. destruct (Task.completed t); simpl;
        (split; [intros [? _]; auto | intros [[? ?] | [? ?]]; done]).
    + intros [id t]. simpl. destruct (Task.completed t); simpl;
        intros [_ ?] [_ ?]; done.
  - apply filter_length_le. intros [id t]. simpl.
    rewrite andb_true_iff. tauto.
  - apply filter_length_le. intros [id t]. simpl.
    rewrite andb_true_iff. tauto.
  - rewrite <- (length_map_to_list (tasks s)). apply length_filter.
  - fold (countDocuments (λ kv : oid * Task.t,
            Task.userId kv.2 = actor ∧ true = true) (tasks s)).
    rewrite countDocuments_0. simpl. split.
    + intros Hno id t Ht Hu. by apply (Hno id t Ht).
    + intros Hno id t Ht [Hu _]. by apply (Hno id t Ht).
  - fold (countDocuments (λ kv : oid * Task.t,
            Task.userId kv.2 = actor
            ∧ negb (Task.completed kv.2)
              && match Task.dueDate kv.2 with
                 | Some d => bool_decide (d < now)
                 | None => false
                 end = true) (tasks s)).
    rewrite countDocuments_0. simpl. split.
    + intros Hno id t d Ht Hu Hc Hd. destruct (decide (now ≤ d)); [done |].
      destruct (Hno id t Ht). split; [done |]. rewrite Hc, Hd. simpl.
      apply bool_decide_eq_true. lia.
    + intros Hall id t Ht [Hu Hov]. apply andb_true_iff in Hov as [Hc Hd].
      apply negb_true_iff in Hc. destruct (Task.dueDate t) as [d |] eqn:Ed; [| done].
      apply bool_decide_eq_true in Hd. specialize (Hall id t d Ht Hu Hc Ed). lia.
Qed.

(** X11: the overview of [GET /api/categories/stats/overview] lists at
    most five categories, [min 5 withTasks] of them, all of the actor and
    all with a positive counter, the larger counters first; a category of
    the actor with tasks that the list leaves out has a counter that is
    not larger than any counter of the list; and the numbers of active
    categories, of defaults and of categories with tasks are at most the
    total. *)
Theorem category_stats_top_five (actor : oid) (s : Store) :
  ∃ st, get_category_stats actor s = (Ok (CategoryStatsData st), s)
        ∧ length (cs_topCategories st) = (5 `min` cs_withTasks st)%nat
        ∧ StronglySorted (λ x y : oid * string * string * Z, y.2 ≤ x.2)
                         (cs_topCategories st)
        ∧ (∀ row, row ∈ cs_topCategories st →
             0 < row.2
             ∧ ∃ c, categories s !! row.1.1.1 = Some c
                    ∧ Category.userId c = actor
                    ∧ row = (row.1.1.1, Category.name c, Category.color c,
                             Category.taskCount c))
        ∧ (∀ id c, categories s !! id = Some c → Category.userId c = actor →
             0 < Category.taskCount c →
             (id, Category.name c, Category.color c, Category.taskCount c)
               ∈ cs_topCategories st
             ∨ ∀ row, row ∈ cs_topCategories st → Category.taskCount c ≤ row.2)
        ∧ (cs_active st ≤ cs_total st)%nat
        ∧ (cs_default st ≤ cs_total st)%nat
        ∧ (cs_withTasks st ≤ cs_total st)%nat.
Proof.
  eexists. split; [reflexivity |]. cbn [cs_topCategories cs_withTasks cs_total
    cs_active cs_default].
  set (P := λ kv : oid * Category.t,
         Category.userId kv.2 = actor
         ∧ bool_decide (Category.taskCount kv.2 > 0) = true).
  set (L := merge_sort taskCount_desc (filter P (map_to_list (categories s)))).
  assert (StronglySorted taskCount_desc L) as Hsorted
    by (apply StronglySorted_merge_sort; apply _).
  assert (∀ id c, (id, c) ∈ L ↔
            categories s !! id = Some c ∧ Category.userId c = actor
            ∧ 0 < Category.taskCount c) as HL.
  { intros id c. unfold L. rewrite merge_sort_Permutation, list_elem_of_filter,
      elem_of_map_to_list. unfold P. simpl. rewrite bool_decide_eq_true.
    split; [intros [[? ?] ?] | intros (? & ? & ?)]; repeat split; try done; lia. }
  split; [| split; [| split; [| split]]].
  - rewrite length_fmap, length_take. unfold countDocuments. fold P.
    unfold L. by rewrite merge_sort_Permutation.
  - apply (StronglySorted_fmap _ taskCount_desc); [by intros [? ?] [? ?] |].
    rewrite <- (take_drop 5 L) in Hsorted.
    by apply StronglySorted_app_1_l in Hsorted.
  - intros row Hrow. apply list_elem_of_fmap in Hrow as ([id c] & -> & Hin).
    apply elem_of_take in Hin as (i & Hin & _).
    apply list_elem_of_lookup_2, HL in Hin as (Hc & Hu & Hpos). simpl.
    split; [done |]. by exists c.
  - intros id c Hc Hu Hpos.
    assert ((id, c) ∈ take 5 L ++ drop 5 L) as Hin
      by (rewrite take_drop; by apply HL).
    apply elem_of_app in Hin as [Hin | Hin].
    + left. apply list_elem_of_fmap. by exists (id, c).
    + right. intros row Hrow.
      apply list_elem_of_fmap in Hrow as ([id' c'] & -> & Hin').
      rewrite <- (take_drop 5 L) in Hsorted.
      apply (StronglySorted_app_1_elem_of _ _ _ _ _ Hsorted Hin' Hin).
  - unfold countDocuments. split; [| split]; apply filter_length_le;
      intros [id c]; simpl; intros [? _]; done.
Qed.

(** ** Updates *)

Lemma lower_nil (s : string) : lower s = [] → s = "".
Proof. by destruct s. Qed.

(** X12: [PUT /api/categories/:id] with a new name that a category of the
    actor already has, whatever the case of the letters, fails with
    "Category name already exists" and changes nothing, for names without
    metacharacters; the category that is renamed counts too, so that a
    name cannot be changed in the case of its letters only. *)
Theorem put_category_case_rename (RegExp_i : string → option (string → bool))
    (actor : oid) (now : Z) (id : oid) (body b : CategoryBody) (nm : string)
    (s : Store) (c : Category.t) (id' : oid) (c' : Category.t) :
  (∀ nm, plain nm →
     ∃ test, RegExp_i ("^" +:+ nm +:+ "$") = Some test
             ∧ ∀ s, test s = bool_decide (lower s = lower nm)) →
  validateCategory body = Some b → b_name b = Some nm → plain nm →
  categories s !! id = Some c → Category.userId c = actor →
  nm ≠ Category.name c →
  categories s !! id' = Some c' → Category.userId c' = actor →
  lower (Category.name c') = lower nm →
  put_category RegExp_i actor now id body s = (Fail DuplicateName, s).
Proof.
  intros Hre Hv Hnm Hplain Hc Hu Hne Hc' Hu' Hsame.
  assert (nm ≠ "") as Hnonempty.
  { intros ->. unfold validateCategory in Hv.
    destruct (isLength 1 30 (trim (default "" (b_name body)))) eqn:El;
      [| done].
    destruct (_ && _ && _) in Hv; [| done]. injection Hv as <-.
    simpl in Hnm. injection Hnm as Hnm. by rewrite Hnm in El. }
  unfold put_category. rewrite Hv.
  rewrite (proj2 (findCategory_Some id actor s c) (conj Hc Hu)).
  rewrite Hnm. cbn [from_option]. unfold Datatypes.id. cbv zeta.
  rewrite !bool_decide_eq_true_2 by done. cbn [andb].
  unfold findByNameAndUser.
  destruct (Hre nm Hplain) as (test & -> & Htest).
  match goal with
  | |- context [head (filter ?Q ?l)] =>
      assert ((id', c') ∈ filter Q l) as Hin
  end.
  { apply list_elem_of_filter. split; [| by apply elem_of_map_to_list].
    simpl. split; [| done]. rewrite Htest. by apply bool_decide_eq_true. }
  match goal with
  | |- context [head ?l] => destruct l as [| kv l']
  end; [by apply elem_of_nil in Hin | done].
Qed.

(** X13: an update that succeeds changes the addressed row only, and only
    in the fields that the body may carry: [PUT /api/categories/:id]
    keeps owner, [isDefault], [isActive], [taskCount], [sortOrder] and
    [createdAt] of the category and leaves the tasks alone;
    [PUT /api/tasks/:id] keeps owner, [completed] and [createdAt] of the
    task; both store the trimmed name or title of the body and the time of
    the request as [updatedAt]. *)
Theorem put_keeps_bookkeeping (RegExp_i : string → option (string → bool))
    (actor : oid) (now : Z) (id : oid) (s : Store) :
  (∀ body id' c',
     (put_category RegExp_i actor now id body s).1 = Ok (CategoryData id' c') →
     id' = id
     ∧ ∃ c, categories s !! id = Some c
         ∧ categories (put_category RegExp_i actor now id body s).2
           = <[id := c']> (categories s)
         ∧ tasks (put_category RegExp_i actor now id body s).2 = tasks s
         ∧ Category.name c' = trim (default "" (b_name body))
         ∧ Category.userId c' = actor ∧ Category.userId c = actor
         ∧ Category.isDefault c' = Category.isDefault c
         ∧ Category.isActive c' = Category.isActive c
         ∧ Category.taskCount c' = Category.taskCount c
         ∧ Category.sortOrder c' = Category.sortOrder c
         ∧ Category.createdAt c' = Category.createdAt c
         ∧ Category.updatedAt c' = now)
  ∧ (∀ body v,
       (put_task actor now id body s).1 = Ok (TaskData v) →
       v.1.1 = id
       ∧ ∃ t, tasks s !! id = Some t
           ∧ tasks (put_task actor now id body s).2 = <[id := v.1.2]> (tasks s)
           ∧ Task.title v.1.2 = trim (default "" (b_title body))
           ∧ Task.userId v.1.2 = actor ∧ Task.userId t = actor
           ∧ Task.completed v.1.2 = Task.completed t
           ∧ Task.createdAt v.1.2 = Task.createdAt t
           ∧ Task.updatedAt v.1.2 = now).
Proof.
  split.
  - intros body id' c'. unfold put_category, validateCategory.
    destruct (isLength 1 30 _ && _ && _ && _); [| done].
    destruct (findCategory id actor s) as [c |] eqn:Ec; [| done].
    apply findCategory_Some in Ec as [Ec Hu].
    cbn [b_name default b_color b_icon b_cdescription].
    assert (∀ out : Reply * Store,
              out = (let updated := apply_category_update
                        (mkCategoryBody (Some (trim (default "" (b_name body))))
                           (b_color body) (trim <$> b_cdescription body)
                           (trim <$> b_icon body)) now c in
                     if decide (index_conflict id (Category.userId updated)
                                  (Category.name updated) (categories s))
                     then (Fail ServerError, s)
                     else (Ok (CategoryData id updated),
                           set_categories (<[id := updated]> (categories s)) s)) →
              out.1 = Ok (CategoryData id' c') →
              id' = id
              ∧ ∃ c0, categories s !! id = Some c0
                  ∧ categories out.2 = <[id := c']> (categories s)
                  ∧ tasks out.2 = tasks s
                  ∧ Category.name c' = trim (default "" (b_name body))
                  ∧ Category.userId c' = actor ∧ Category.userId c0 = actor
                  ∧ Category.isDefault c' = Category.isDefault c0
                  ∧ Category.isActive c' = Category.isActive c0
                  ∧ Category.taskCount c' = Category.taskCount c0
                  ∧ Category.sortOrder c' = Category.sortOrder c0
                  ∧ Category.createdAt c' = Category.createdAt c0
                  ∧ Category.updatedAt c' = now) as Hwrite.
    { intros out ->. cbv zeta. destruct (decide (index_conflict _ _ _ _)); [done |].
      simpl. intros [= <- <-]. split; [done |]. exists c. by repeat split. }
    cbv zeta. destruct (bool_decide _ && bool_decide _).
    + destruct (findByNameAndUser _ _ _ _) as [[? |] |]; [done | | done].
      by apply Hwrite.
    + by apply Hwrite.
  - intros body v. unfold put_task, validateTask.
    destruct (isLength 1 100 _ && _); [| done].
    destruct (findTask id actor s) as [t |] eqn:Et; [| done].
    apply findTask_Some in Et as [Et Hu].
    cbn [b_categoryId b_title b_description b_priority b_dueDate].
    destruct (match b_categoryId body with Some _ => _ | None => _ end); [done |].
    simpl. intros [= <-]. simpl. split; [done |]. exists t. by repeat split.
Qed.

(** ** Instances *)

(** The four requests of [tidy_requests], from the empty database. *)
Lemma counters_exact_along_requests_witness :
  refs_owned (run Regex.RegExp_i tidy_requests empty_store)
  ∧ counts_exact (run Regex.RegExp_i tidy_requests empty_store)
  ∧ ∀ id c, categories (run Regex.RegExp_i tidy_requests empty_store) !! id = Some c →
      0 ≤ Category.taskCount c
      ∧ (Category.taskCount c = 0 ↔
           ∀ k t, tasks (run Regex.RegExp_i tidy_requests empty_store) !! k = Some t →
                  Task.categoryId t ≠ Some id).
Proof.
  apply counters_exact_along_requests;
    [apply refs_owned_empty | apply counts_exact_empty |].
  unfold tidy_requests. cbn [all_carry]. split; [exact I |]. split; [exact I |].
  split; [| split; exact I].
  intros b t Hv _ Hc. vm_compute in Hv. injection Hv as <-. discriminate Hc.
Defined.

(** User 8 asks for a task in the category of user 7. *)
Lemma task_category_must_be_own_witness :
  post_task 8%nat 200 milk_body errands_store = (Fail InvalidCategory, errands_store)
  ∧ ∀ id t, tasks errands_store !! id = Some t → Task.userId t = 8%nat →
      put_task 8%nat 200 id milk_body errands_store
      = (Fail InvalidCategory, errands_store).
Proof.
  apply (task_category_must_be_own 8%nat 200 milk_body milk_body 0%nat errands_store).
  - vm_compute. reflexivity.
  - reflexivity.
  - intros cat Hcat. vm_compute in Hcat. injection Hcat as <-. simpl. discriminate.
Defined.


(** User 7 creates a task in the category "Errands" and deletes it. *)
Lemma post_then_delete_task_witness :
  (delete_task 7%nat 500 0%nat (post_task 7%nat 200 milk_body errands_store).2).1
  = Ok NoData
  ∧ tasks (delete_task 7%nat 500 0%nat
             (post_task 7%nat 200 milk_body errands_store).2).2
    = tasks errands_store
  ∧ ∀ k, Category.set_updatedAt 0
           <$> categories (delete_task 7%nat 500 0%nat
                             (post_task 7%nat 200 milk_body errands_store).2).2 !! k
         = Category.set_updatedAt 0 <$> categories errands_store !! k.
Proof.
  apply (post_then_delete_task 7%nat 200 500 milk_body errands_store milk_view).
  vm_compute. reflexivity.
Defined.

(** User 7 creates a second category. *)
Lemma post_category_sorts_last_witness :
  ∃ c,
    (post_category Regex.RegExp_i 7%nat 200 (named "Garden") errands_store).1
    = Created (CategoryData 1%nat c)
    ∧ Category.sortOrder c = 1
    ∧ ∀ id' c', categories errands_store !! id' = Some c' →
        Category.userId c' = 7%nat →
        Category.sortOrder c' < Category.sortOrder c.
Proof.
  eexists. split; [vm_compute; reflexivity |]. split; [reflexivity |].
  eapply (post_category_sorts_last Regex.RegExp_i 7%nat 200 (named "Garden")
            errands_store 1%nat); [vm_compute; reflexivity |].
  intros id' c' Hc' _.
  assert (categories errands_store
          = {[ 0%nat := Category.mk "Errands" "#10b981" "tag" None 7%nat false true
                          0 0 100 100 ]}) as Hcs by (vm_compute; reflexivity).
  rewrite Hcs in Hc'. apply lookup_singleton_Some in Hc' as [_ <-].
  vm_compute. reflexivity.
Defined.

(** The default category "Work" of user 7 against four requests. *)
Lemma default_categories_stay_witness :
  (∃ c', categories (run Regex.RegExp_i default_requests seeded_store) !! 0%nat
         = Some c'
         ∧ Category.isDefault c' = true
         ∧ Category.userId c' = 7%nat)
  ∧ ∀ now, delete_category 7%nat now 0%nat seeded_store
           = (Fail DefaultCategoryProtected, seeded_store).
Proof.
  apply (default_categories_stay Regex.RegExp_i default_requests seeded_store
           0%nat work_category); reflexivity.
Defined.

(** User 7 tries to rename "Errands" to "errands". *)
Lemma put_category_case_rename_witness :
  put_category Regex.RegExp_i 7%nat 200 0%nat (named "errands") errands_store
  = (Fail DuplicateName, errands_store).
Proof.
  apply (put_category_case_rename Regex.RegExp_i 7%nat 200 0%nat
           (named "errands") (named "errands") "errands" errands_store
           (Category.mk "Errands" "#10b981" "tag" None 7%nat false true 0 0 100 100)
           0%nat
           (Category.mk "Errands" "#10b981" "tag" None 7%nat false true 0 0 100 100));
    try (vm_compute; reflexivity).
  - exact RegExp_i_plain.
  - unfold plain. cbn [String.list_ascii_of_string].
    repeat (constructor; [vm_compute; reflexivity |]). constructor.
  - discriminate.
Defined.

(** * Properties of the notes of a task *)

Lemma list_find_id_None (noteId : oid) (notes : list Note.t) :
  list_find (λ n, Note._id n = noteId) notes = None
  ↔ noteId ∉ (Note._id <$> notes).
Proof.
  rewrite list_find_None, Forall_forall, list_elem_of_fmap. split.
  - intros Hall (n & -> & Hin). by apply (Hall n Hin).
  - intros Hno n Hin Heq. apply Hno. by exists n.
Qed.

Lemma deleteNote_absent (id : oid) (notes : list Note.t) :
  id ∉ (Note._id <$> notes) → deleteNote (AsString id) notes = notes.
Proof.
  unfold deleteNote. induction notes as [| n notes IH]; [done |].
  rewrite fmap_cons, not_elem_of_cons. intros [Hne Hno].
  rewrite filter_cons_True by done. f_equal. by apply IH.
Qed.

(** X14: a note added by [addNote] comes last, with the content given and
    an identifier that no note of the task had.  [updateNote] with this
    identifier, as an [ObjectId] or as its string, rewrites this note and
    no other.  [deleteNote] with the string of the identifier gives back
    the notes as they were before the addition; [deleteNote] with the
    [ObjectId] itself removes nothing. *)
Theorem addNote_then_deleteNote (content : string) (now : Z) (notes : list Note.t) :
  ∃ note,
    addNote content now notes = notes ++ [note]
    ∧ Note.content note = content
    ∧ (Note._id note ∉ Note._id <$> notes)
    ∧ deleteNote (AsString (Note._id note)) (addNote content now notes) = notes
    ∧ deleteNote (AsObjectId (Note._id note)) (addNote content now notes)
      = notes ++ [note]
    ∧ ∀ noteId content' now',
        id_of noteId = Note._id note →
        updateNote noteId content' now' (addNote content now notes)
        = Some (notes ++ [Note.mk (Note._id note) content' (Note.createdAt note) now']).
Proof.
  eexists. split; [reflexivity |]. split; [reflexivity |].
  pose proof (infinite_is_fresh (Note._id <$> notes)) as Hfresh.
  split; [exact Hfresh |]. cbn [Note._id Note.createdAt]. split; [| split].
  - unfold addNote. unfold deleteNote at 1. rewrite filter_app.
    rewrite filter_cons_False by (cbn [Note._id]; tauto).
    rewrite filter_nil, app_nil_r. by apply deleteNote_absent.
  - reflexivity.
  - intros noteId content' now' Hid. unfold updateNote, addNote. rewrite Hid.
    rewrite list_find_app_r; [| by apply list_find_id_None].
    cbn [list_find Note._id]. rewrite decide_True by done.
    cbn [fmap option_fmap option_map prod_map fst snd Datatypes.id Note._id
         Note.createdAt].
    replace (0 + length notes)%nat with (length notes + 0)%nat by lia.
    by rewrite insert_app_r.
Qed.

(** X15: [updateNote] throws "Note not found" exactly when no note has the
    identifier that its argument stands for, whether the argument is an
    [ObjectId] or a string; when it succeeds it keeps the number, the
    order, the identifiers and the creation dates of the notes, and
    rewrites the first note with the identifier only.  [deleteNote] with
    the string of an identifier removes the notes with the identifier and
    no other note, and [updateNote] throws after it; [deleteNote] with an
    [ObjectId] removes no note, so that [updateNote] succeeds after it as
    it did before. *)
Theorem updateNote_spec (noteId : NoteId) (content : string) (now : Z)
    (notes : list Note.t) :
  (updateNote noteId content now notes = None
   ↔ id_of noteId ∉ (Note._id <$> notes))
  ∧ updateNote noteId content now (deleteNote (AsString (id_of noteId)) notes)
    = None
  ∧ (∀ note, note ∈ deleteNote (AsString (id_of noteId)) notes
             ↔ note ∈ notes ∧ Note._id note ≠ id_of noteId)
  ∧ deleteNote (AsObjectId (id_of noteId)) notes = notes
  ∧ updateNote noteId content now (deleteNote (AsObjectId (id_of noteId)) notes)
    = updateNote noteId content now notes
  ∧ ∀ notes', updateNote noteId content now notes = Some notes' →
      length notes' = length notes
      ∧ Note._id <$> notes' = Note._id <$> notes
      ∧ Note.createdAt <$> notes' = Note.createdAt <$> notes
      ∧ ∃ i note,
          notes !! i = Some note
          ∧ Note._id note = id_of noteId
          ∧ (∀ j other, (j < i)%nat → notes !! j = Some other →
                        Note._id other ≠ id_of noteId)
          ∧ notes' !! i
            = Some (Note.mk (id_of noteId) content (Note.createdAt note) now)
          ∧ ∀ j, j ≠ i → notes' !! j = notes !! j.
Proof.
  assert (∀ l, updateNote noteId content now l = None
               ↔ id_of noteId ∉ (Note._id <$> l)) as Hnone.
  { intros l. rewrite <- list_find_id_None. unfold updateNote.
    by destruct (list_find _ l) as [[i n] |]. }
  split; [apply Hnone |]. split; [| split; [| split; [| split]]].
  - apply Hnone. rewrite list_elem_of_fmap. intros (n & Heq & Hin).
    unfold deleteNote in Hin. apply list_elem_of_filter in Hin as [Hne _]. done.
  - intros note. unfold deleteNote. rewrite list_elem_of_filter. tauto.
  - reflexivity.
  - reflexivity.
  - intros notes'. unfold updateNote.
    destruct (list_find _ notes) as [[i note] |] eqn:Hfind; [| done].
    intros [= <-]. apply list_find_Some in Hfind as (Hi & Hid & Hfirst).
    split; [apply length_insert |].
    split; [rewrite list_fmap_insert; apply list_insert_id;
            by rewrite list_lookup_fmap, Hi |].
    split; [rewrite list_fmap_insert; apply list_insert_id;
            by rewrite list_lookup_fmap, Hi |].
    exists i, note. split; [done |]. split; [done |]. split.
    + intros j other Hj Hother. by apply (Hfirst j other).
    + split.
      * rewrite Hid. apply list_lookup_insert_eq. by apply lookup_lt_Some in Hi.
      * intros j Hj. by apply list_lookup_insert_ne.
Qed.

(** * Properties of the model statics *)

(** X16: [Task.findOverdue] returns each task of the user whose derived
    status at this instant is "overdue", once, and no other task; their
    number is the [overdue] of the overview of
    [GET /api/tasks/stats/overview]. *)
Theorem findOverdue_status (userId : oid) (now : Z) (s : Store) :
  NoDup (findOverdue userId now (tasks s))
  ∧ (∀ id t, (id, t) ∈ findOverdue userId now (tasks s) ↔
       tasks s !! id = Some t ∧ Task.userId t = userId
       ∧ Task.status now t = "overdue")
  ∧ ∃ st, get_task_stats userId now s = (Ok (TaskStatsData st), s)
          ∧ ts_overdue st = length (findOverdue userId now (tasks s)).
Proof.
  split; [apply NoDup_filter, NoDup_map_to_list |]. split.
  - intros id t. unfold findOverdue.
    rewrite list_elem_of_filter, elem_of_map_to_list. simpl.
    unfold Task.status, Task.status_at.
    destruct (Task.completed t); [split; [intros [(_ & ? & _) _] | intros (_ & _ & ?)];
                                  done |].
    destruct (Task.dueDate t) as [d |].
    + destruct (bool_decide (d < now)) eqn:E1.
      * split; [intros [(Hu & _ & _) Hl] | intros (Hl & Hu & _)]; done.
      * split; [intros [(_ & _ & ?) _]; done |].
        intros (_ & _ & Hst). by destruct (bool_decide (d - now < day_ms)).
    + split; [intros [(_ & _ & ?) _] | intros (_ & _ & ?)]; done.
  - eexists. split; [reflexivity |]. cbn [ts_overdue].
    unfold countDocuments, findOverdue. f_equal. apply list_filter_iff.
    intros [id t]. simpl. rewrite andb_true_iff, negb_true_iff. tauto.
Qed.

Lemma to_lower_idemp (a : ascii) : Regex.to_lower (Regex.to_lower a) = Regex.to_lower a.
Proof. destruct a as [[] [] [] [] [] [] [] []]; reflexivity. Qed.

Lemma toLowerCase_idemp (s : string) : toLowerCase (toLowerCase s) = toLowerCase s.
Proof. induction s as [| a s IH]; [done |]. simpl. by rewrite to_lower_idemp, IH. Qed.

(** X17: [User.findByUsername] lowers the case of the name it is given and
    compares it with the stored names as they are: the user it returns has
    a name without capital letters, so a user whose stored name has a
    capital letter is never returned, whatever the name asked for. *)
Theorem findByUsername_no_capitals (username : string) (us : gmap oid User.t)
    (id : oid) (u : User.t) :
  findByUsername username us = Some (id, u) →
  us !! id = Some u
  ∧ User.username u = toLowerCase username
  ∧ toLowerCase (User.username u) = User.username u.
Proof.
  unfold findByUsername. intros Hhead.
  assert ((id, u) ∈ filter (λ kv : oid * User.t,
                              User.username kv.2 = toLowerCase username)
                           (map_to_list us)) as Hin.
  { destruct (filter _ _) as [| kv l]; [done |]. injection Hhead as ->. left. }
  apply list_elem_of_filter in Hin as [Hname Hin]. apply elem_of_map_to_list in Hin.
  simpl in Hname. split; [done |]. split; [done |].
  rewrite Hname. apply toLowerCase_idemp.
Qed.

(** The user "ann" is found under "Ann". *)
Lemma findByUsername_no_capitals_witness :
  ({[ 3%nat := ann_lower ]} : gmap oid User.t) !! 3%nat = Some ann_lower
  ∧ User.username ann_lower = toLowerCase "Ann"
  ∧ toLowerCase (User.username ann_lower) = User.username ann_lower.
Proof.
  apply (findByUsername_no_capitals "Ann" {[ 3%nat := ann_lower ]} 3%nat ann_lower).
  vm_compute. reflexivity.
Defined.

(** * Properties of the authentication middleware *)

Lemma strip_prefix_app (p t : string) : Auth.strip_prefix p (p +:+ t) = Some t.
Proof.
  induction p as [| a p IH]; [reflexivity |].
  change (String a p +:+ t) with (String a (p +:+ t)). simpl.
  by rewrite decide_True.
Qed.

Lemma strip_prefix_Some (p s rest : string) :
  Auth.strip_prefix p s = Some rest → s = p +:+ rest.
Proof.
  revert s. induction p as [| a p IH]; intros s.
  - destruct s; simpl; intros [= <-]; reflexivity.
  - destruct s as [| b s]; [done |]. simpl.
    destruct (decide (a = b)) as [-> |]; [| done]. intros Hs.
    change (String b p +:+ rest) with (String b (p +:+ rest)).
    f_equal. by apply IH.
Qed.

Lemma replace_first_unfold (p s : string) :
  Auth.replace_first p s
  = match Auth.strip_prefix p s with
    | Some rest => rest
    | None =>
        match s with
        | String a s' => String a (Auth.replace_first p s')
        | EmptyString => EmptyString
        end
    end.
Proof. by destruct s. Qed.

Lemma replace_first_prefix (p t : string) : Auth.replace_first p (p +:+ t) = t.
Proof. by rewrite replace_first_unfold, strip_prefix_app. Qed.

Lemma replace_first_absent (t : string) :
  " "%char ∉ String.list_ascii_of_string t → Auth.replace_first "Bearer " t = t.
Proof.
  induction t as [| a t IH]; [done |]. intros Hno.
  rewrite replace_first_unfold.
  destruct (Auth.strip_prefix "Bearer " (String a t)) as [rest |] eqn:E.
  - apply strip_prefix_Some in E. destruct Hno. rewrite E.
    cbn. do 6 right. left.
  - f_equal. apply IH. intros Hin. apply Hno. cbn. by right.
Qed.

(** X18: the header that the request interceptor of the client builds
    from the stored token carries the token through the middleware: with a
    token in the storage the request is decided by [jwt.verify] on exactly
    this token and the secret, and without one (or with the empty string)
    it is refused with 401 "No token, authorization denied".  The
    middleware lets a request pass only with a payload that [jwt.verify]
    returned for the token of the header, and every refusal has the
    status 401. *)
Theorem bearer_round_trip {P : Type} (jwt_verify : string → string → Auth.Verified P)
    (JWT_SECRET : option string) :
  (∀ authToken,
     Auth.auth jwt_verify JWT_SECRET (Auth.authorization_header authToken)
     = match authToken with
       | Some token =>
           if decide (token = "")
           then Auth.Denied 401 "No token, authorization denied"
           else Auth.verdict (jwt_verify token (Auth.secret JWT_SECRET))
       | None => Auth.Denied 401 "No token, authorization denied"
       end)
  ∧ (∀ Authorization user,
       Auth.auth jwt_verify JWT_SECRET Authorization = Auth.Next user →
       ∃ header,
         Authorization = Some header
         ∧ Auth.replace_first "Bearer " header ≠ ""
         ∧ jwt_verify (Auth.replace_first "Bearer " header) (Auth.secret JWT_SECRET)
           = Auth.Decoded user)
  ∧ (∀ Authorization status message,
       Auth.auth jwt_verify JWT_SECRET Authorization = Auth.Denied status message →
       status = 401%nat).
Proof.
  split; [| split].
  - intros [token |]; [| done]. unfold Auth.authorization_header.
    destruct (decide (token = "")) as [-> | Hne]; [done |].
    unfold Auth.auth. cbn [fmap option_fmap option_map].
    rewrite replace_first_prefix. by rewrite decide_False.
  - intros [header |] user; [| done]. unfold Auth.auth.
    cbn [fmap option_fmap option_map].
    destruct (decide (Auth.replace_first "Bearer " header = "")); [done |].
    destruct (jwt_verify _ _) eqn:E; try done. simpl. intros [= <-]. by exists header.
  - intros [header |] status message; [| by intros [= <- _]]. unfold Auth.auth.
    cbn [fmap option_fmap option_map].
    destruct (decide (Auth.replace_first "Bearer " header = ""));
      [by intros [= <- _] |].
    destruct (jwt_verify _ _); simpl; [done | | |]; by intros [= <- _].
Qed.

(** X19: the scheme of the header is optional: a header that is the bare
    token, without "Bearer " before it, is decided as the header with the
    scheme is, for every token without a blank. *)
Theorem bearer_scheme_optional {P : Type}
    (jwt_verify : string → string → Auth.Verified P)
    (JWT_SECRET : option string) (token : string) :
  " "%char ∉ String.list_ascii_of_string token →
  Auth.auth jwt_verify JWT_SECRET (Some token)
  = Auth.auth jwt_verify JWT_SECRET (Some ("Bearer " +:+ token)).
Proof.
  intros Hno. unfold Auth.auth. cbn [fmap option_fmap option_map].
  by rewrite replace_first_prefix, replace_first_absent.
Qed.

(** A verifier that knows one token. *)
Lemma bearer_scheme_optional_witness :
  Auth.auth (λ token _, if decide (token = "abc.def.ghi")
                        then Auth.Decoded 7%nat else Auth.JsonWebTokenError)
            None (Some "abc.def.ghi")
  = Auth.auth (λ token _, if decide (token = "abc.def.ghi")
                          then Auth.Decoded 7%nat else Auth.JsonWebTokenError)
              None (Some ("Bearer " +:+ "abc.def.ghi")).
Proof.
  apply (bearer_scheme_optional
           (λ token _, if decide (token = "abc.def.ghi")
                       then Auth.Decoded 7%nat else Auth.JsonWebTokenError)
           None "abc.def.ghi").
  apply (bool_decide_unpack _). vm_compute. exact I.
Defined.

(** * Properties of the form of a task *)






(** * Properties of the client *)

Lemma message_or_nonempty (m : option string) (fallback : string) :
  fallback ≠ "" → Api.message_or m fallback ≠ "".
Proof.
  intros Hf. unfold Api.message_or. destruct m as [m |]; [| done].
  by destruct (decide (m = "")).
Qed.

Lemma filter_all {A} (P : A → Prop) `{∀ x, Decision (P x)} (l : list A) :
  filter P l = l ↔ Forall P l.
Proof.
  split.
  - intros Heq. apply Forall_forall. intros x Hx. rewrite <- Heq in Hx.
    by apply list_elem_of_filter in Hx as [? _].
  - induction 1 as [| x l Hx Hl IH]; [done |].
    rewrite filter_cons_True by done. by f_equal.
Qed.

Lemma filter_cons_neq {A} (P : A → Prop) `{∀ x, Decision (P x)} (x : A) (l : list A) :
  P x → x :: filter P l ≠ l.
Proof.
  intros Hx. induction l as [| y l IH]; [done |].
  intros Heq. injection Heq as <- Heq.
  rewrite filter_cons_True in Heq by done. by destruct IH.
Qed.

(** X21: a task that the reducer adds and then deletes by an identifier
    leaves the state as it was exactly when the identifier is the one of
    the task and no task of the state had it; [UPDATE_TASK] keeps the
    number of the tasks, changes nothing when no task has the identifier
    of the payload, and done twice is the same as done once; none of the
    three actions touches the categories, the flag or the error. *)
Theorem taskReducer_round_trip (s : TaskContext.TaskState) (t : Mock.Obj) (id : string) :
  (TaskContext.taskReducer
     (TaskContext.taskReducer s (TaskContext.ADD_TASK t))
     (TaskContext.DELETE_TASK id) = s
   ↔ Mock.strict_eq (Mock.get t "id") (Mock.VStr id) = true
     ∧ Forall (λ x, Mock.strict_eq (Mock.get x "id") (Mock.VStr id) = false)
              (TaskContext.tasks s))
  ∧ length (TaskContext.tasks (TaskContext.taskReducer s (TaskContext.UPDATE_TASK t)))
    = length (TaskContext.tasks s)
  ∧ (Forall (λ x, Mock.strict_eq (Mock.get x "id") (Mock.get t "id") = false)
            (TaskContext.tasks s) →
     TaskContext.taskReducer s (TaskContext.UPDATE_TASK t) = s)
  ∧ TaskContext.taskReducer
      (TaskContext.taskReducer s (TaskContext.UPDATE_TASK t))
      (TaskContext.UPDATE_TASK t)
    = TaskContext.taskReducer s (TaskContext.UPDATE_TASK t)
  ∧ ∀ a, a = TaskContext.ADD_TASK t ∨ a = TaskContext.UPDATE_TASK t
         ∨ a = TaskContext.DELETE_TASK id →
      TaskContext.categories (TaskContext.taskReducer s a) = TaskContext.categories s
      ∧ TaskContext.isLoading (TaskContext.taskReducer s a) = TaskContext.isLoading s
      ∧ TaskContext.error (TaskContext.taskReducer s a) = TaskContext.error s.
Proof.
  destruct s as [ts cs il er]. cbn [TaskContext.taskReducer TaskContext.tasks
    TaskContext.categories TaskContext.isLoading TaskContext.error].
  split; [| split; [| split; [| split]]].
  - unfold TaskContext.remove_by_id. split.
    + intros [= Heq].
      destruct (Mock.strict_eq (Mock.get t "id") (Mock.VStr id)) eqn:Et.
      * rewrite filter_cons_False in Heq by (rewrite Et; done).
        split; [done |]. by apply (proj1 (filter_all _ ts)).
      * rewrite filter_cons_True in Heq by done.
        by destruct (filter_cons_neq
             (λ x, Mock.strict_eq (Mock.get x "id") (Mock.VStr id) = false)
             t ts Et).
    + intros [Et Hall]. rewrite filter_cons_False by (rewrite Et; done).
      f_equal. by apply (proj2 (filter_all _ ts)).
  - unfold TaskContext.replace_by_id. apply length_fmap.
  - intros Hall. f_equal. unfold TaskContext.replace_by_id.
    induction Hall as [| x l Hx Hl IH]; [done |].
    rewrite fmap_cons, Hx. by f_equal.
  - f_equal. unfold TaskContext.replace_by_id. rewrite <- list_fmap_compose.
    apply list_fmap_ext. intros _ x _. simpl.
    destruct (Mock.strict_eq (Mock.get x "id") (Mock.get t "id")) eqn:Ex.
    + by destruct (Mock.strict_eq (Mock.get t "id") (Mock.get t "id")).
    + by rewrite Ex.
  - intros a [-> | [-> | ->]]; done.
Qed.

(** X22: a function of [TaskProvider] whose request fails (it throws, or
    the envelope has no [success], or not the data awaited) leaves the
    tasks and the categories as they are and sets an error message that
    is not empty; no function other than [clearError] removes an error
    that the state holds, also when its request succeeds; and a function
    that finds the loading flag down leaves it down. *)
Theorem provider_failure (c : TaskContext.Call) (s : TaskContext.TaskState) :
  let s' := TaskContext.dispatch (TaskContext.actions c) s in
  (TaskContext.failed c →
     TaskContext.tasks s' = TaskContext.tasks s
     ∧ TaskContext.categories s' = TaskContext.categories s
     ∧ ∃ m, TaskContext.error s' = Some m ∧ m ≠ "")
  ∧ (c ≠ TaskContext.ClearError →
     is_Some (TaskContext.error s) → is_Some (TaskContext.error s'))
  ∧ (c = TaskContext.ClearError →
     s' = TaskContext.mkTaskState (TaskContext.tasks s) (TaskContext.categories s)
            (TaskContext.isLoading s) None)
  ∧ (TaskContext.isLoading s = false → TaskContext.isLoading s' = false).
Proof.
  assert (∀ m f, f ≠ "" → ∃ m', Some (Api.message_or m f) = Some m' ∧ m' ≠ "") as Hmsg.
  { intros m f Hf. eexists. split; [done |]. by apply message_or_nonempty. }
  destruct s as [ts cs il er]. cbv zeta.
  split; [| split; [| split]].
  - destruct c as [r | r | r | r | id r | r | r | r | id r |];
      try (destruct r as [[[] [d |] m] | e]);
      cbn; try (intros [? | ?]; done); try done;
      intros _; (split; [done |]); (split; [done |]);
      first [apply Hmsg; discriminate
            | eexists; split; [reflexivity | discriminate]].
  - intros Hc Her.
    destruct c as [r | r | r | r | id r | r | r | r | id r |];
      try (destruct r as [[[] [d |] m] | e]); cbn; try done; by eexists.
  - intros ->. reflexivity.
  - cbn [TaskContext.isLoading]. intros ->.
    destruct c as [r | r | r | r | id r | r | r | r | id r |];
      try (destruct r as [[[] [d |] m] | e]); reflexivity.
Qed.

(** ** The session of the user *)

Lemma reducer_consistent (s : AuthContext.AuthState) (a : AuthContext.AuthAction) :
  (∀ b, a ≠ AuthContext.SET_AUTHENTICATED b) →
  AuthContext.consistent s → AuthContext.consistent (AuthContext.authReducer s a).
Proof.
  unfold AuthContext.consistent. intros Ha Hs. destruct a; simpl; try done.
  by destruct (Ha payload).
Qed.

Lemma dispatch_consistent (l : list AuthContext.AuthAction) (s : AuthContext.AuthState) :
  Forall (λ a, ∀ b, a ≠ AuthContext.SET_AUTHENTICATED b) l →
  AuthContext.consistent s → AuthContext.consistent (AuthContext.dispatch l s).
Proof.
  unfold AuthContext.dispatch. intros Hl. revert s.
  induction Hl as [| a l Ha Hl IH]; intros s Hs; [done |].
  simpl. apply IH. by apply reducer_consistent.
Qed.

Lemma login_no_set_authenticated (r : Api.Awaited (Mock.Obj * string)) :
  Forall (λ a, ∀ b, a ≠ AuthContext.SET_AUTHENTICATED b) (AuthContext.login r).
Proof.
  unfold AuthContext.login.
  destruct r as [[[] [[u t] |] m] | [e |]]; simpl; repeat constructor; done.
Qed.

Lemma actions_no_set_authenticated (c : AuthContext.Call) :
  Forall (λ a, ∀ b, a ≠ AuthContext.SET_AUTHENTICATED b) (AuthContext.actions c).
Proof.
  destruct c as [t r | r | r l | |]; cbn [AuthContext.actions].
  - unfold AuthContext.checkAuth. destruct t as [t |];
      [destruct (decide (t = "")) |];
      try (destruct r as [[[] [d |] m] | e]); simpl; repeat constructor; done.
  - apply login_no_set_authenticated.
  - unfold AuthContext.register. rewrite !Forall_app.
    split; [repeat constructor; done |]. split; [| repeat constructor; done].
    destruct r as [[[] [d |] m] | [e |]]; cbn [Api.success Api.data Api.message];
      try (repeat constructor; done).
    rewrite Forall_app. split; [apply login_no_set_authenticated |].
    destruct (AuthContext.login_throws l) as [[m' |] |]; repeat constructor; done.
  - repeat constructor; done.
  - repeat constructor; done.
Qed.

(** X23: the functions of [AuthProvider] keep the state consistent: it
    tells that a user is logged in exactly when it holds one, because
    they never dispatch [SET_AUTHENTICATED], the one action that breaks
    this.  [checkAuth], [login] and [register] end with the loading flag
    down; [logout] clears user, token and error whatever the server
    answers; a [login] that succeeds stores the user and the token of the
    response and clears the error; a [login] that fails keeps user and
    token as they were and sets the error it throws; and [checkAuth] that
    finds no token in the storage logs nobody out. *)
Theorem auth_provider_consistent (c : AuthContext.Call) (s : AuthContext.AuthState) :
  let s' := AuthContext.dispatch (AuthContext.actions c) s in
  (AuthContext.consistent s → AuthContext.consistent s')
  ∧ AuthContext.consistent AuthContext.initialState
  ∧ (∀ s0 a, AuthContext.consistent s0 →
       ¬ AuthContext.consistent (AuthContext.authReducer s0 a) →
       ∃ b, a = AuthContext.SET_AUTHENTICATED b)
  ∧ (c ≠ AuthContext.Logout → c ≠ AuthContext.ClearError →
     AuthContext.isLoading s' = false)
  ∧ (c = AuthContext.Logout →
     s' = AuthContext.mkAuthState None None (AuthContext.isLoading s) false None)
  ∧ (∀ r u t, c = AuthContext.Login (Api.Resolved r) →
       Api.success r = true → Api.data r = Some (u, t) →
       s' = AuthContext.mkAuthState (Some u) (Some t) false true None)
  ∧ (∀ r m, c = AuthContext.Login r → AuthContext.login_error r = Some m →
       s' = AuthContext.mkAuthState (AuthContext.user s) (AuthContext.token s)
              false (AuthContext.isAuthenticated s) (Some m))
  ∧ (∀ r, c = AuthContext.CheckAuth None r →
       s' = AuthContext.mkAuthState (AuthContext.user s) (AuthContext.token s)
              false (AuthContext.isAuthenticated s) (AuthContext.error s)).
Proof.
  cbv zeta. split; [| split; [| split; [| split; [| split; [| split; [| split]]]]]].
  - apply dispatch_consistent, actions_no_set_authenticated.
  - unfold AuthContext.consistent. simpl. split; [done | by intros [? ?]].
  - intros s0 a Hs0 Hbad.
    destruct a as [b | u | t | b | m | |];
      try (exfalso; apply Hbad; apply reducer_consistent;
           [intros b'; discriminate | exact Hs0]).
    by exists b.
  - intros Hc1 Hc2. destruct c as [t r | r | r l | |]; try done;
      cbn [AuthContext.actions].
    + unfold AuthContext.checkAuth. destruct t as [t |];
        [destruct (decide (t = "")) |];
        try (destruct r as [[[] [d |] m] | e]); reflexivity.
    + destruct r as [[[] [[u t] |] m] | [e |]]; reflexivity.
    + unfold AuthContext.register, AuthContext.dispatch.
      rewrite !foldl_app. reflexivity.
  - intros ->. reflexivity.
  - intros r u t -> Hs Hd. destruct r as [su da me]. simpl in Hs, Hd. subst.
    reflexivity.
  - intros r m -> Hm.
    destruct r as [[[] [[u t] |] me] | [e |]]; simpl in Hm; try done;
      injection Hm as <-; reflexivity.
  - intros r ->. reflexivity.
Qed.

(** ** The client and the in-memory server *)

Section SessionFacts.

Variable toISOString : Z → string.
Variable new_Date : Mock.Value → Mock.Value.

Lemma to_json_id (o : Mock.Obj) (s : string) :
  Mock.get o "id" = Mock.VStr s → Mock.get (to_json toISOString o) "id" = Mock.VStr s.
Proof.
  unfold Mock.get, to_json. rewrite lookup_omap.
  destruct (o !! "id") as [v |]; [| done]. simpl. by intros ->.
Qed.

Lemma strict_eq_VStr (a b : string) :
  Mock.strict_eq (Mock.VStr a) (Mock.VStr b) = bool_decide (a = b).
Proof. reflexivity. Qed.

Lemma other_id (l : list Mock.Obj) (i j : nat) (x y : Mock.Obj) (s : string) :
  distinct_ids l → l !! i = Some x → Mock.get x "id" = Mock.VStr s →
  l !! j = Some y → j ≠ i →
  Mock.strict_eq (Mock.get (to_json toISOString y) "id") (Mock.VStr s) = false.
Proof.
  intros [Hnd Hstr] Hi Hx Hj Hne.
  destruct (proj1 (Forall_forall _ _) Hstr y (list_elem_of_lookup_2 _ _ _ Hj))
    as [s' Hy].
  rewrite (to_json_id y s' Hy), strict_eq_VStr. apply bool_decide_eq_false.
  intros ->. apply Hne.
  apply (NoDup_lookup _ j i (Mock.VStr s) Hnd); rewrite list_lookup_fmap.
  - by rewrite Hj; simpl; rewrite Hy.
  - by rewrite Hi; simpl; rewrite Hx.
Qed.

Lemma replace_by_id_insert (l : list Mock.Obj) (i : nat) (x p : Mock.Obj) (s : string) :
  distinct_ids l → l !! i = Some x →
  Mock.get x "id" = Mock.VStr s → Mock.get p "id" = Mock.VStr s →
  TaskContext.replace_by_id (to_json toISOString p) (to_json toISOString <$> l)
  = to_json toISOString <$> <[i := p]> l.
Proof.
  intros Hd Hi Hx Hp. unfold TaskContext.replace_by_id.
  rewrite (to_json_id p s Hp). apply list_eq. intros j.
  rewrite !list_lookup_fmap. destruct (decide (j = i)) as [-> | Hne].
  - rewrite Hi, list_lookup_insert_eq by by eapply lookup_lt_Some. simpl.
    by rewrite (to_json_id x s Hx), strict_eq_VStr, bool_decide_eq_true_2.
  - rewrite list_lookup_insert_ne by done.
    destruct (l !! j) as [y |] eqn:Hj; [| done]. simpl.
    by rewrite (other_id l i j x y s Hd Hi Hx Hj Hne).
Qed.

Lemma remove_by_id_delete (l : list Mock.Obj) (i : nat) (x : Mock.Obj) (s : string) :
  distinct_ids l → l !! i = Some x → Mock.get x "id" = Mock.VStr s →
  TaskContext.remove_by_id s (to_json toISOString <$> l)
  = to_json toISOString <$> delete i l.
Proof.
  intros Hd Hi Hx.
  rewrite <- (take_drop_middle l i x Hi) at 1.
  rewrite delete_take_drop, !fmap_app, fmap_cons.
  unfold TaskContext.remove_by_id. rewrite filter_app.
  rewrite filter_cons_False
    by (rewrite (to_json_id x s Hx), strict_eq_VStr, bool_decide_eq_true_2; done).
  f_equal; apply filter_all, Forall_fmap, Forall_forall; intros y Hy.
  - apply elem_of_take in Hy as (j & Hj & Hlt). simpl.
    apply (other_id l i j x y s Hd Hi Hx Hj). lia.
  - apply list_elem_of_lookup in Hy as [j Hj]. rewrite lookup_drop in Hj. simpl.
    apply (other_id l i (S i + j) x y s Hd Hi Hx Hj). lia.
Qed.

Lemma ids_issued_distinct (st : Mock.State) :
  ids_issued st → distinct_ids (Mock.tasks st).
Proof.
  intros [Hnd Hall]. split; [exact Hnd |]. unfold task_ids in Hall.
  rewrite Forall_fmap in Hall. eapply Forall_impl; [exact Hall |].
  simpl. intros o (n & _ & ->). by eexists.
Qed.

Lemma find_by_id (id : string) (l : list Mock.Obj) (i : nat) (x : Mock.Obj) :
  distinct_ids l → Mock.find_by "id" (Mock.VStr id) l = Some (i, x) →
  l !! i = Some x ∧ Mock.get x "id" = Mock.VStr id.
Proof.
  intros [_ Hstr] [Hi Heq]%mock_find_by_Some. split; [done |].
  destruct (proj1 (Forall_forall _ _) Hstr x (list_elem_of_lookup_2 _ _ _ Hi))
    as [s Hs].
  rewrite Hs, strict_eq_VStr in Heq. apply bool_decide_eq_true in Heq. by subst.
Qed.

Lemma ids_issued_insert (st : Mock.State) (i : nat) (x p : Mock.Obj) :
  ids_issued st → Mock.tasks st !! i = Some x →
  Mock.get p "id" = Mock.get x "id" →
  ids_issued (Mock.mkState (Mock.users st) (<[i := p]> (Mock.tasks st))
                           (Mock.categories st) (Mock.nextId st)).
Proof.
  intros Hinv Hi Hp. unfold ids_issued, task_ids in *. simpl.
  rewrite list_fmap_insert, Hp. rewrite list_insert_id; [done |].
  by rewrite list_lookup_fmap, Hi.
Qed.

Lemma perform_in_sync (now : Z) (g : Gesture)
    (cs : TaskContext.TaskState * Mock.State) :
  ids_issued cs.2 → in_sync toISOString cs → keeps_id g →
  in_sync toISOString (perform toISOString new_Date now g cs)
  ∧ ids_issued (perform toISOString new_Date now g cs).2.
Proof.
  destruct cs as [[ts cats il er] st]. unfold in_sync. simpl.
  intros Hinv Hsync Hkeep. pose proof (ids_issued_distinct st Hinv) as Hd.
  destruct g as [| body | id body | id | id]; cbn [perform fst snd].
  - done.
  - unfold Mock.post_task.
    destruct (negb (Mock.truthy (Mock.get body "title"))); [by subst |].
    simpl. split; [by subst |].
    destruct Hinv as [Hnd Hall]. unfold ids_issued, task_ids in *. simpl.
    unfold Mock.get at 1 3. rewrite lookup_insert_eq. simpl. split.
    + apply NoDup_cons. split; [| done].
      intros Hin. apply (proj1 (Forall_forall _ _) Hall) in Hin as (n & Hlt & Heq).
      injection Heq as Heq. apply (inj pretty) in Heq. lia.
    + apply Forall_cons. split; [exists (Mock.nextId st); split; [lia | done] |].
      eapply Forall_impl; [exact Hall |]. simpl.
      intros v (n & Hlt & ->). exists n. split; [lia | done].
  - unfold Mock.put_task.
    destruct (Mock.find_by "id" (Mock.VStr id) (Mock.tasks st)) as [[i x] |] eqn:Hf;
      [| by subst].
    apply (find_by_id id _ i x Hd) in Hf as [Hi Hx]. simpl.
    assert (Mock.get (Mock.merge now x body) "id" = Mock.get x "id") as Hm.
    { unfold Mock.get. rewrite mock_merge_lookup, decide_False by done.
      simpl in Hkeep. by rewrite Hkeep. }
    split.
    + subst ts. apply (replace_by_id_insert _ i x _ id Hd Hi Hx). by rewrite Hm.
    + by apply (ids_issued_insert st i x).
  - unfold Mock.delete_task.
    destruct (Mock.find_by "id" (Mock.VStr id) (Mock.tasks st)) as [[i x] |] eqn:Hf;
      [| by subst].
    apply (find_by_id id _ i x Hd) in Hf as [Hi Hx]. simpl. split.
    + subst ts. by apply (remove_by_id_delete _ i x id Hd Hi Hx).
    + destruct Hinv as [Hnd Hall]. unfold ids_issued, task_ids in *. simpl.
      rewrite list_fmap_delete, delete_take_drop. split.
      * rewrite <- (take_drop_middle _ i (Mock.get x "id")) in Hnd
          by by rewrite list_lookup_fmap, Hi.
        apply NoDup_app in Hnd as (Hn1 & Hn2 & Hn3).
        apply NoDup_cons in Hn3 as [_ Hn3]. apply NoDup_app.
        split; [done |]. split; [| done].
        intros v Hv Hv'. apply (Hn2 v Hv). by right.
      * apply Forall_app. split; [by apply Forall_take | by apply Forall_drop].
  - unfold Mock.patch_task_complete.
    destruct (Mock.find_by "id" (Mock.VStr id) (Mock.tasks st)) as [[i x] |] eqn:Hf;
      [| by subst].
    apply (find_by_id id _ i x Hd) in Hf as [Hi Hx]. simpl.
    match goal with
    | |- context [<[i := ?p]> (Mock.tasks st)] =>
        assert (Mock.get p "id" = Mock.get x "id") as Hm
    end.
    { unfold Mock.get. by rewrite !lookup_insert_ne by done. }
    split.
    + subst ts. apply (replace_by_id_insert _ i x _ id Hd Hi Hx). by rewrite Hm.
    + by apply (ids_issued_insert st i x).
Qed.

(** X24: the tasks that the client shows stay the tasks of the in-memory
    server.  When the tasks of the client are the tasks of the server as
    JSON, and the tasks of the server have different identifiers that
    [generateId] issued, both are so again after every sequence of
    creations, updates, deletions, toggles and refreshes through the
    functions of [TaskProvider], provided the body of no update carries
    an [id]. *)
Theorem client_mirrors_server (gs : list (Z * Gesture))
    (cs : TaskContext.TaskState * Mock.State) :
  ids_issued cs.2 → in_sync toISOString cs → Forall (λ g, keeps_id g.2) gs →
  in_sync toISOString (session toISOString new_Date gs cs)
  ∧ ids_issued (session toISOString new_Date gs cs).2.
Proof.
  intros Hinv Hsync Hkeep. revert cs Hinv Hsync.
  induction Hkeep as [| [now g] gs Hg Hgs IH]; intros cs Hinv Hsync; [done |].
  unfold session. simpl.
  destruct (perform_in_sync now g cs Hinv Hsync Hg) as [Hsync' Hinv'].
  by apply IH.
Qed.

End SessionFacts.

(** The session of [gestures], after the first fetch. *)
Lemma client_mirrors_server_witness :
  in_sync pretty (session pretty (λ v, v) gestures fetched)
  ∧ ids_issued (session pretty (λ v, v) gestures fetched).2.
Proof.
  apply (client_mirrors_server pretty (λ v, v) gestures fetched).
  - unfold ids_issued.
    assert (task_ids fetched.2 = [Mock.VStr "4"]) as -> by (vm_compute; reflexivity).
    split; [apply NoDup_singleton |]. repeat constructor.
    exists 4%nat. split; [vm_compute; lia | reflexivity].
  - vm_compute. reflexivity.
  - repeat constructor.
Defined.

(** * Registration and login on the in-memory server *)

(** X25: on the in-memory server a registration with an e-mail address
    (a string) that no user has, a user name and a password succeeds: the
    new user comes last, with the next identifier, the address and the
    name, and without the password, which the server does not keep.
    After it a login with the address and any password returns this user,
    and a second registration with the address is refused with "User
    already exists" and changes nothing. *)
Theorem mock_register_then_login (now now' : Z) (body credentials : Mock.Obj)
    (st : Mock.State) (e : string) :
  Mock.get body "email" = Mock.VStr e → e ≠ "" →
  Mock.truthy (Mock.get body "username") = true →
  Mock.truthy (Mock.get body "password") = true →
  Mock.find_by "email" (Mock.VStr e) (Mock.users st) = None →
  Mock.get credentials "email" = Mock.VStr e →
  Mock.truthy (Mock.get credentials "password") = true →
  ∃ u,
    (Mock.register now body st).1
    = Mock.Success (Mock.DAuth u (Mock.mock_token now)) "User registered successfully"
    ∧ Mock.users (Mock.register now body st).2 = Mock.users st ++ [u]
    ∧ Mock.tasks (Mock.register now body st).2 = Mock.tasks st
    ∧ Mock.categories (Mock.register now body st).2 = Mock.categories st
    ∧ Mock.nextId (Mock.register now body st).2 = S (Mock.nextId st)
    ∧ u !! "id" = Some (Mock.VStr (pretty (Mock.nextId st)))
    ∧ u !! "email" = Some (Mock.VStr e)
    ∧ u !! "username" = Some (Mock.get body "username")
    ∧ u !! "password" = None
    ∧ Mock.login now' credentials (Mock.register now body st).2
      = (Mock.Success (Mock.DAuth u (Mock.mock_token now')) "Login successful",
         (Mock.register now body st).2)
    ∧ Mock.register now' body (Mock.register now body st).2
      = (Mock.Failure 400 "User already exists", (Mock.register now body st).2).
Proof.
  intros He Hne Hu Hp Hnew Hce Hcp.
  assert (Mock.truthy (Mock.VStr e) = true) as Hte.
  { simpl. by rewrite bool_decide_eq_false_2. }
  set (u := ({[ "id" := Mock.VStr (pretty (Mock.nextId st));
                "email" := Mock.VStr e;
                "username" := Mock.get body "username";
                "createdAt" := Mock.VDate now;
                "updatedAt" := Mock.VDate now ]} : Mock.Obj)).
  assert (Mock.register now body st
          = (Mock.Success (Mock.DAuth u (Mock.mock_token now))
               "User registered successfully",
             Mock.mkState (Mock.users st ++ [u]) (Mock.tasks st)
               (Mock.categories st) (S (Mock.nextId st)))) as Hreg.
  { unfold Mock.register. rewrite He, Hte, Hu, Hp, Hnew. reflexivity. }
  assert (u !! "email" = Some (Mock.VStr e)) as Hemail.
  { unfold u. rewrite lookup_insert_ne by done. by rewrite lookup_insert_eq. }
  assert (Mock.find_by "email" (Mock.VStr e) (Mock.users st ++ [u])
          = Some (length (Mock.users st), u)) as Hfind.
  { unfold Mock.find_by in *. rewrite list_find_app_r by done. simpl.
    rewrite decide_True; [done |].
    unfold Mock.get. rewrite Hemail. simpl. by apply bool_decide_eq_true. }
  exists u. rewrite Hreg. cbn [fst snd Mock.users Mock.tasks Mock.categories
    Mock.nextId].
  do 5 (split; [reflexivity |]).
  split; [unfold u; by rewrite lookup_insert_eq |].
  split; [exact Hemail |].
  split; [unfold u; rewrite !lookup_insert_ne by done; by rewrite lookup_insert_eq |].
  split; [unfold u; rewrite !lookup_insert_ne by done; apply lookup_singleton_ne; done |].
  split.
  - unfold Mock.login. rewrite Hce, Hte, Hcp. cbn [negb orb Mock.users].
    by rewrite Hfind.
  - unfold Mock.register. rewrite He, Hte, Hu, Hp. cbn [negb orb Mock.users].
    by rewrite Hfind.
Qed.

(** The registration of [register_body] on the server that has just
    started, and the login that follows. *)
Lemma mock_register_then_login_witness :
  ∃ u,
    (Mock.register 1 register_body mock_demo).1
    = Mock.Success (Mock.DAuth u (Mock.mock_token 1)) "User registered successfully"
    ∧ Mock.login 2 register_body (Mock.register 1 register_body mock_demo).2
      = (Mock.Success (Mock.DAuth u (Mock.mock_token 2)) "Login successful",
         (Mock.register 1 register_body mock_demo).2)
    ∧ Mock.register 2 register_body (Mock.register 1 register_body mock_demo).2
      = (Mock.Failure 400 "User already exists",
         (Mock.register 1 register_body mock_demo).2).
Proof.
  destruct (mock_register_then_login 1 2 register_body register_body mock_demo
              "ann@example.com") as (u & H1 & _ & _ & _ & _ & _ & _ & _ & _ & H2 & H3);
    try (vm_compute; reflexivity); [discriminate |].
  by exists u.
Defined.

(** * Requests that fail *)

(** A request that only reads leaves the database alone. *)
Lemma handle_read_only (RegExp_i : string → option (string → bool))
    (actor : oid) (now : Z) (r : Request) (s : Store) :
  reads_only r = true → (handle RegExp_i actor now r s).2 = s.
Proof.
  destruct r; try discriminate; intros _; cbn [handle];
    unfold get_tasks, get_task, get_category; repeat case_match; reflexivity.
Qed.

(** X26: a request that fails changes nothing: whenever a route of the two
    routers answers with a failure, the database is as it was before the
    request, and so it is after every request that only reads; the same
    holds of the routes of the in-memory server. *)
Theorem failed_request_changes_nothing (RegExp_i : string → option (string → bool))
    (new_Date : Mock.Value → Mock.Value)
    (actor : oid) (now : Z) (s : Store) (st : Mock.State) :
  (∀ r e, (handle RegExp_i actor now r s).1 = Fail e →
          (handle RegExp_i actor now r s).2 = s)
  ∧ (∀ r, reads_only r = true → (handle RegExp_i actor now r s).2 = s)
  ∧ (∀ out code m,
       (∃ body id,
          out = Mock.register now body st ∨ out = Mock.login now body st
          ∨ out = Mock.post_task new_Date now body st
          ∨ out = Mock.put_task now id body st
          ∨ out = Mock.delete_task id st
          ∨ out = Mock.patch_task_complete now id st
          ∨ out = Mock.post_category now body st) →
       out.1 = Mock.Failure code m → out.2 = st).
Proof.
  split; [| split].
  - intros r e.
    destruct r as [q | k | body | k body | k | k | | q | k | body | k body | k | k
                  | k n |]; cbn [handle].
    + unfold get_tasks. repeat case_match; done.
    + unfold get_task. by case_match.
    + unfold post_task. repeat case_match; done.
    + unfold put_task. repeat case_match; done.
    + unfold patch_task_complete. by case_match.
    + unfold delete_task. by case_match.
    + done.
    + done.
    + unfold get_category. by case_match.
    + unfold post_category. repeat case_match; done.
    + unfold put_category. repeat case_match; done.
    + unfold delete_category. repeat case_match; done.
    + unfold patch_category_toggle. by case_match.
    + unfold patch_category_reorder. repeat case_match; done.
    + done.
  - intros r. apply handle_read_only.
  - intros out code m (body & id & [-> | [-> | [-> | [-> | [-> | [-> | ->]]]]]]).
    + unfold Mock.register. repeat case_match; done.
    + unfold Mock.login. repeat case_match; done.
    + unfold Mock.post_task. repeat case_match; done.
    + unfold Mock.put_task. repeat case_match; done.
    + unfold Mock.delete_task. repeat case_match; done.
    + unfold Mock.patch_task_complete. repeat case_match; done.
    + unfold Mock.post_category. repeat case_match; done.
Qed.
